(** * Auto opener: a model of [main.py] and its checked properties

    The program keeps named folders ("options") of launchable items
    (program shortcuts and web URLs) in a data directory and offers buttons
    to create, delete and run them.  This development embeds the non-GUI
    behaviour of [main.py]: the classes [OptionApp], [Option], [OptionIter],
    [MainPage] and [OptionPage], and the page switching of [AutoOpenerApp].
    Python objects with identity live in a store, the data directory is a
    finite map, and every method is a computation in a small
    state-and-exception monad.  Of the widgets (labels, frames, colours)
    only the page that the window shows is kept: the others hold no state
    that any method below reads back. *)

From Stdlib Require Import Ascii.
From stdpp Require Import gmap strings list fin_maps.

(** ** Python text primitives *)

Module PyStr.

Definition LF : ascii := "010"%char.
Definition CR : ascii := "013"%char.

(** [str.isspace] on one character.  Strings are modelled over the code
    points 0..255; in that range Python's whitespace is TAB, LF, VT, FF, CR,
    FS, GS, RS, US, SPACE, NEL (0x85) and NBSP (0xA0). *)
Definition isspace (c : ascii) : bool :=
  let n := nat_of_ascii c in
  ((9 <=? n) && (n <=? 13)) || ((28 <=? n) && (n <=? 32))
  || (n =? 133) || (n =? 160).

(** [s.lstrip()] *)
Fixpoint lstrip (s : string) : string :=
  match s with
  | EmptyString => EmptyString
  | String c r => if isspace c then lstrip r else s
  end.

(** [s.rstrip()]: a character is dropped when it is whitespace and
    everything after it has been dropped too. *)
Fixpoint rstrip (s : string) : string :=
  match s with
  | EmptyString => EmptyString
  | String c r =>
      match rstrip r with
      | EmptyString => if isspace c then EmptyString else String c EmptyString
      | r' => String c r'
      end
  end.

(** [s.strip()] *)
Definition strip (s : string) : string := rstrip (lstrip s).

(** [not s]: the truth value of a string is its non-emptiness. *)
Definition is_empty (s : string) : bool :=
  match s with EmptyString => true | _ => false end.

(** [s.startswith(p)] and [s.startswith((p1, p2))] *)
Definition startswith (s p : string) : bool := String.prefix p s.
Definition startswith_any (s : string) (ps : list string) : bool :=
  existsb (startswith s) ps.

(** Reading a text file opened with the default [newline=None]: universal
    newlines, CR LF and a lone CR both become LF. *)
Fixpoint universal_newlines (s : string) : string :=
  match s with
  | EmptyString => EmptyString
  | String c r =>
      if Ascii.eqb c CR then
        match r with
        | String c' r' =>
            if Ascii.eqb c' LF then String LF (universal_newlines r')
            else String LF (universal_newlines r)
        | EmptyString => String LF EmptyString
        end
      else String c (universal_newlines r)
  end.

(** Writing to a text file opened with the default [newline=None]: every LF
    written becomes the platform's line separator. *)
Fixpoint translate_newlines (linesep : string) (s : string) : string :=
  match s with
  | EmptyString => EmptyString
  | String c r =>
      if Ascii.eqb c LF then linesep +:+ translate_newlines linesep r
      else String c (translate_newlines linesep r)
  end.

(** [file.readlines()] on decoded text: the lines with their terminating LF
    kept; a last line without terminator is a line too. *)
Fixpoint splitlines_keepends (s : string) : list string :=
  match s with
  | EmptyString => []
  | String c r =>
      if Ascii.eqb c LF then String LF EmptyString :: splitlines_keepends r
      else match splitlines_keepends r with
           | [] => [String c EmptyString]
           | l :: ls => String c l :: ls
           end
  end.

End PyStr.

(** ** Data model *)

(** [class OptionAppType(Enum)] *)
Inductive OptionAppType := lnk | web.

(** The value held by [OptionApp.path]: a [pathlib.Path] for a shortcut, a
    plain [str] (the URL) for a web item.  A [Path] is kept as its components
    below [data_folder_path]; every component is one directory entry name. *)
Inductive PathLike :=
  | PurePath (parts : list string)
  | Str (s : string).

(** [class OptionApp].  [app_id] is the identity of the Python object: the
    class defines no [__eq__], so [list.remove] and [==] go by identity. *)
Record OptionApp := mkOptionApp {
  app_id : nat;
  app_path : PathLike;
  app_type : OptionAppType;
  app_selected : bool
}.

(** [class Option]: a folder.  The object itself lives in the store under
    its identity. *)
Record Option := mkOption {
  name : string;
  apps : list OptionApp;
  selected : bool
}.

(** What the file dialog of "Add new program" answers with: the name of
    the chosen file and the stem that [pathlib] derives from it. *)
Record ChosenFile := mkChosenFile {
  file_name : string;
  file_stem : string
}.

(** What the operating system was asked to open. *)
Inductive Launch :=
  | Startfile (p : PathLike)   (* os.startfile(path) *)
  | OpenWeb (p : PathLike).    (* webbrowser.open(path) *)

(** The platform fixes [os.linesep]. *)
Inductive Platform := Windows | Posix.

Definition os_linesep (p : Platform) : string :=
  match p with
  | Windows => String PyStr.CR (String PyStr.LF EmptyString)
  | Posix => String PyStr.LF EmptyString
  end.

(** The whole program state.
    - [objs]: the [Option] objects by identity; [next_id]: next fresh identity;
    - [all_]: the class attribute [Option.__all__];
    - [options]: [MainPage.options];
    - [data]: the data folder, directory name to (file name to raw content);
    - [launched]: the launches requested so far, oldest first. *)
Record State := mkState {
  objs : gmap nat Option;
  next_id : nat;
  all_ : list nat;
  options : list nat;
  data : gmap string (gmap string string);
  launched : list Launch
}.

Definition with_objs (f : gmap nat Option → gmap nat Option) (st : State) : State :=
  mkState (f (objs st)) (next_id st) (all_ st) (options st) (data st) (launched st).
Definition with_next_id (n : nat) (st : State) : State :=
  mkState (objs st) n (all_ st) (options st) (data st) (launched st).
Definition with_all (l : list nat) (st : State) : State :=
  mkState (objs st) (next_id st) l (options st) (data st) (launched st).
Definition with_options (l : list nat) (st : State) : State :=
  mkState (objs st) (next_id st) (all_ st) l (data st) (launched st).
Definition with_data (d : gmap string (gmap string string)) (st : State) : State :=
  mkState (objs st) (next_id st) (all_ st) (options st) d (launched st).
Definition with_launched (l : list Launch) (st : State) : State :=
  mkState (objs st) (next_id st) (all_ st) (options st) (data st) l.

(** ** The monad of the program: state, and exceptions that keep the state
    reached when they were raised *)

Inductive exn :=
  | AttributeError
  | ValueError
  | FileNotFoundError
  | FileExistsError
  | NotADirectoryError.

Global Instance exn_eq_dec : EqDecision exn.
Proof. solve_decision. Defined.

Inductive Res (A : Type) :=
  | Ok (a : A)
  | Raise (e : exn).
Arguments Ok {A} a.
Arguments Raise {A} e.

Definition M (A : Type) : Type := State → Res A * State.

Definition ret {A} (a : A) : M A := λ st, (Ok a, st).
Definition raise {A} (e : exn) : M A := λ st, (Raise e, st).
Definition bind {A B} (m : M A) (k : A → M B) : M B :=
  λ st, match m st with
        | (Ok a, st') => k a st'
        | (Raise e, st') => (Raise e, st')
        end.
Definition get_state : M State := λ st, (Ok st, st).
Definition modify (f : State → State) : M unit := λ st, (Ok tt, f st).

(** [try: body / except e: handler] *)
Definition try_except {A} (body : M A) (e : exn) (handler : M A) : M A :=
  λ st, match body st with
        | (Raise e', st') =>
            if bool_decide (e' = e) then handler st' else (Raise e', st')
        | r => r
        end.

Declare Scope py_scope.
Delimit Scope py_scope with py.
Notation "x <- m ;; k" := (bind m (λ x, k))
  (at level 100, m at next level, right associativity) : py_scope.
Notation "m ;; k" := (bind m (λ _, k))
  (at level 100, right associativity) : py_scope.
Open Scope py_scope.

(** [for x in l: body(x)] over a list that the body does not change *)
Fixpoint for_ {A} (l : list A) (body : A → M unit) : M unit :=
  match l with
  | [] => ret tt
  | x :: r => body x ;; for_ r body
  end.

(** The same loop with a local variable [acc] updated by the body *)
Fixpoint for_acc {A B} (l : list A) (acc : B) (body : A → B → M B) : M B :=
  match l with
  | [] => ret acc
  | x :: r => acc' <- body x acc ;; for_acc r acc' body
  end.

Global Instance OptionAppType_eq_dec : EqDecision OptionAppType.
Proof. solve_decision. Defined.
Global Instance PathLike_eq_dec : EqDecision PathLike.
Proof. solve_decision. Defined.

(** ** The operating system: the data folder and the launcher

    A path is the list of the names joined to [data_folder_path].  The data
    folder holds directories only, and a directory holds files only, which is
    the layout the program itself produces; names are compared as they are,
    as on a file system that tells upper from lower case.  Calls fail as the
    Python ones do: the exception is raised and the state is left as it was.

    A folder's name is joined to the path as the user typed it.  A name that
    is one path component ([plain_name]) is a directory of the data folder,
    or free, and there the calls below are the real ones.  Other names are
    resolved as far as the data folder tells: "." and the like are the data
    folder itself, ".." is its parent, "work/" is the directory "work"; all
    of these exist where the real [os.path.isdir] says so.  A name that leads
    anywhere else (below a directory, beside the data folder, to an absolute
    path) is taken as one component of its own: there the model does not
    follow the real calls, and every statement about making a directory is
    for plain names. *)

Definition data_folder_path : list string := [].

(** [Path.joinpath(p, name)] *)
Definition joinpath (p : list string) (n : string) : list string := p ++ [n].

(** The pieces of a name between its separators "/". *)
Fixpoint split_on (sep : ascii) (s : string) : list string :=
  match s with
  | EmptyString => [EmptyString]
  | String c r =>
      if Ascii.eqb c sep then EmptyString :: split_on sep r
      else match split_on sep r with
           | [] => [String c EmptyString]
           | piece :: pieces => String c piece :: pieces
           end
  end.

(** The components that [pathlib] keeps of a name: empty pieces and "."
    are dropped. *)
Definition path_parts (n : string) : list string :=
  filter (λ c, c ≠ "" ∧ c ≠ ".") (split_on "/" n).

(** The length of a name in bytes, in UTF-8: code points from 128 on take
    two bytes. *)
Fixpoint byte_length (s : string) : nat :=
  match s with
  | EmptyString => 0
  | String c r => (if nat_of_ascii c <? 128 then 1 else 2) + byte_length r
  end.

(** The characters that no path component holds: the separators of POSIX
    and Windows paths and NUL. *)
Definition is_separator (c : ascii) : bool :=
  Ascii.eqb c "/" || Ascii.eqb c (ascii_of_nat 92) || Ascii.eqb c "000".

Fixpoint has_separator (s : string) : bool :=
  match s with
  | EmptyString => false
  | String c r => is_separator c || has_separator r
  end.

(** A name that is one path component: not empty, not "." or "..", free of
    separators, and at most the 255 bytes that file systems take. *)
Definition plain_name (n : string) : bool :=
  negb (PyStr.is_empty n) && negb (has_separator n)
  && negb (bool_decide (n = ".")) && negb (bool_decide (n = ".."))
  && (byte_length n <=? 255).

(** The entry names of a directory, in the order [os.listdir] gives them.
    Python leaves that order open; nothing proved below depends on it. *)
Definition keys {V} (m : gmap string V) : list string := (map_to_list m).*1.

Module os.

(** Whether the name [d], joined to the data folder's path, is an existing
    directory: a directory of the data folder; or a path of ".." only, an
    ancestor of the data folder (none at all: the data folder itself); or
    another way to write the name of a directory of the data folder. *)
Definition isdir (disk : gmap string (gmap string string)) (d : string) : bool :=
  match disk !! d with
  | Some _ => true
  | None =>
      if forallb (λ c, bool_decide (c = "..")) (path_parts d) then true
      else if PyStr.startswith d "/" then false
      else match path_parts d with
           | [c] => bool_decide (is_Some (disk !! c))
           | _ => false
           end
  end.

(** [os.path.isdir(p)] *)
Definition path_isdir (p : list string) : M bool :=
  st <- get_state ;;
  match p with
  | [] => ret true
  | [d] => ret (isdir (data st) d)
  | _ => ret false
  end.

(** [os.listdir(p)] *)
Definition listdir (p : list string) : M (list string) :=
  st <- get_state ;;
  match p with
  | [] => ret (keys (data st))
  | [d] => match data st !! d with
           | Some dir => ret (keys dir)
           | None => raise FileNotFoundError
           end
  | d :: _ => match data st !! d with
              | Some _ => raise NotADirectoryError
              | None => raise FileNotFoundError
              end
  end.

(** [os.mkdir(p)] *)
Definition mkdir (p : list string) : M unit :=
  st <- get_state ;;
  match p with
  | [] => raise FileExistsError
  | [d] => if isdir (data st) d then raise FileExistsError
           else modify (with_data (<[d := ∅]> (data st)))
  | _ => raise FileNotFoundError
  end.

(** [os.remove(p)] *)
Definition remove (p : PathLike) : M unit :=
  st <- get_state ;;
  match p with
  | PurePath [d; f] =>
      match data st !! d with
      | Some dir =>
          match dir !! f with
          | Some _ => modify (with_data (<[d := delete f dir]> (data st)))
          | None => raise FileNotFoundError
          end
      | None => raise FileNotFoundError
      end
  | _ => raise FileNotFoundError
  end.

(** [os.startfile(p)]: the file is opened with the program registered for
    it; a path at which there is no file raises [FileNotFoundError], as
    [os.remove] does. *)
Definition startfile (p : PathLike) : M unit :=
  st <- get_state ;;
  match p with
  | PurePath [d; f] =>
      match data st !! d with
      | Some dir =>
          match dir !! f with
          | Some _ => modify (λ st, with_launched (launched st ++ [Startfile p]) st)
          | None => raise FileNotFoundError
          end
      | None => raise FileNotFoundError
      end
  | _ => raise FileNotFoundError
  end.

End os.

(** [shutil.rmtree(p)], imported as [delete_directory] *)
Definition delete_directory (p : list string) : M unit :=
  st <- get_state ;;
  match p with
  | [d] => match data st !! d with
           | Some _ => modify (with_data (delete d (data st)))
           | None => raise FileNotFoundError
           end
  | _ => raise FileNotFoundError
  end.

(** [webbrowser.open(url)], imported as [open_web] *)
Definition open_web (p : PathLike) : M unit :=
  modify (λ st, with_launched (launched st ++ [OpenWeb p]) st).

(** Text files.  A file is opened, used and closed within one method, so
    each use is one step on the stored content.  The content is kept as
    text: the platform's encoding is taken to give back what was written. *)
Module file.

(** The content of the file at [p], or [FileNotFoundError]. *)
Definition content (p : list string) : M string :=
  st <- get_state ;;
  match p with
  | [d; f] => match data st !! d with
              | Some dir => match dir !! f with
                            | Some c => ret c
                            | None => raise FileNotFoundError
                            end
              | None => raise FileNotFoundError
              end
  | _ => raise FileNotFoundError
  end.

(** Store [c] as the content of [p]; the directory must exist. *)
Definition store (p : list string) (c : string) : M unit :=
  st <- get_state ;;
  match p with
  | [d; f] => match data st !! d with
              | Some dir => modify (with_data (<[d := <[f := c]> dir]> (data st)))
              | None => raise FileNotFoundError
              end
  | _ => raise FileNotFoundError
  end.

(** [open(p, 'x')]: create an empty file, [FileExistsError] if it is there. *)
Definition open_x (p : list string) : M unit :=
  st <- get_state ;;
  match p with
  | [d; f] => match data st !! d with
              | Some dir => match dir !! f with
                            | Some _ => raise FileExistsError
                            | None => store p ""
                            end
              | None => raise FileNotFoundError
              end
  | _ => raise FileNotFoundError
  end.

(** [open(p, 'a')]: create the file when it is missing. *)
Definition open_a (p : list string) : M unit :=
  st <- get_state ;;
  match p with
  | [d; f] => match data st !! d with
              | Some dir => match dir !! f with
                            | Some _ => ret tt
                            | None => store p ""
                            end
              | None => raise FileNotFoundError
              end
  | _ => raise FileNotFoundError
  end.

(** [open(p, 'w')]: create or truncate. *)
Definition open_w (p : list string) : M unit := store p "".

(** [f.write(text)] on a file open for writing or appending in text mode. *)
Definition write (pf : Platform) (p : list string) (text : string) : M unit :=
  c <- content p ;;
  store p (c +:+ PyStr.translate_newlines (os_linesep pf) text).

(** [open(p, 'r')] then [f.readlines()] *)
Definition readlines (p : list string) : M (list string) :=
  c <- content p ;;
  ret (PyStr.splitlines_keepends (PyStr.universal_newlines c)).

End file.

(** ** The classes *)

(** Reading an attribute of the [Option] object [self].  Every reference the
    program holds is to a live object; a dangling one reads as
    [AttributeError]. *)
Definition the_option (self : nat) : M Option :=
  st <- get_state ;;
  match objs st !! self with
  | Some o => ret o
  | None => raise AttributeError
  end.

(** Assigning attributes of the [Option] object [self]. *)
Definition update_option (self : nat) (f : Option → Option) : M unit :=
  modify (with_objs (alter f self)).

Definition set_selected (b : bool) (o : Option) : Option :=
  mkOption (name o) (apps o) b.
Definition set_apps (l : list OptionApp) (o : Option) : Option :=
  mkOption (name o) l (selected o).

(** [l.remove(x)] for objects compared by identity: the first element whose
    identity is [x]'s goes; [None] stands for the [ValueError]. *)
Fixpoint list_remove {A} (same : A → bool) (l : list A) : option (list A) :=
  match l with
  | [] => None
  | y :: r => if same y then Some r else (y ::.) <$> list_remove same r
  end.

Module OptionApp.

(** [OptionApp(path, app_type)] *)
Definition __init__ (path : PathLike) (app_type : OptionAppType) : M OptionApp :=
  st <- get_state ;;
  modify (with_next_id (S (next_id st))) ;;
  ret (mkOptionApp (next_id st) path app_type false).

(** [run] *)
Definition run (self : OptionApp) : M unit :=
  match app_type self with
  | lnk => os.startfile (app_path self)
  | web => open_web (app_path self)
  end.

(** [create_lnk]: the shortcut is saved under the stem of the program in
    the folder's directory; its content stands for the target it records. *)
Definition create_lnk (exe_path : ChosenFile) (save_path : list string)
    : M (list string) :=
  let shortcut_path := joinpath save_path (file_stem exe_path +:+ ".lnk") in
  file.store shortcut_path (file_name exe_path) ;;
  ret shortcut_path.

(** [select_app]: the click on an item's label flips its flag. *)
Definition select_app (self : OptionApp) : OptionApp :=
  if app_selected self
  then mkOptionApp (app_id self) (app_path self) (app_type self) false
  else mkOptionApp (app_id self) (app_path self) (app_type self) true.

(** [get_name], the text of an item's label, which [__str__] computes in the
    same way.  For a shortcut it is [self.path.name], the last component of
    a [Path] (the empty string when there is none); a string has no attribute
    [name].  For a web item it is the path as it is. *)
Definition get_name (self : OptionApp) : Res PathLike :=
  match app_type self with
  | lnk => match app_path self with
           | PurePath parts => Ok (Str (List.last parts ""))
           | Str _ => Raise AttributeError
           end
  | web => Ok (app_path self)
  end.

End OptionApp.

Module Option.

(** [Option(window, name, apps)]: the new object registers itself in
    [Option.__all__]; it starts unselected. *)
Definition __init__ (name : string) (apps : list OptionApp) : M nat :=
  st <- get_state ;;
  let self := next_id st in
  modify (with_next_id (S self)) ;;
  modify (λ st, with_all (all_ st ++ [self]) st) ;;
  modify (with_objs (<[self := mkOption name apps false]>)) ;;
  ret self.

(** [select] and [deselect] *)
Definition select (self : nat) : M unit := update_option self (set_selected true).
Definition deselect (self : nat) : M unit := update_option self (set_selected false).

(** [delete] *)
Definition delete (self : nat) : M unit :=
  deselect self ;;
  st <- get_state ;;
  match list_remove (λ o, bool_decide (o = self)) (all_ st) with
  | Some l => modify (with_all l)
  | None => raise ValueError
  end.

(** [add_app] *)
Definition add_app (self : nat) (app : OptionApp) : M unit :=
  update_option self (λ o, set_apps (apps o ++ [app]) o).

(** [run_all] *)
Definition run_all (self : nat) : M unit :=
  o <- the_option self ;;
  for_ (apps o) (λ app, OptionApp.run app).

(** [run_selected] *)
Definition run_selected (self : nat) : M unit :=
  o <- the_option self ;;
  for_ (apps o) (λ app, if app_selected app then OptionApp.run app else ret tt).

(** [get_apps] *)
Definition get_apps (self : nat) : M (list OptionApp) :=
  o <- the_option self ;;
  ret (apps o).

(** Is the object [o] of the store [h] selected? *)
Definition is_selected (h : gmap nat Option) (o : nat) : bool :=
  match h !! o with
  | Some x => selected x
  | None => false
  end.

(** [get_selected]: the first selected member of [Option.__all__], if any. *)
Fixpoint first_selected (h : gmap nat Option) (l : list nat) : option nat :=
  match l with
  | [] => None
  | o :: r => if is_selected h o then Some o else first_selected h r
  end.

Definition get_selected : M (option nat) :=
  st <- get_state ;;
  ret (first_selected (objs st) (all_ st)).

(** [on_click]: calling [deselect] on the [None] that [get_selected] returns
    when nothing is selected raises the [AttributeError] caught here. *)
Definition on_click (self : nat) : M unit :=
  try_except
    (r <- get_selected ;;
     match r with
     | Some o => deselect o
     | None => raise AttributeError
     end)
    AttributeError (ret tt) ;;
  select self.

End Option.

(** [OptionIter], the iterator that [Option.__iter__] returns.  Its field
    [apps] is the list object of the folder itself, not a copy, and that list
    is only ever changed in place; so the iterator is the folder's identity
    and an index, and it reads the folder's list as it is at each call. *)
Record OptionIter := mkOptionIter {
  iter_option : nat;
  cur_index : nat
}.

Module OptionIter.

(** [OptionIter(opt)] *)
Definition __init__ (opt : nat) : OptionIter := mkOptionIter opt 0.

(** [__next__]: the item at the index, and the iterator moved on by one;
    [None] stands for [StopIteration], raised when the index has reached the
    length of the list. *)
Definition __next__ (self : OptionIter) : M (option OptionApp * OptionIter) :=
  o <- the_option (iter_option self) ;;
  match apps o !! cur_index self with
  | None => ret (None, self)
  | Some app => ret (Some app, mkOptionIter (iter_option self) (S (cur_index self)))
  end.

(** [list(it)]: [__next__] is called until it raises [StopIteration].
    [rounds] bounds the number of calls. *)
Fixpoint collect (rounds : nat) (it : OptionIter) : M (list OptionApp) :=
  match rounds with
  | 0 => ret []
  | S rounds =>
      r <- __next__ it ;;
      match r with
      | (Some app, it) => l <- collect rounds it ;; ret (app :: l)
      | (None, _) => ret []
      end
  end.

End OptionIter.

(** A value passed where [main.py] annotates [Option] but documents a name. *)
Inductive PyVal :=
  | VNone
  | VStr (s : string)
  | VOption (o : nat).

(** [a == b]: strings compare by content, [Option] objects by identity, and
    values of different classes are unequal. *)
Definition py_eq (a b : PyVal) : bool :=
  match a, b with
  | VNone, VNone => true
  | VStr s, VStr t => bool_decide (s = t)
  | VOption o, VOption o' => bool_decide (o = o')
  | _, _ => false
  end.

Module MainPage.

(** [any(option_name == option.name for option in self.options)] *)
Definition name_taken (st : State) (option_name : string) : bool :=
  existsb (λ option, match objs st !! option with
                     | Some o => bool_decide (option_name = name o)
                     | None => false
                     end) (options st).

(** [add_option].  The call [self.master.add_option(new_option)] builds the
    folder's page, which is widgets only. *)
Definition add_option (option_name : string)
    (option_apps : option (list OptionApp)) : M unit :=
  let option_name := PyStr.strip option_name in
  if PyStr.is_empty option_name then ret tt else
  st <- get_state ;;
  if name_taken st option_name then ret tt else
  let option_apps := match option_apps with None => [] | Some l => l end in
  new_option <- Option.__init__ option_name option_apps ;;
  modify (λ st, with_options (options st ++ [new_option]) st) ;;
  let option_path := joinpath data_folder_path option_name in
  isdir <- os.path_isdir option_path ;;
  if isdir then ret tt else
  os.mkdir option_path ;;
  file.open_x (joinpath option_path "weburls.txt").

(** [add_new_option]: the "Create Folder" button, with the entry's text. *)
Definition add_new_option (entry_option_name : string) : M unit :=
  add_option entry_option_name None.

(** [get_selected_option] *)
Definition get_selected_option : M (option nat) := Option.get_selected.

(** [del_option] *)
Definition del_option (option : nat) : M unit :=
  st <- get_state ;;
  match list_remove (λ o, bool_decide (o = option)) (options st) with
  | Some l => modify (with_options l) ;; Option.delete option
  | None => raise ValueError
  end.

(** [del_selected_option]: the "Delete Folder" button. *)
Definition del_selected_option : M unit :=
  selected_option <- get_selected_option ;;
  match selected_option with
  | Some selected_option =>
      o <- the_option selected_option ;;
      delete_directory (joinpath data_folder_path (name o)) ;;
      del_option selected_option
  | None => ret tt
  end.

(** The body of the inner loop of [get_options] for one line of
    [weburls.txt]. *)
Definition load_url (url : string) (cur_apps : list OptionApp) : M (list OptionApp) :=
  let url := PyStr.strip url in
  if PyStr.is_empty url then ret cur_apps else
  app <- OptionApp.__init__ (Str url) web ;;
  ret (cur_apps ++ [app]).

(** The body of the loop of [get_options] over the files of one folder. *)
Definition load_file (option_path : list string) (app_name : string)
    (cur_apps : list OptionApp) : M (list OptionApp) :=
  let app_path := joinpath option_path app_name in
  if bool_decide (app_name = "weburls.txt") then
    urls <- file.readlines app_path ;;
    for_acc urls cur_apps load_url
  else
    app <- OptionApp.__init__ (PurePath app_path) lnk ;;
    ret (cur_apps ++ [app]).

(** [get_options] *)
Definition get_options : M (list nat) :=
  modify (with_options []) ;;
  option_names <- os.listdir data_folder_path ;;
  for_ option_names (λ option_name,
    let option_path := joinpath data_folder_path option_name in
    app_names <- os.listdir option_path ;;
    cur_apps <- for_acc app_names [] (load_file option_path) ;;
    add_option option_name (Some cur_apps)) ;;
  st <- get_state ;;
  ret (options st).

(** The loop of [get_option].  Its variable is named [option] like the
    parameter, so each round compares the name of the folder at hand with
    that folder itself. *)
Fixpoint get_option_loop (h : gmap nat Option) (option : PyVal) (l : list nat)
    : Datatypes.option nat :=
  match l with
  | [] => None
  | o :: r =>
      let option := VOption o in
      let option_name := match h !! o with
                         | Some x => VStr (name x)
                         | None => VNone
                         end in
      if py_eq option_name option then Some o
      else get_option_loop h option r
  end.

(** [get_option] *)
Definition get_option (option : PyVal) : M (Datatypes.option nat) :=
  l <- get_options ;;
  st <- get_state ;;
  ret (get_option_loop (objs st) option l).

(** [add_site]: [Option] has no method [add_site], and [None] has none
    either. *)
Definition add_site (option : PyVal) (site_url : string) : M unit :=
  r <- get_option option ;;
  match r with
  | Some _ => raise AttributeError
  | None => raise AttributeError
  end.

(** [get_apps] *)
Definition get_apps (option : PyVal) : M (list OptionApp) :=
  r <- get_option option ;;
  match r with
  | Some o => Option.get_apps o
  | None => raise AttributeError
  end.

(** [run_option] *)
Definition run_option (option : nat) : M unit := Option.run_all option.

(** [run_selected_option]: the "Run all from folder" button. *)
Definition run_selected_option : M unit :=
  selected_option <- get_selected_option ;;
  match selected_option with
  | Some selected_option => run_option selected_option
  | None => ret tt
  end.

End MainPage.

Module OptionPage.

(** [Path.joinpath(self.master.data_folder_path, self.option.name,
    'weburls.txt')] *)
Definition weburls_path (o : Option) : list string :=
  joinpath (joinpath data_folder_path (name o)) "weburls.txt".

(** [add_web]: the "Add website" button of the page of the folder [option],
    with the entry's text. *)
Definition add_web (pf : Platform) (option : nat) (entry_web_url : string) : M unit :=
  let url := PyStr.strip entry_web_url in
  if PyStr.is_empty url then ret tt else
  let url := if negb (PyStr.startswith_any url ["http://"; "https://"])
             then "https://" +:+ url else url in
  o <- the_option option ;;
  file.open_a (weburls_path o) ;;
  file.write pf (weburls_path o) (url +:+ os_linesep pf) ;;
  new_app <- OptionApp.__init__ (Str url) web ;;
  Option.add_app option new_app.

(** [add_exe]: the "Add new program" button, with the dialog's answer. *)
Definition add_exe (option : nat) (file : Datatypes.option ChosenFile) : M unit :=
  match file with
  | Some file =>
      o <- the_option option ;;
      let save_path := joinpath data_folder_path (name o) in
      new_app_path <- OptionApp.create_lnk file save_path ;;
      new_app <- OptionApp.__init__ (PurePath new_app_path) lnk ;;
      Option.add_app option new_app
  | None => ret tt
  end.

(** [self.option.apps.remove(app)] *)
Definition apps_remove (option : nat) (app : OptionApp) : M unit :=
  o <- the_option option ;;
  match list_remove (λ a, bool_decide (app_id a = app_id app)) (apps o) with
  | Some l => update_option option (set_apps l)
  | None => raise ValueError
  end.

(** The first loop of [remove_selected].  A Python [for] over a list keeps
    an index into the live list: each round reads [apps[index]] from the
    list as it is then and stops when the index has reached its length.
    [rounds] bounds the number of rounds; the length of the list at entry is
    enough, since the index grows by one each round and the list never
    grows (lemma [remove_selected_loop_enough]). *)
Fixpoint remove_selected_loop (rounds : nat) (option : nat) (index : nat)
    (urls_to_remove : list PathLike) : M (list PathLike) :=
  match rounds with
  | 0 => ret urls_to_remove
  | S rounds =>
      o <- the_option option ;;
      match apps o !! index with
      | None => ret urls_to_remove
      | Some app =>
          if negb (app_selected app) then
            remove_selected_loop rounds option (S index) urls_to_remove
          else
            match app_type app with
            | lnk =>
                os.remove (app_path app) ;;
                apps_remove option app ;;
                remove_selected_loop rounds option (S index) urls_to_remove
            | web =>
                let urls_to_remove := urls_to_remove ++ [app_path app] in
                apps_remove option app ;;
                remove_selected_loop rounds option (S index) urls_to_remove
            end
      end
  end.

(** The body of the second loop of [remove_selected]. *)
Definition keep_url (pf : Platform) (path : list string)
    (urls_to_remove : list PathLike) (url : string) : M unit :=
  let url := PyStr.strip url in
  if PyStr.is_empty url then ret tt else
  if bool_decide (Str url ∉ urls_to_remove)
  then file.write pf path (url +:+ os_linesep pf)
  else ret tt.

(** [remove_selected]: the "Remove all selected" button. *)
Definition remove_selected (pf : Platform) (option : nat) : M unit :=
  o <- the_option option ;;
  urls_to_remove <- remove_selected_loop (length (apps o)) option 0 [] ;;
  urls <- file.readlines (weburls_path o) ;;
  file.open_w (weburls_path o) ;;
  for_ urls (keep_url pf (weburls_path o) urls_to_remove).

(** [run_selected]: the "Run all selected" button. *)
Definition run_selected (option : nat) : M unit := Option.run_selected option.

(** A click on the label of the item at [index]: [app.select_app()]. *)
Definition click_app (option : nat) (index : nat) : M unit :=
  update_option option (λ o, set_apps (alter OptionApp.select_app index (apps o)) o).

End OptionPage.

(** ** The window

    [AutoOpenerApp] shows one page at a time: the overview or the page of a
    folder.  Of the widgets only this is kept: which page is current and
    which pages are packed, that is, visible. *)

Inductive Page :=
  | main_page
  | option_page (option : nat).

Global Instance Page_eq_dec : EqDecision Page.
Proof. solve_decision. Defined.

Global Instance Page_countable : Countable Page.
Proof.
  refine (inj_countable' (λ p, match p with
                               | main_page => None
                               | option_page o => Some o
                               end)
            (λ r, match r with
                  | None => main_page
                  | Some o => option_page o
                  end) _).
  by intros [].
Defined.

Record Window := mkWindow {
  cur_page : Page;
  packed : gset Page
}.

Module AutoOpenerApp.

(** [page.pack_forget()] and [page.pack()] *)
Definition pack_forget (page : Page) (w : Window) : Window :=
  mkWindow (cur_page w) (packed w ∖ {[page]}).
Definition pack (page : Page) (w : Window) : Window :=
  mkWindow (cur_page w) ({[page]} ∪ packed w).

(** [show_page] *)
Definition show_page (new_page : Page) (w : Window) : Window :=
  let w := pack_forget (cur_page w) w in
  let w := mkWindow new_page (packed w) in
  pack (cur_page w) w.

(** The end of [__init__]: pages are made unpacked, [cur_page] is set to
    the overview, and [show_page(self.main_page)] is called. *)
Definition __init__ : Window := show_page main_page (mkWindow main_page ∅).

End AutoOpenerApp.

(** ** The application *)

(** The state in which [AutoOpenerApp.__init__] starts [MainPage]: no
    objects, and the data folder as found on disk. *)
Definition boot (disk : gmap string (gmap string string)) : State :=
  mkState ∅ 0 [] [] disk [].

(** The program once its window is up: [MainPage.__init__] has run
    [get_options]. *)
Definition startup (disk : gmap string (gmap string string)) : State :=
  (MainPage.get_options (boot disk)).2.

(** What the user can do. *)
Inductive event :=
  | CreateFolder (entry_option_name : string)
  | DeleteFolder
  | RunFolder
  | ClickFolder (option : nat)
  | ClickItem (option : nat) (index : nat)
  | AddProgram (option : nat) (file : Datatypes.option ChosenFile)
  | AddWebsite (option : nat) (entry_web_url : string)
  | RemoveSelected (option : nat)
  | RunSelected (option : nat).

(** The callback bound to each event. *)
Definition handle (pf : Platform) (ev : event) : M unit :=
  match ev with
  | CreateFolder entry_option_name => MainPage.add_new_option entry_option_name
  | DeleteFolder => MainPage.del_selected_option
  | RunFolder => MainPage.run_selected_option
  | ClickFolder option => Option.on_click option
  | ClickItem option index => OptionPage.click_app option index
  | AddProgram option file => OptionPage.add_exe option file
  | AddWebsite option entry_web_url => OptionPage.add_web pf option entry_web_url
  | RemoveSelected option => OptionPage.remove_selected pf option
  | RunSelected option => OptionPage.run_selected option
  end.

(** A folder's label and page exist while the folder is listed. *)
Definition enabled (st : State) (ev : event) : Prop :=
  match ev with
  | ClickFolder option
  | ClickItem option _
  | AddProgram option _
  | AddWebsite option _
  | RemoveSelected option
  | RunSelected option => option ∈ all_ st
  | _ => True
  end.

(** The states the running program passes through.  An exception raised in
    a callback is reported by the event loop, which goes on from the state
    reached. *)
Inductive reachable (pf : Platform) (disk : gmap string (gmap string string))
    : State → Prop :=
  | reach_startup : reachable pf disk (startup disk)
  | reach_event st ev :
      reachable pf disk st → enabled st ev →
      reachable pf disk (handle pf ev st).2.

(** ** Vocabulary of the statements *)

(** *** Launching *)

(** The request that [OptionApp.run] makes for an item. *)
Definition launch_of (app : OptionApp) : Launch :=
  match app_type app with
  | lnk => Startfile (app_path app)
  | web => OpenWeb (app_path app)
  end.

(** The items of a list that the user has ticked. *)
Definition ticked (l : list OptionApp) : list OptionApp :=
  filter (λ app, app_selected app) l.

(** The launch of the item succeeds: a web item is handed to the browser;
    the shortcut of a program item must be a file of the data folder. *)
Definition launchable (disk : gmap string (gmap string string)) (app : OptionApp)
    : bool :=
  match app_type app with
  | web => true
  | lnk => match app_path app with
           | PurePath [d; f] =>
               match disk !! d with
               | Some dir => bool_decide (is_Some (dir !! f))
               | None => false
               end
           | _ => false
           end
  end.

(** The items of [l] that a run gets to launch: all, up to the first whose
    launch fails. *)
Fixpoint reached (disk : gmap string (gmap string string)) (l : list OptionApp)
    : list OptionApp :=
  match l with
  | [] => []
  | app :: r => if launchable disk app then app :: reached disk r else []
  end.

(** What a run of [l] returns: the first failure, if any, is raised. *)
Definition run_result (disk : gmap string (gmap string string)) (l : list OptionApp)
    : Res unit :=
  if forallb (launchable disk) l then Ok tt else Raise FileNotFoundError.

(** *** Runs *)

(** The program after a run of events, whatever each callback returned. *)
Definition run_events (pf : Platform) (evs : list event) (st : State) : State :=
  foldl (λ st ev, (handle pf ev st).2) st evs.

(** Each event of the run is enabled when its turn comes. *)
Fixpoint enabled_all (pf : Platform) (evs : list event) (st : State) : Prop :=
  match evs with
  | [] => True
  | ev :: evs => enabled st ev ∧ enabled_all pf evs (handle pf ev st).2
  end.

(** *** Selection *)

(** The listed folders that are selected. *)
Definition selected_folders (st : State) : list nat :=
  filter (λ o, Option.is_selected (objs st) o) (all_ st).

(** What the single selection rests on: fresh identities are unused, and
    [Option.__all__] lists live objects, each once, at most one of them
    selected. *)
Record exclusive (st : State) : Prop := mkExclusive {
  ex_fresh : ∀ o, is_Some (objs st !! o) → o < next_id st;
  ex_nodup : NoDup (all_ st);
  ex_live : ∀ o, o ∈ all_ st → is_Some (objs st !! o);
  ex_one : length (selected_folders st) ≤ 1
}.

(** Steps that keep the selection exclusive. *)
Definition keeps_exclusive : relation State := λ st st', exclusive st → exclusive st'.

(** *** Well-formed states *)

(** A listed folder is named [n]. *)
Definition folder_named (st : State) (n : string) : Prop :=
  ∃ o x, o ∈ options st ∧ objs st !! o = Some x ∧ name x = n.

(** Directory names as the program itself makes them: trimmed, not empty. *)
Definition tidy (disk : gmap string (gmap string string)) : Prop :=
  ∀ d, is_Some (disk !! d) → PyStr.strip d = d ∧ d ≠ "".

(** The in-memory side of a state in order:
    - identities not yet handed out are unused;
    - [Option.__all__] and [MainPage.options] list the same objects, each
      once, all of them live;
    - listed folders have different names;
    - every listed folder has its directory;
    - directory names are tidy. *)
Record sound (st : State) : Prop := mkSound {
  sound_fresh : ∀ o, is_Some (objs st !! o) → o < next_id st;
  sound_all : all_ st = options st;
  sound_nodup : NoDup (options st);
  sound_live : ∀ o, o ∈ options st → is_Some (objs st !! o);
  sound_names : ∀ o o' x x', o ∈ options st → o' ∈ options st →
                objs st !! o = Some x → objs st !! o' = Some x' →
                name x = name x' → o = o';
  sound_backed : ∀ o x, o ∈ options st → objs st !! o = Some x →
                 is_Some (data st !! name x);
  sound_tidy : tidy (data st)
}.

(** The state of a program that is alone in changing its data folder: it
    is sound, and every directory is the directory of a listed folder. *)
Record wf (st : State) : Prop := mkWf {
  wf_sound : sound st;
  wf_mirrored : ∀ d, is_Some (data st !! d) → folder_named st d
}.

(** A text of the folder-name entry that is blank or, once trimmed, one
    path component: the names for which "Create Folder" can make a directory
    of that very name. *)
Definition tame_entry (entry : string) : bool :=
  PyStr.is_empty (PyStr.strip entry) || plain_name (PyStr.strip entry).

(** An event in which no other name is typed. *)
Definition tame (ev : event) : bool :=
  match ev with
  | CreateFolder entry_option_name => tame_entry entry_option_name
  | _ => true
  end.

(** *** What a step leaves unchanged *)

(** [m] keeps [R] when every run of [m], returning or raising, ends in a
    state related by [R] to the one it started in. *)
Definition keeps (R : relation State) {A} (m : M A) : Prop :=
  ∀ st, R st (m st).2.

(** What a folder is to the overview: its name and whether it is selected. *)
Definition folder_view (o : Option) : string * bool := (name o, selected o).

(** [st'] has the folders of [st]: the same lists, the same names and
    selection flags, the same directories; only items, file contents, the
    launch record and the supply of identities may differ. *)
Record same_folders (st st' : State) : Prop := mkSameFolders {
  sf_all : all_ st' = all_ st;
  sf_options : options st' = options st;
  sf_next : next_id st ≤ next_id st';
  sf_objs : ∀ o, folder_view <$> objs st' !! o = folder_view <$> objs st !! o;
  sf_dirs : ∀ d, is_Some (data st' !! d) ↔ is_Some (data st !! d)
}.

(** [st'] has the folders of [st] up to which of them are selected. *)
Record same_layout (st st' : State) : Prop := mkSameLayout {
  sl_all : all_ st' = all_ st;
  sl_options : options st' = options st;
  sl_next : next_id st ≤ next_id st';
  sl_objs : ∀ o, name <$> objs st' !! o = name <$> objs st !! o;
  sl_dirs : ∀ d, is_Some (data st' !! d) ↔ is_Some (data st !! d)
}.

(** *** States after a step *)

(** [st] with one more folder object, named [n] and holding the items [l],
    listed last; its identity is [next_id st]. *)
Definition with_folder (n : string) (l : list OptionApp) (st : State) : State :=
  mkState (<[next_id st := mkOption n l false]> (objs st)) (S (next_id st))
    (all_ st ++ [next_id st]) (options st ++ [next_id st]) (data st) (launched st).

(** A directory as [add_option] makes it: one empty [weburls.txt]. *)
Definition new_directory : gmap string string := {["weburls.txt" := ""]}.

(** [st] once the folder object [o], whose directory is [n], is deleted. *)
Definition without_folder (o : nat) (n : string) (st : State) : State :=
  mkState (alter (set_selected false) o (objs st)) (next_id st)
    (filter (λ y, y ≠ o) (all_ st)) (filter (λ y, y ≠ o) (options st))
    (delete n (data st)) (launched st).

(** [st] once the web item [url] has been added to the folder object [o],
    which was [x] and whose directory was [dir]: one more line in
    [weburls.txt], one more item at the end of the folder. *)
Definition with_web_item (pf : Platform) (o : nat) (x : Option)
    (dir : gmap string string) (url : string) (st : State) : State :=
  mkState
    (<[o := set_apps (apps x ++ [mkOptionApp (next_id st) (Str url) web false]) x]>
       (objs st))
    (S (next_id st)) (all_ st) (options st)
    (<[name x :=
         <["weburls.txt" :=
             default "" (dir !! "weburls.txt")
             +:+ PyStr.translate_newlines (os_linesep pf) (url +:+ os_linesep pf)]>
           dir]> (data st))
    (launched st).

(** *** Loading *)

(** The URLs that [get_options] takes from the raw content of a
    [weburls.txt]: the trimmed lines that are not empty. *)
Definition parse_urls (c : string) : list string :=
  filter (λ u, u ≠ "")
    (PyStr.strip <$> PyStr.splitlines_keepends (PyStr.universal_newlines c)).

(** The items that [get_options] makes of the file [f] with content [c] in
    the directory [d], as path and kind. *)
Definition file_items (d f c : string) : list (PathLike * OptionAppType) :=
  if bool_decide (f = "weburls.txt")
  then (λ u, (Str u, web)) <$> parse_urls c
  else [(PurePath [d; f], lnk)].

(** The same for the files [names] of the directory [d] with entries [dir]. *)
Definition dir_items (d : string) (dir : gmap string string)
    (names : list string) : list (PathLike * OptionAppType) :=
  names ≫= λ f, match dir !! f with
                 | Some c => file_items d f c
                 | None => []
                 end.

(** Fresh unticked item objects for [items], with identities from [start]. *)
Fixpoint mk_apps (start : nat) (items : list (PathLike * OptionAppType))
    : list OptionApp :=
  match items with
  | [] => []
  | (p, t) :: r => mkOptionApp start p t false :: mk_apps (S start) r
  end.

(** The URLs of the web items of a list, in order. *)
Definition web_urls (l : list OptionApp) : list PathLike :=
  app_path <$> filter (λ a, app_type a = web) l.

(** The state after [get_options] has loaded the directory [d] of [disk]:
    one more folder, named [d], holding fresh items for its files. *)
Definition load_folder (disk : gmap string (gmap string string)) (st : State)
    (d : string) : State :=
  let dir := default ∅ (disk !! d) in
  let items := dir_items d dir (keys dir) in
  with_folder d (mk_apps (next_id st) items)
    (with_next_id (next_id st + length items) st).

(** The same for the directories [names], in turn. *)
Definition load_all (disk : gmap string (gmap string string))
    (names : list string) (st : State) : State :=
  foldl (load_folder disk) st names.

(** *** Text and URLs *)

(** The text has no line break in it: no CR and no LF. *)
Fixpoint line_free (s : string) : bool :=
  match s with
  | EmptyString => true
  | String c r =>
      negb (Ascii.eqb c PyStr.CR) && negb (Ascii.eqb c PyStr.LF) && line_free r
  end.

(** The text is empty or ends with LF: a file of whole lines. *)
Fixpoint terminated (s : string) : bool :=
  match s with
  | EmptyString => true
  | String c EmptyString => Ascii.eqb c PyStr.LF
  | String c r => terminated r
  end.

(** The URL that [add_web] stores for the text of the entry. *)
Definition stored_url (entry_web_url : string) : string :=
  let url := PyStr.strip entry_web_url in
  if negb (PyStr.startswith_any url ["http://"; "https://"])
  then "https://" +:+ url else url.


(** What a line separator written by [file.write] reads back as. *)
Definition eol_read (pf : Platform) : string :=
  PyStr.universal_newlines
    (PyStr.translate_newlines (os_linesep pf) (os_linesep pf)).

(** An ASCII letter. *)
Definition is_alpha (c : ascii) : bool :=
  let n := nat_of_ascii c in
  ((65 <=? n) && (n <=? 90)) || ((97 <=? n) && (n <=? 122)).

(** A character of a scheme name after its first: a letter, a digit, "+",
    "-" or ".". *)
Definition is_scheme_char (c : ascii) : bool :=
  let n := nat_of_ascii c in
  is_alpha c || ((48 <=? n) && (n <=? 57)) || (n =? 43) || (n =? 45) || (n =? 46).

(** The rest of a scheme name, then "://". *)
Fixpoint scheme_tail (s : string) : bool :=
  match s with
  | EmptyString => false
  | String c r =>
      if Ascii.eqb c ":"%char then PyStr.startswith r "//"
      else is_scheme_char c && scheme_tail r
  end.

(** The words "starts with a URL scheme prefix" of the specification, read
    with RFC 3986: the text starts with a scheme name followed by "://".
    The program's own test is [startswith(('http://', 'https://'))]. *)
Definition url_scheme_prefix (s : string) : bool :=
  match s with
  | EmptyString => false
  | String c r => is_alpha c && scheme_tail r
  end.

(** *** Sample sessions *)

(** A session on an empty data folder: the folder "work" (object 0) gets
    two web items, the first of which is ticked, and is then selected. *)
Definition demo : State :=
  run_events Windows
    [CreateFolder "work"; AddWebsite 0 "example.com";
     AddWebsite 0 "http://b.org"; ClickItem 0 0; ClickFolder 0]
    (startup ∅).

Definition demo_work : Option :=
  mkOption "work"
    [mkOptionApp 1 (Str "https://example.com") web true;
     mkOptionApp 2 (Str "http://b.org") web false]
    true.

(** A session on an empty data folder with two folders, "work" (object 0)
    and "play" (object 1), the first of which is selected. *)
Definition demo_two : State :=
  run_events Windows
    [CreateFolder "work"; CreateFolder "play"; ClickFolder 0] (startup ∅).

(** A session on an empty data folder in which a shortcut is lost.  The
    same program is added twice to the folder "work" (object 0): two items,
    one shortcut file.  The first item is ticked and removed, which deletes
    the file.  Two websites are added; the remaining program item and the
    first website are ticked, the second website is not. *)
Definition demo_lost : State :=
  run_events Windows
    [CreateFolder "work";
     AddProgram 0 (Some (mkChosenFile "C:/apps/chrome.exe" "chrome"));
     AddProgram 0 (Some (mkChosenFile "C:/apps/chrome.exe" "chrome"));
     ClickItem 0 0; RemoveSelected 0;
     AddWebsite 0 "https://a.example"; AddWebsite 0 "https://b.example";
     ClickItem 0 0; ClickItem 0 1; ClickFolder 0]
    (startup ∅).

Definition demo_lost_work : Option :=
  mkOption "work"
    [mkOptionApp 2 (PurePath ["work"; "chrome.lnk"]) lnk true;
     mkOptionApp 3 (Str "https://a.example") web true;
     mkOptionApp 4 (Str "https://b.example") web false]
    true.

(** A session on an empty data folder: the folder "work" (object 0) gets
    two web items, and both are ticked. *)
Definition demo_ticked : State :=
  run_events Windows
    [CreateFolder "work"; AddWebsite 0 "https://a.example";
     AddWebsite 0 "https://b.example"; ClickItem 0 0; ClickItem 0 1]
    (startup ∅).

(** *** Removing items *)

(** The items that the first loop of [remove_selected] leaves in the list
    [l]: an unticked item stays; a ticked item goes, and the item after it,
    which moves into its position, stays without being looked at. *)
Fixpoint survivors (l : list OptionApp) : list OptionApp :=
  match l with
  | [] => []
  | a :: r =>
      if app_selected a then
        match r with
        | [] => []
        | b :: r' => b :: survivors r'
        end
      else a :: survivors r
  end.

(** The items that the loop removes from [l], in order: the ticked items it
    gets to see. *)
Fixpoint removed (l : list OptionApp) : list OptionApp :=
  match l with
  | [] => []
  | a :: r =>
      if app_selected a then
        a :: match r with
             | [] => []
             | b :: r' => removed r'
             end
      else removed r
  end.

(** The data folder once the loop has dealt with the removed item [a]: the
    shortcut file of a program item is deleted, and must exist; a web item
    leaves the data folder alone at this point. *)
Definition unlink (a : OptionApp) (disk : gmap string (gmap string string))
    : option (gmap string (gmap string string)) :=
  match app_type a with
  | web => Some disk
  | lnk =>
      match app_path a with
      | PurePath [d; f] =>
          dir ← disk !! d; _ ← dir !! f; Some (<[d := delete f dir]> disk)
      | _ => None
      end
  end.

(** The same for the removed items [l], in turn. *)
Fixpoint unlink_all (l : list OptionApp) (disk : gmap string (gmap string string))
    : option (gmap string (gmap string string)) :=
  match l with
  | [] => Some disk
  | a :: r => disk' ← unlink a disk; unlink_all r disk'
  end.

(** The text that the second loop of [remove_selected] writes for the URLs
    [l]: each URL followed by [os.linesep], through the newline translation
    of text mode. *)
Definition render_urls (pf : Platform) (l : list string) : string :=
  foldr (λ u acc, PyStr.translate_newlines (os_linesep pf) (u +:+ os_linesep pf) +:+ acc)
    "" l.

(** The URLs of [l] that the second loop writes back: those that are not
    among [urls_to_remove]. *)
Definition kept_urls (urls_to_remove : list PathLike) (l : list string) : list string :=
  filter (λ u, Str u ∉ urls_to_remove) l.

(** The text has no CR in it. *)
Fixpoint no_cr (s : string) : bool :=
  match s with
  | EmptyString => true
  | String c r => negb (Ascii.eqb c PyStr.CR) && no_cr r
  end.

(** No two ticked items of [l] are next to each other. *)
Fixpoint spaced (l : list OptionApp) : bool :=
  match l with
  | a :: r =>
      match r with
      | b :: _ => negb (app_selected a && app_selected b) && spaced r
      | [] => true
      end
  | [] => true
  end.

(** A session on an empty data folder: the folder "work" (object 0) gets a
    program item and two web items, and the first and the last are ticked. *)
Definition demo_mixed : State :=
  run_events Windows
    [CreateFolder "work"; AddProgram 0 (Some (mkChosenFile "C:/apps/chrome.exe" "chrome"));
     AddWebsite 0 "https://a.example"; AddWebsite 0 "https://b.example";
     ClickItem 0 0; ClickItem 0 2]
    (startup ∅).

(** The items of a list that the user has not ticked. *)
Definition unticked (l : list OptionApp) : list OptionApp :=
  filter (λ app, app_selected app = false) l.


(** *** Parts of the state that a step leaves alone *)

(** [st'] has the [part] of [st]. *)
Definition unchanged {B} (part : State → B) : relation State :=
  λ st st', part st' = part st.

(** The events of the two run buttons. *)
Definition is_run (ev : event) : bool :=
  match ev with
  | RunFolder | RunSelected _ => true
  | _ => false
  end.

(** The events of the overview's "Create Folder" and "Delete Folder". *)
Definition is_registry_event (ev : event) : bool :=
  match ev with
  | CreateFolder _ | DeleteFolder => true
  | _ => false
  end.

(** The events that touch the data folder: all but clicks and runs. *)
Definition is_disk_event (ev : event) : bool :=
  match ev with
  | CreateFolder _ | DeleteFolder | AddProgram _ _ | AddWebsite _ _
  | RemoveSelected _ => true
  | _ => false
  end.

(** *** Items *)

(** What an item of the folder named [d] holds: a program item the path of
    a file of the folder's directory other than [weburls.txt], a web item a
    URL that is trimmed and not empty. *)
Definition item_ok (d : string) (a : OptionApp) : Prop :=
  match app_type a with
  | lnk => ∃ f, app_path a = PurePath [d; f] ∧ f ≠ "weburls.txt"
  | web => ∃ u, app_path a = Str u ∧ PyStr.strip u = u ∧ u ≠ ""
  end.

(** The items of the folder [x] are distinct objects, made before the
    identity [n] was handed out, each as [item_ok] says. *)
Definition folder_ok (n : nat) (x : Option) : Prop :=
  NoDup (app_id <$> apps x)
  ∧ Forall (λ a, app_id a < n) (apps x)
  ∧ Forall (item_ok (name x)) (apps x).

(** Every folder object of the state is in that order. *)
Definition items_ok (st : State) : Prop :=
  ∀ o x, objs st !! o = Some x → folder_ok (next_id st) x.

(** Steps that keep the items in order. *)
Definition keeps_items : relation State := λ st st', items_ok st → items_ok st'.

(** [st] once a shortcut to the program [file] has been added to the folder
    object [o], which was [x] and whose directory was [dir]: one more file
    in the directory, one more item at the end of the folder. *)
Definition with_program_item (o : nat) (x : Option) (dir : gmap string string)
    (file : ChosenFile) (st : State) : State :=
  mkState
    (<[o := set_apps
              (apps x ++ [mkOptionApp (next_id st)
                            (PurePath [name x; file_stem file +:+ ".lnk"]) lnk false])
              x]> (objs st))
    (S (next_id st)) (all_ st) (options st)
    (<[name x := <[file_stem file +:+ ".lnk" := file_name file]> dir]> (data st))
    (launched st).

(** *** Loading again *)

(** [st] with the objects [pre] registered in [Option.__all__] before its
    own. *)
Definition prepend (pre : list nat) (st : State) : State :=
  with_all (pre ++ all_ st) st.

(** [m] does not look at [Option.__all__] and only adds to its end: run
    with more objects registered first, it does the same and leaves them
    first. *)
Definition blind {A} (m : M A) : Prop :=
  ∀ pre st, m (prepend pre st) = ((m st).1, prepend pre (m st).2).

(** Identities are handed out in order: no object has the next one. *)
Definition fresh (st : State) : Prop :=
  ∀ o, is_Some (objs st !! o) → o < next_id st.

(** *** Pages *)

(** The window after the pages [pages] have been shown in turn, from the
    end of [AutoOpenerApp.__init__] on. *)
Definition show_pages (pages : list Page) : Window :=
  foldl (λ w page, AutoOpenerApp.show_page page w) AutoOpenerApp.__init__ pages.

(** * Properties of the model *)

(** ** Launching *)

Lemma run_launches app st :
  launchable (data st) app = true →
  OptionApp.run app st = (Ok tt, with_launched (launched st ++ [launch_of app]) st).
Proof.
  unfold OptionApp.run, launch_of, launchable.
  destruct (app_type app); [|done]. intros Hl.
  cbv [os.startfile bind get_state modify].
  destruct (app_path app) as [[|d [|f [|? ?]]]|]; try done.
  destruct (data st !! d) as [dir|]; [|done].
  apply bool_decide_eq_true in Hl as [c Hc]. by rewrite Hc.
Qed.

Lemma run_fails app st :
  launchable (data st) app = false →
  OptionApp.run app st = (Raise FileNotFoundError, st).
Proof.
  unfold OptionApp.run, launchable.
  destruct (app_type app); [|done]. intros Hl.
  cbv [os.startfile bind get_state raise].
  destruct (app_path app) as [[|d [|f [|? ?]]]|]; try done.
  destruct (data st !! d) as [dir|]; [|done].
  apply bool_decide_eq_false in Hl.
  destruct (dir !! f) as [c|] eqn:Hc; [|done]. destruct Hl. eauto.
Qed.

Lemma with_launched_twice l l' st :
  with_launched l' (with_launched l st) = with_launched l' st.
Proof. done. Qed.

Lemma with_launched_same st : with_launched (launched st) st = st.
Proof. by destruct st. Qed.

Lemma run_all_loop l st :
  for_ l (λ app, OptionApp.run app) st
  = (run_result (data st) l,
     with_launched (launched st ++ map launch_of (reached (data st) l)) st).
Proof.
  unfold run_result. revert st. induction l as [|app l IH]; intros st; simpl.
  - by rewrite app_nil_r, with_launched_same.
  - unfold bind. destruct (launchable (data st) app) eqn:Hl.
    + rewrite run_launches, IH by done. simpl. by rewrite <- app_assoc.
    + rewrite run_fails by done. simpl. by rewrite app_nil_r, with_launched_same.
Qed.

Lemma run_selected_loop l st :
  for_ l (λ app, if app_selected app then OptionApp.run app else ret tt) st
  = (run_result (data st) (ticked l),
     with_launched (launched st ++ map launch_of (reached (data st) (ticked l))) st).
Proof.
  unfold run_result. revert st. induction l as [|app l IH]; intros st; simpl.
  - by rewrite app_nil_r, with_launched_same.
  - unfold bind, ticked. rewrite filter_cons. fold (ticked l).
    destruct (app_selected app) eqn:Hsel; simpl.
    + destruct (launchable (data st) app) eqn:Hl.
      * rewrite run_launches, IH by done. simpl. by rewrite <- app_assoc.
      * rewrite run_fails by done. simpl. by rewrite app_nil_r, with_launched_same.
    + unfold ret at 1. apply IH.
Qed.

Lemma reached_prefix disk l : reached disk l `prefix_of` l.
Proof.
  induction l as [|app l IH]; simpl; [done|].
  destruct (launchable disk app); [by apply prefix_cons|apply prefix_nil].
Qed.

Lemma reached_all disk l : forallb (launchable disk) l = true → reached disk l = l.
Proof.
  induction l as [|app l IH]; simpl; [done|].
  intros [-> Hl]%andb_true_iff. by rewrite IH.
Qed.

Lemma reached_stops disk l :
  forallb (launchable disk) l = false →
  ∃ app, reached disk l ++ [app] `prefix_of` l ∧ launchable disk app = false.
Proof.
  induction l as [|app l IH]; simpl; [done|].
  destruct (launchable disk app) eqn:Hl; simpl.
  - intros Hf. destruct (IH Hf) as (b & Hb & Hlb). exists b.
    split; [by apply prefix_cons|done].
  - intros _. exists app. split; [|done]. simpl. apply prefix_cons, prefix_nil.
Qed.

Lemma the_option_ok self o st :
  objs st !! self = Some o → the_option self st = (Ok o, st).
Proof. intros H. unfold the_option, bind, get_state. by rewrite H. Qed.

Lemma demo_objs : objs demo !! 0 = Some demo_work.
Proof. by vm_compute. Qed.

Lemma demo_lost_objs : objs demo_lost !! 0 = Some demo_lost_work.
Proof. vm_compute. reflexivity. Qed.

(** C3, as it is worded, fails where a launch fails.  In [demo_lost] the
    folder "work" holds a ticked program item whose shortcut file is gone, a
    ticked website and a website that is not ticked.  [run_selected] raises
    [FileNotFoundError] at the program item, and the ticked website after it
    is never launched. *)
Lemma run_selected_stops_at_lost_shortcut :
  ¬ (∀ (st : State) (self : nat) (o : Option),
       objs st !! self = Some o →
       launched (Option.run_selected self st).2
       = launched st ++ map launch_of (ticked (apps o))).
Proof.
  intros H. specialize (H demo_lost 0 demo_lost_work demo_lost_objs).
  vm_compute in H. discriminate H.
Qed.

(** C3, amended.  [run_selected] on a folder launches the ticked items of
    the folder in the order in which the folder stores them, up to the first
    whose launch fails; that failure is raised and the ticked items after it
    are not launched.  When no launch fails the call returns and exactly the
    ticked items are launched.  An item that is not ticked is never
    launched. *)
Theorem run_selected_launches_ticked (st : State) (self : nat) (o : Option) :
  objs st !! self = Some o →
  Option.run_selected self st
  = (run_result (data st) (ticked (apps o)),
     with_launched
       (launched st ++ map launch_of (reached (data st) (ticked (apps o)))) st)
  ∧ reached (data st) (ticked (apps o)) `prefix_of` ticked (apps o)
  ∧ (forallb (launchable (data st)) (ticked (apps o)) = true →
     Option.run_selected self st
     = (Ok tt, with_launched (launched st ++ map launch_of (ticked (apps o))) st))
  ∧ (forallb (launchable (data st)) (ticked (apps o)) = false →
     (Option.run_selected self st).1 = Raise FileNotFoundError
     ∧ ∃ app, reached (data st) (ticked (apps o)) ++ [app] `prefix_of` ticked (apps o)
              ∧ launchable (data st) app = false).
Proof.
  intros Ho.
  assert (Option.run_selected self st
          = (run_result (data st) (ticked (apps o)),
             with_launched
               (launched st ++ map launch_of (reached (data st) (ticked (apps o)))) st))
    as Hrun.
  { unfold Option.run_selected, bind.
    rewrite (the_option_ok _ _ _ Ho). apply run_selected_loop. }
  split_and!; [done|apply reached_prefix|..].
  - intros Hall. rewrite Hrun. unfold run_result. by rewrite Hall, reached_all.
  - intros Hsome. rewrite Hrun. unfold run_result. rewrite Hsome.
    split; [done|]. by apply reached_stops.
Qed.

Lemma run_selected_launches_ticked_witness :
  Option.run_selected 0 demo
  = (Ok tt, with_launched [OpenWeb (Str "https://example.com")] demo)
  ∧ Option.run_selected 0 demo_lost = (Raise FileNotFoundError, demo_lost).
Proof.
  destruct (run_selected_launches_ticked demo 0 demo_work demo_objs)
    as (_ & _ & Hok & _).
  destruct (run_selected_launches_ticked demo_lost 0 demo_lost_work demo_lost_objs)
    as (Hrun & _).
  split.
  - apply Hok. vm_compute. reflexivity.
  - rewrite Hrun. vm_compute. reflexivity.
Defined.

Lemma get_selected_ok st :
  Option.get_selected st = (Ok (Option.first_selected (objs st) (all_ st)), st).
Proof. done. Qed.

Lemma demo_selected : Option.first_selected (objs demo) (all_ demo) = Some 0.
Proof. by vm_compute. Qed.

(** C2, as the spec words it, fails: with the folder "work" selected and
    only its first item ticked, the run-folder button launches the second
    item too. *)
Lemma run_folder_not_only_ticked :
  ¬ (∀ (st : State) (o : nat) (x : Option),
       Option.first_selected (objs st) (all_ st) = Some o →
       objs st !! o = Some x →
       launched (MainPage.run_selected_option st).2
       = launched st ++ map launch_of (ticked (apps x))).
Proof.
  intros H. specialize (H demo 0 demo_work demo_selected demo_objs).
  vm_compute in H. discriminate H.
Qed.

Lemma demo_lost_selected :
  Option.first_selected (objs demo_lost) (all_ demo_lost) = Some 0.
Proof. vm_compute. reflexivity. Qed.

(** C2, amended.  When the run-folder button of the overview is pressed
    while a folder holds the selection, the program launches the items of
    that folder in stored order, ticked or not, up to the first whose launch
    fails; that failure is raised.  When no launch fails the call returns
    and every item of the folder is launched. *)
Theorem run_folder_launches_all (st : State) (o : nat) (x : Option) :
  Option.first_selected (objs st) (all_ st) = Some o →
  objs st !! o = Some x →
  MainPage.run_selected_option st
  = (run_result (data st) (apps x),
     with_launched (launched st ++ map launch_of (reached (data st) (apps x))) st)
  ∧ reached (data st) (apps x) `prefix_of` apps x
  ∧ (forallb (launchable (data st)) (apps x) = true →
     MainPage.run_selected_option st
     = (Ok tt, with_launched (launched st ++ map launch_of (apps x)) st))
  ∧ (forallb (launchable (data st)) (apps x) = false →
     (MainPage.run_selected_option st).1 = Raise FileNotFoundError
     ∧ ∃ app, reached (data st) (apps x) ++ [app] `prefix_of` apps x
              ∧ launchable (data st) app = false).
Proof.
  intros Hsel Ho.
  assert (MainPage.run_selected_option st
          = (run_result (data st) (apps x),
             with_launched
               (launched st ++ map launch_of (reached (data st) (apps x))) st))
    as Hrun.
  { unfold MainPage.run_selected_option, MainPage.get_selected_option, bind.
    rewrite get_selected_ok, Hsel.
    unfold MainPage.run_option, Option.run_all, bind.
    rewrite (the_option_ok _ _ _ Ho). apply run_all_loop. }
  split_and!; [done|apply reached_prefix|..].
  - intros Hall. rewrite Hrun. unfold run_result. by rewrite Hall, reached_all.
  - intros Hsome. rewrite Hrun. unfold run_result. rewrite Hsome.
    split; [done|]. by apply reached_stops.
Qed.

Lemma run_folder_launches_all_witness :
  MainPage.run_selected_option demo
  = (Ok tt, with_launched
              [OpenWeb (Str "https://example.com"); OpenWeb (Str "http://b.org")]
              demo)
  ∧ MainPage.run_selected_option demo_lost = (Raise FileNotFoundError, demo_lost).
Proof.
  destruct (run_folder_launches_all demo 0 demo_work demo_selected demo_objs)
    as (_ & _ & Hok & _).
  destruct (run_folder_launches_all demo_lost 0 demo_lost_work demo_lost_selected
              demo_lost_objs) as (Hrun & _).
  split.
  - apply Hok. vm_compute. reflexivity.
  - rewrite Hrun. vm_compute. reflexivity.
Defined.

(** ** Creating folders *)

Lemma is_empty_true s : PyStr.is_empty s = true ↔ s = "".
Proof. by destruct s. Qed.

Lemma is_empty_false s : PyStr.is_empty s = false ↔ s ≠ "".
Proof. by destruct s. Qed.

Lemma name_taken_spec st n : MainPage.name_taken st n = true ↔ folder_named st n.
Proof.
  unfold MainPage.name_taken, folder_named. rewrite existsb_exists. split.
  - intros (o & Hin & H). destruct (objs st !! o) as [x|] eqn:Hx; [|done].
    apply bool_decide_eq_true in H. exists o, x.
    by rewrite <- list_elem_of_In in Hin.
  - intros (o & x & Hin & Hx & Hn). exists o. rewrite <- list_elem_of_In.
    split; [done|]. rewrite Hx. by apply bool_decide_eq_true.
Qed.

Lemma name_taken_false st n : MainPage.name_taken st n = false ↔ ¬ folder_named st n.
Proof.
  rewrite <- name_taken_spec. by destruct (MainPage.name_taken st n).
Qed.

Lemma add_option_skip (st : State) (entry : string) l :
  PyStr.strip entry = "" ∨ folder_named st (PyStr.strip entry) →
  MainPage.add_option entry l st = (Ok tt, st).
Proof.
  intros H. unfold MainPage.add_option.
  destruct (PyStr.is_empty (PyStr.strip entry)) eqn:He; [done|].
  destruct H as [H|H].
  - apply is_empty_false in He. done.
  - apply name_taken_spec in H. unfold bind, get_state. by rewrite H.
Qed.

(** ** Names and directories *)

Lemma isdir_Some disk d dir : disk !! d = Some dir → os.isdir disk d = true.
Proof. unfold os.isdir. by intros ->. Qed.

Lemma isdir_false disk d : os.isdir disk d = false → disk !! d = None.
Proof. unfold os.isdir. by destruct (disk !! d). Qed.

Lemma split_on_free s :
  has_separator s = false → split_on "/" s = [s].
Proof.
  induction s as [|c s IH]; [done|]. simpl.
  intros [Hc Hs]%orb_false_iff. unfold is_separator in Hc.
  apply orb_false_iff in Hc as [[Hc _]%orb_false_iff _].
  by rewrite Hc, IH.
Qed.

Lemma plain_name_spec n :
  plain_name n = true →
  n ≠ "" ∧ has_separator n = false ∧ n ≠ "." ∧ n ≠ ".." ∧ byte_length n ≤ 255.
Proof.
  unfold plain_name. rewrite !andb_true_iff, !negb_true_iff.
  intros ((((He & Hs) & Hd) & Hdd) & Hl).
  apply is_empty_false in He. apply bool_decide_eq_false in Hd, Hdd.
  apply Nat.leb_le in Hl. done.
Qed.

Lemma path_parts_plain n : plain_name n = true → path_parts n = [n].
Proof.
  intros (He & Hs & Hd & _)%plain_name_spec. unfold path_parts.
  rewrite split_on_free by done. by rewrite filter_cons_True, filter_nil.
Qed.

(** For a plain name [os.path.isdir] says whether the data folder has a
    directory of that name. *)
Lemma isdir_plain disk n :
  plain_name n = true → os.isdir disk n = bool_decide (is_Some (disk !! n)).
Proof.
  intros Hn. unfold os.isdir. rewrite path_parts_plain by done.
  destruct (plain_name_spec n Hn) as (He & Hs & _ & Hdd & _).
  destruct (disk !! n) as [dir|] eqn:Hd.
  { symmetry. apply bool_decide_eq_true. eauto. }
  cbn [forallb]. rewrite bool_decide_eq_false_2 by done. cbn [andb].
  destruct n as [|c n]; [done|].
  assert (PyStr.startswith (String c n) "/" = false) as ->.
  { unfold PyStr.startswith. cbn [has_separator] in Hs.
    apply orb_false_iff in Hs as [Hc _]. unfold is_separator in Hc.
    apply orb_false_iff in Hc as [[Hc _]%orb_false_iff _].
    cbn [String.prefix].
    destruct (ascii_dec "/" c) as [<-|Hne]; [|done].
    vm_compute in Hc. discriminate Hc. }
  done.
Qed.

Lemma isdir_plain_free disk n :
  plain_name n = true → disk !! n = None → os.isdir disk n = false.
Proof.
  intros Hn Hd. rewrite isdir_plain, Hd by done.
  apply bool_decide_eq_false. by intros [? ?].
Qed.

(** What [add_option] does under a name that is free once trimmed. *)
Lemma add_option_fresh st entry l :
  let n := PyStr.strip entry in
  n ≠ "" → ¬ folder_named st n →
  MainPage.add_option entry l st
  = let st1 := with_folder n (default [] l) st in
    if os.isdir (data st) n then (Ok tt, st1)
    else (Ok tt, with_data (<[n := new_directory]> (data st)) st1).
Proof.
  intros n Hne Hfree. unfold MainPage.add_option. fold n.
  apply is_empty_false in Hne. rewrite Hne.
  apply name_taken_false in Hfree.
  unfold bind at 1. unfold get_state at 1. rewrite Hfree.
  unfold bind, Option.__init__, bind, get_state, modify, ret; simpl.
  unfold os.path_isdir, joinpath, data_folder_path, bind, get_state; simpl.
  destruct (os.isdir (data st) n) eqn:Hdir; simpl.
  - by destruct l.
  - unfold os.mkdir, bind, get_state, modify; simpl. rewrite Hdir. simpl.
    unfold file.open_x, bind, get_state, with_data; simpl.
    rewrite lookup_insert_eq, lookup_empty.
    unfold file.store, bind, get_state, modify, with_data; simpl.
    rewrite lookup_insert_eq, insert_insert_eq. by destruct l.
Qed.

(** ** Reasoning about what a computation leaves unchanged *)

Section Keeps.
Context (R : relation State) `{!PreOrder R}.

Lemma keeps_ret {A} (a : A) : keeps R (ret a).
Proof. intros st. simpl. reflexivity. Qed.

Lemma keeps_raise {A} e : keeps R (@raise A e).
Proof. intros st. simpl. reflexivity. Qed.

Lemma keeps_get_state : keeps R get_state.
Proof. intros st. simpl. reflexivity. Qed.

Lemma keeps_bind {A B} (m : M A) (k : A → M B) :
  keeps R m → (∀ a, keeps R (k a)) → keeps R (bind m k).
Proof.
  intros Hm Hk st. unfold bind. specialize (Hm st).
  destruct (m st) as [[a|e] st']; simpl in *; [|done].
  etransitivity; [exact Hm|apply Hk].
Qed.

Lemma keeps_try_except {A} (m h : M A) e :
  keeps R m → keeps R h → keeps R (try_except m e h).
Proof.
  intros Hm Hh st. unfold try_except. specialize (Hm st).
  destruct (m st) as [[a|e'] st']; simpl in *; [done|].
  case_bool_decide; [|done]. etransitivity; [exact Hm|apply Hh].
Qed.

Lemma keeps_for {A} (l : list A) body :
  (∀ x, keeps R (body x)) → keeps R (for_ l body).
Proof.
  intros Hb. induction l as [|x l IH]; simpl.
  - apply keeps_ret.
  - by apply keeps_bind.
Qed.

Lemma keeps_for_acc {A B} (l : list A) (acc : B) body :
  (∀ x acc, keeps R (body x acc)) → keeps R (for_acc l acc body).
Proof.
  intros Hb. revert acc. induction l as [|x l IH]; intros acc; simpl.
  - apply keeps_ret.
  - by apply keeps_bind.
Qed.

End Keeps.

Lemma keeps_weaken (R R' : relation State) {A} (m : M A) :
  (∀ st st', R st st' → R' st st') → keeps R m → keeps R' m.
Proof. intros H Hm st. apply H, Hm. Qed.

Global Instance same_folders_preorder : PreOrder same_folders.
Proof.
  split.
  - intros st. by split.
  - intros st1 st2 st3 [? ? ? Ho1 Hd1] [? ? ? Ho2 Hd2].
    split; [congruence|congruence|lia| |].
    + intros o. by rewrite Ho2.
    + intros d. by rewrite Hd2.
Qed.

Lemma keeps_modify (R : relation State) f :
  (∀ st, R st (f st)) → keeps R (modify f).
Proof. intros H st. apply H. Qed.

(** *** Steps that leave the folders as they are *)

Lemma same_folders_refl st : same_folders st st.
Proof. reflexivity. Qed.

Lemma same_folders_with_data st d dir :
  is_Some (data st !! d) → same_folders st (with_data (<[d := dir]> (data st)) st).
Proof.
  intros Hd. split; simpl; try done. intros d'.
  destruct (decide (d = d')) as [<-|Hne].
  - rewrite lookup_insert_eq. split; eauto.
  - by rewrite lookup_insert_ne.
Qed.

Lemma same_folders_with_launched st l : same_folders st (with_launched l st).
Proof. by split. Qed.

Lemma same_folders_with_next_id st n :
  next_id st ≤ n → same_folders st (with_next_id n st).
Proof. by split. Qed.

Lemma same_folders_alter st f self :
  (∀ o, folder_view (f o) = folder_view o) →
  same_folders st (with_objs (alter f self) st).
Proof.
  intros Hf. split; simpl; try done. intros o. rewrite lookup_alter.
  case_decide; [|done]. subst. destruct (objs st !! o); simpl; [|done].
  by rewrite Hf.
Qed.

Ltac run_prim :=
  intros st; cbv [bind get_state modify raise ret]; simpl;
  repeat case_match; simpl; subst;
  try apply same_folders_refl;
  try (apply same_folders_with_data; eauto);
  try apply same_folders_with_launched.

Lemma os_path_isdir_same p : keeps same_folders (os.path_isdir p).
Proof. unfold os.path_isdir. run_prim. Qed.

Lemma os_listdir_same p : keeps same_folders (os.listdir p).
Proof. unfold os.listdir. run_prim. Qed.

Lemma os_remove_same p : keeps same_folders (os.remove p).
Proof. unfold os.remove. run_prim. Qed.

Lemma os_startfile_same p : keeps same_folders (os.startfile p).
Proof. unfold os.startfile. run_prim. Qed.

Lemma open_web_same p : keeps same_folders (open_web p).
Proof. unfold open_web. run_prim. Qed.

Lemma file_content_same p : keeps same_folders (file.content p).
Proof. unfold file.content. run_prim. Qed.

Lemma file_store_same p c : keeps same_folders (file.store p c).
Proof. unfold file.store. run_prim. Qed.

Lemma file_open_x_same p : keeps same_folders (file.open_x p).
Proof. unfold file.open_x, file.store. run_prim. Qed.

Lemma file_open_a_same p : keeps same_folders (file.open_a p).
Proof. unfold file.open_a, file.store. run_prim. Qed.

Lemma file_open_w_same p : keeps same_folders (file.open_w p).
Proof. apply file_store_same. Qed.

Lemma file_write_same pf p text : keeps same_folders (file.write pf p text).
Proof.
  unfold file.write. apply keeps_bind; [tc_solve|apply file_content_same|].
  intros c. apply file_store_same.
Qed.

Lemma file_readlines_same p : keeps same_folders (file.readlines p).
Proof.
  unfold file.readlines. apply keeps_bind; [tc_solve|apply file_content_same|].
  intros c. by apply keeps_ret; tc_solve.
Qed.

Lemma the_option_same self : keeps same_folders (the_option self).
Proof. unfold the_option. run_prim. Qed.

Lemma update_apps_same self (g : Option → list OptionApp) :
  keeps same_folders (update_option self (λ o, set_apps (g o) o)).
Proof. intros st. by apply same_folders_alter. Qed.

Lemma OptionApp_init_same p t : keeps same_folders (OptionApp.__init__ p t).
Proof.
  intros st. cbv [OptionApp.__init__ bind get_state modify ret]. simpl.
  apply same_folders_with_next_id. lia.
Qed.

Lemma OptionApp_run_same app : keeps same_folders (OptionApp.run app).
Proof.
  unfold OptionApp.run. destruct (app_type app);
    [apply os_startfile_same|apply open_web_same].
Qed.

Lemma get_selected_same : keeps same_folders Option.get_selected.
Proof. unfold Option.get_selected. run_prim. Qed.

Create HintDb same_folders.
#[global] Hint Resolve os_path_isdir_same os_listdir_same os_remove_same
  os_startfile_same open_web_same file_content_same file_store_same
  file_open_x_same file_open_a_same file_open_w_same file_write_same
  file_readlines_same the_option_same update_apps_same OptionApp_init_same
  OptionApp_run_same get_selected_same : same_folders.

Ltac keeps_step :=
  lazymatch goal with
  | |- PreOrder _ => tc_solve
  | |- keeps _ (ret _) => apply keeps_ret
  | |- keeps _ (raise _) => apply keeps_raise
  | |- keeps _ (bind _ _) => apply keeps_bind; [| |intros ?]
  | |- keeps _ (for_ _ _) => apply keeps_for; [|intros ?]
  | |- keeps _ (for_acc _ _ _) => apply keeps_for_acc; [|intros ? ?]
  | |- keeps _ (match ?x with _ => _ end) => destruct x
  | |- keeps _ (let _ := _ in _) => cbv zeta
  end.

Ltac keeps_same := repeat (first [solve [eauto with same_folders]|keeps_step]).

Lemma add_app_same self app : keeps same_folders (Option.add_app self app).
Proof. unfold Option.add_app. apply update_apps_same. Qed.

Lemma run_all_same self : keeps same_folders (Option.run_all self).
Proof. unfold Option.run_all. keeps_same. Qed.

Lemma run_selected_same self : keeps same_folders (Option.run_selected self).
Proof. unfold Option.run_selected. keeps_same. Qed.

Lemma run_selected_option_same : keeps same_folders MainPage.run_selected_option.
Proof.
  unfold MainPage.run_selected_option, MainPage.get_selected_option,
    MainPage.run_option.
  keeps_same. apply run_all_same.
Qed.

Lemma apps_remove_same option app : keeps same_folders (OptionPage.apps_remove option app).
Proof.
  unfold OptionPage.apps_remove. keeps_same.
Qed.

Lemma remove_selected_loop_same rounds option index urls :
  keeps same_folders (OptionPage.remove_selected_loop rounds option index urls).
Proof.
  revert index urls. induction rounds as [|rounds IH]; intros index urls; simpl.
  - keeps_same.
  - keeps_same; try apply apps_remove_same; apply IH.
Qed.

Lemma keep_url_same pf path urls url :
  keeps same_folders (OptionPage.keep_url pf path urls url).
Proof. unfold OptionPage.keep_url. keeps_same. Qed.

Lemma add_web_same pf option entry :
  keeps same_folders (OptionPage.add_web pf option entry).
Proof. unfold OptionPage.add_web. keeps_same. Qed.

Lemma remove_selected_same pf option :
  keeps same_folders (OptionPage.remove_selected pf option).
Proof.
  unfold OptionPage.remove_selected. keeps_same.
  - apply remove_selected_loop_same.
  - apply keep_url_same.
Qed.

Lemma add_exe_same option file : keeps same_folders (OptionPage.add_exe option file).
Proof. unfold OptionPage.add_exe, OptionApp.create_lnk. keeps_same. Qed.

Lemma click_app_same option index :
  keeps same_folders (OptionPage.click_app option index).
Proof. unfold OptionPage.click_app. apply update_apps_same. Qed.

(** ** The single selection *)

Lemma is_selected_same st st' o :
  same_folders st st' →
  Option.is_selected (objs st') o = Option.is_selected (objs st) o.
Proof.
  intros H. pose proof (sf_objs _ _ H o) as Ho. unfold Option.is_selected.
  destruct (objs st' !! o), (objs st !! o); simpl in Ho; try done.
  unfold folder_view in Ho. congruence.
Qed.

Lemma is_Some_same st st' o :
  same_folders st st' → is_Some (objs st' !! o) ↔ is_Some (objs st !! o).
Proof.
  intros H. pose proof (sf_objs _ _ H o) as Ho.
  rewrite <- !(fmap_is_Some folder_view). by rewrite Ho.
Qed.

Lemma filter_ext_elem {A} (P Q : A → Prop) `{!∀ x, Decision (P x)}
    `{!∀ x, Decision (Q x)} (l : list A) :
  (∀ x, x ∈ l → P x ↔ Q x) → filter P l = filter Q l.
Proof.
  induction l as [|x l IH]; intros Hext; [done|].
  rewrite !filter_cons.
  assert (P x ↔ Q x) as Hx by (apply Hext; left).
  rewrite IH by (intros y Hy; apply Hext; by right).
  destruct (decide (P x)), (decide (Q x)); tauto.
Qed.

Lemma selected_folders_same st st' :
  same_folders st st' → selected_folders st' = selected_folders st.
Proof.
  intros H. unfold selected_folders. rewrite (sf_all _ _ H).
  apply filter_ext_elem. intros o _. by rewrite (is_selected_same _ _ _ H).
Qed.

Lemma exclusive_same st st' : same_folders st st' → exclusive st → exclusive st'.
Proof.
  intros H [Hf Hn Hl H1]. split.
  - intros o Ho. apply (is_Some_same _ _ _ H) in Ho.
    pose proof (sf_next _ _ H). specialize (Hf o Ho). lia.
  - by rewrite (sf_all _ _ H).
  - intros o Ho. rewrite (sf_all _ _ H) in Ho. by apply (is_Some_same _ _ _ H), Hl.
  - by rewrite (selected_folders_same _ _ H).
Qed.

Global Instance keeps_exclusive_preorder : PreOrder keeps_exclusive.
Proof. split; unfold keeps_exclusive; [by intros ?|intros ? ? ?; tauto]. Qed.

Lemma same_keeps_exclusive {A} (m : M A) :
  keeps same_folders m → keeps keeps_exclusive m.
Proof. apply keeps_weaken. intros st st' H Hex. by apply (exclusive_same st). Qed.

Lemma is_selected_alter_ne h v self o :
  o ≠ self →
  Option.is_selected (alter (set_selected v) self h) o = Option.is_selected h o.
Proof. intros Hne. unfold Option.is_selected. by rewrite lookup_alter_ne. Qed.

Lemma is_selected_alter_eq h v self :
  is_Some (h !! self) →
  Option.is_selected (alter (set_selected v) self h) self = v.
Proof.
  intros [x Hx]. unfold Option.is_selected. by rewrite lookup_alter_eq, Hx.
Qed.

Lemma is_selected_deselect h self o :
  Option.is_selected (alter (set_selected false) self h) o
  = Option.is_selected h o && bool_decide (o ≠ self).
Proof.
  destruct (decide (o = self)) as [->|Hne].
  - rewrite bool_decide_eq_false_2 by tauto. rewrite andb_false_r.
    unfold Option.is_selected. rewrite lookup_alter_eq.
    by destruct (h !! self).
  - rewrite is_selected_alter_ne, bool_decide_eq_true_2, andb_true_r; done.
Qed.

Lemma filter_length_mono {A} (P Q : A → Prop) `{!∀ x, Decision (P x)}
    `{!∀ x, Decision (Q x)} (l : list A) :
  (∀ x, P x → Q x) → length (filter P l) ≤ length (filter Q l).
Proof.
  intros HPQ. induction l as [|x l IH]; [done|].
  rewrite !filter_cons.
  destruct (decide (P x)) as [HP|HP], (decide (Q x)) as [HQ|HQ]; simpl; try lia.
  by apply HPQ in HP.
Qed.

Lemma filter_none {A} (P : A → Prop) `{!∀ x, Decision (P x)} (l : list A) :
  (∀ x, x ∈ l → ¬ P x) → filter P l = [].
Proof.
  induction l as [|x l IH]; intros Hnone; [done|].
  rewrite filter_cons, decide_False by (apply Hnone; left).
  apply IH. intros y Hy. apply Hnone. by right.
Qed.

Lemma filter_ext_elem_id {A} (P : A → Prop) `{!∀ x, Decision (P x)} (l : list A) :
  (∀ x, x ∈ l → P x) → filter P l = l.
Proof.
  induction l as [|x l IH]; intros Hall; [done|].
  rewrite filter_cons, decide_True by (apply Hall; left).
  f_equal. apply IH. intros y Hy. apply Hall. by right.
Qed.

Lemma filter_only {A} `{!EqDecision A} (P : A → Prop) `{!∀ x, Decision (P x)}
    (l : list A) (b : A) :
  NoDup l → b ∈ l → (∀ x, x ∈ l → P x ↔ x = b) → filter P l = [b].
Proof.
  intros Hnd Hb HP. induction Hnd as [|x l Hx Hnd IH].
  - by apply elem_of_nil in Hb.
  - rewrite filter_cons. destruct (decide (x = b)) as [->|Hne].
    + rewrite decide_True by (apply HP; [left|done]).
      f_equal. apply filter_none. intros y Hy HPy.
      apply HP in HPy; [|by right]. by subst.
    + rewrite decide_False by (rewrite HP; [done|left]).
      apply IH.
      * apply elem_of_cons in Hb as [?|?]; [congruence|done].
      * intros y Hy. apply HP. by right.
Qed.

Lemma at_most_one {A} (l : list A) x y :
  length l ≤ 1 → x ∈ l → y ∈ l → x = y.
Proof.
  destruct l as [|z [|z' l]]; simpl; intros Hlen Hx Hy; [by apply elem_of_nil in Hx| |lia].
  apply list_elem_of_singleton in Hx, Hy. congruence.
Qed.

Lemma first_selected_Some h l a :
  Option.first_selected h l = Some a → a ∈ l ∧ Option.is_selected h a = true.
Proof.
  induction l as [|o l IH]; simpl; [done|].
  destruct (Option.is_selected h o) eqn:Ho.
  - intros [= <-]. split; [left|done].
  - intros H. destruct (IH H). split; [by right|done].
Qed.

Lemma first_selected_None h l :
  Option.first_selected h l = None → ∀ o, o ∈ l → Option.is_selected h o = false.
Proof.
  induction l as [|o l IH]; simpl; intros H x Hx; [by apply elem_of_nil in Hx|].
  destruct (Option.is_selected h o) eqn:Ho; [done|].
  apply elem_of_cons in Hx as [->|Hx]; [done|by apply IH].
Qed.

Lemma elem_of_selected_folders st o :
  o ∈ selected_folders st ↔ o ∈ all_ st ∧ Option.is_selected (objs st) o = true.
Proof.
  unfold selected_folders. rewrite list_elem_of_filter.
  rewrite Is_true_true. tauto.
Qed.

Lemma exclusive_with_data st d : exclusive st → exclusive (with_data d st).
Proof. by intros []. Qed.

Lemma exclusive_with_options st l : exclusive st → exclusive (with_options l st).
Proof. by intros []. Qed.

Lemma list_remove_split {A} (same : A → bool) (l l' : list A) :
  list_remove same l = Some l' →
  ∃ l1 y l2, l = l1 ++ y :: l2 ∧ l' = l1 ++ l2 ∧ same y = true.
Proof.
  revert l'. induction l as [|x l IH]; intros l'; simpl; [done|].
  destruct (same x) eqn:Hx.
  - intros [= <-]. by exists [], x, l.
  - destruct (list_remove same l) as [r|]; simpl; [|done].
    intros [= <-]. destruct (IH r eq_refl) as (l1 & y & l2 & -> & -> & Hy).
    by exists (x :: l1), y, l2.
Qed.

Lemma list_remove_elem {A} (same : A → bool) (l : list A) x :
  x ∈ l → same x = true → is_Some (list_remove same l).
Proof.
  induction l as [|y l IH]; intros Hx Hs; [by apply elem_of_nil in Hx|].
  simpl. destruct (same y) eqn:Hy; [eauto|].
  apply elem_of_cons in Hx as [->|Hx]; [congruence|].
  destruct (IH Hx Hs) as [r ->]. simpl. eauto.
Qed.

Lemma Option_init_exclusive n l : keeps keeps_exclusive (Option.__init__ n l).
Proof.
  intros st [Hf Hn Hl H1].
  cbv [Option.__init__ bind get_state modify ret]. simpl.
  assert (next_id st ∉ all_ st) as Hnew.
  { intros Hin. apply Hl, Hf in Hin. lia. }
  split; simpl.
  - intros o Ho. destruct (decide (o = next_id st)) as [->|Hne]; [lia|].
    rewrite lookup_insert_ne in Ho by done. apply Hf in Ho. lia.
  - apply NoDup_app. split_and!; [done| |apply NoDup_singleton].
    intros o Ho ->%list_elem_of_singleton. done.
  - intros o [Ho| ->%list_elem_of_singleton]%elem_of_app.
    + rewrite lookup_insert_ne; [by apply Hl|]. intros <-. done.
    + rewrite lookup_insert_eq. eauto.
  - unfold selected_folders in *. simpl. rewrite filter_app, length_app.
    rewrite (filter_none _ [next_id st]).
    + rewrite (filter_ext_elem _ (λ o, Option.is_selected (objs st) o) (all_ st));
        [simpl; lia|].
      intros o Ho. unfold Option.is_selected.
      rewrite lookup_insert_ne; [done|]. intros <-. done.
    + intros o ->%list_elem_of_singleton. unfold Option.is_selected.
      rewrite lookup_insert_eq. simpl. tauto.
Qed.

Lemma deselect_exclusive self : keeps keeps_exclusive (Option.deselect self).
Proof.
  intros st [Hf Hn Hl H1]. split; simpl; try done.
  - intros o Ho. apply Hf. by rewrite lookup_alter_is_Some in Ho.
  - intros o Ho. rewrite lookup_alter_is_Some. by apply Hl.
  - etransitivity; [|exact H1]. unfold selected_folders. simpl.
    apply filter_length_mono. intros o. rewrite is_selected_deselect.
    intros [? _]%andb_True. done.
Qed.

Lemma delete_exclusive self : keeps keeps_exclusive (Option.delete self).
Proof.
  unfold Option.delete. apply keeps_bind; [tc_solve|apply deselect_exclusive|].
  intros _ st. cbv [bind get_state modify raise]. simpl.
  destruct (list_remove _ (all_ st)) as [l|] eqn:Hrm; simpl; [|done].
  apply list_remove_split in Hrm as (l1 & y & l2 & Hall & -> & _).
  intros [Hf Hn Hl H1]. rewrite Hall in Hn, Hl. split; simpl; try done.
  - apply NoDup_app in Hn as (? & Hdisj & [? ?]%NoDup_cons).
    apply NoDup_app. split_and!; try done.
    intros o Ho Ho2. apply (Hdisj o Ho). by right.
  - intros o Ho. apply Hl. apply elem_of_app in Ho as [?|?];
      apply elem_of_app; [by left|right; by right].
  - etransitivity; [|exact H1]. unfold selected_folders. simpl. rewrite Hall.
    rewrite !filter_app, !length_app, filter_cons.
    case_decide; simpl; lia.
Qed.

(** What [on_click] does: the folder found selected, if any, is deselected,
    and then the clicked one is selected. *)
Lemma on_click_run self st :
  Option.on_click self st
  = (Ok tt, match Option.first_selected (objs st) (all_ st) with
            | Some a => (Option.select self (Option.deselect a st).2).2
            | None => (Option.select self st).2
            end).
Proof.
  unfold Option.on_click, bind, try_except. rewrite get_selected_ok.
  by destruct (Option.first_selected (objs st) (all_ st)).
Qed.

Lemma on_click_selected self st :
  exclusive st → self ∈ all_ st →
  selected_folders (Option.on_click self st).2 = [self].
Proof.
  intros [Hf Hn Hl H1] Hself. rewrite on_click_run. simpl.
  destruct (Option.first_selected (objs st) (all_ st)) as [a|] eqn:Hfirst;
    unfold selected_folders; simpl.
  - apply first_selected_Some in Hfirst as [Ha Hsel].
    apply filter_only; [done..|].
    intros o Ho. destruct (decide (o = self)) as [->|Hne].
    + rewrite is_selected_alter_eq; [done|].
      rewrite lookup_alter_is_Some. by apply Hl.
    + rewrite is_selected_alter_ne, is_selected_deselect by done.
      split; [|done]. intros [Ho1 Ho2%bool_decide_unpack]%andb_True.
      destruct Ho2. apply (at_most_one (selected_folders st)); [done|..];
        apply elem_of_selected_folders; split; try done.
      by apply Is_true_true.
  - apply filter_only; [done..|].
    intros o Ho. destruct (decide (o = self)) as [->|Hne].
    + rewrite is_selected_alter_eq; [done|]. by apply Hl.
    + rewrite is_selected_alter_ne by done.
      rewrite (first_selected_None _ _ Hfirst o Ho). done.
Qed.

Lemma on_click_exclusive self st :
  exclusive st → self ∈ all_ st → exclusive (Option.on_click self st).2.
Proof.
  intros Hex Hself. pose proof (on_click_selected self st Hex Hself) as Hsel.
  destruct Hex as [Hf Hn Hl H1]. rewrite on_click_run in *. simpl in *.
  split.
  - intros o. destruct (Option.first_selected _ _); simpl;
      rewrite ?lookup_alter_is_Some; apply Hf.
  - by destruct (Option.first_selected _ _).
  - intros o. destruct (Option.first_selected _ _); simpl;
      rewrite ?lookup_alter_is_Some; apply Hl.
  - rewrite Hsel. simpl. lia.
Qed.

Lemma mkdir_exclusive p : keeps keeps_exclusive (os.mkdir p).
Proof.
  intros st Hex. cbv [os.mkdir bind get_state modify raise]. simpl.
  repeat case_match; simpl; try done. by apply exclusive_with_data.
Qed.

Lemma delete_directory_exclusive p : keeps keeps_exclusive (delete_directory p).
Proof.
  intros st Hex. cbv [delete_directory bind get_state modify raise]. simpl.
  repeat case_match; simpl; try done. by apply exclusive_with_data.
Qed.

Lemma set_options_exclusive (f : State → list nat) :
  keeps keeps_exclusive (modify (λ st, with_options (f st) st)).
Proof. intros st Hex. by apply exclusive_with_options. Qed.

Create HintDb exclusive.
#[global] Hint Resolve Option_init_exclusive deselect_exclusive delete_exclusive
  mkdir_exclusive delete_directory_exclusive set_options_exclusive : exclusive.
#[global] Hint Resolve add_app_same run_all_same run_selected_same
  run_selected_option_same apps_remove_same remove_selected_loop_same
  keep_url_same add_web_same remove_selected_same click_app_same
  add_exe_same : same_folders.

Ltac keeps_ex :=
  repeat (first [ solve [eauto with exclusive]
                | apply same_keeps_exclusive; solve [eauto with same_folders]
                | apply keeps_get_state
                | keeps_step ]).

Lemma load_file_same option_path app_name cur_apps :
  keeps same_folders (MainPage.load_file option_path app_name cur_apps).
Proof.
  unfold MainPage.load_file. case_bool_decide; keeps_same.
  unfold MainPage.load_url. keeps_same.
Qed.

Lemma add_option_exclusive n l : keeps keeps_exclusive (MainPage.add_option n l).
Proof.
  unfold MainPage.add_option. keeps_ex.
Qed.

Lemma del_option_exclusive option : keeps keeps_exclusive (MainPage.del_option option).
Proof.
  unfold MainPage.del_option. keeps_ex.
Qed.

Lemma del_selected_option_exclusive : keeps keeps_exclusive MainPage.del_selected_option.
Proof.
  unfold MainPage.del_selected_option, MainPage.get_selected_option. keeps_ex.
  all: apply del_option_exclusive.
Qed.

Lemma get_options_exclusive : keeps keeps_exclusive MainPage.get_options.
Proof.
  unfold MainPage.get_options. keeps_ex.
  all: first [ apply (set_options_exclusive (λ _, []))
             | apply same_keeps_exclusive, load_file_same
             | apply add_option_exclusive ].
Qed.

Lemma boot_exclusive disk : exclusive (boot disk).
Proof.
  split; simpl.
  - intros o [x Hx]. by rewrite lookup_empty in Hx.
  - apply NoDup_nil_2.
  - intros o Ho. by apply elem_of_nil in Ho.
  - lia.
Qed.

Lemma handle_exclusive pf ev st :
  exclusive st → enabled st ev → exclusive (handle pf ev st).2.
Proof.
  intros Hex Hen. destruct ev; simpl in *.
  - by apply add_option_exclusive.
  - by apply del_selected_option_exclusive.
  - by apply (same_keeps_exclusive _ run_selected_option_same).
  - by apply on_click_exclusive.
  - by apply (same_keeps_exclusive _ (click_app_same _ _)).
  - by apply (same_keeps_exclusive _ (add_exe_same _ _)).
  - by apply (same_keeps_exclusive _ (add_web_same _ _ _)).
  - by apply (same_keeps_exclusive _ (remove_selected_same _ _)).
  - by apply (same_keeps_exclusive _ (run_selected_same _)).
Qed.

Lemma reachable_exclusive pf disk st : reachable pf disk st → exclusive st.
Proof.
  induction 1 as [|st ev _ IH Hen].
  - apply get_options_exclusive, boot_exclusive.
  - by apply handle_exclusive.
Qed.

Lemma first_selected_exclusive st a :
  exclusive st → a ∈ selected_folders st →
  Option.first_selected (objs st) (all_ st) = Some a.
Proof.
  intros Hex Ha.
  destruct (Option.first_selected (objs st) (all_ st)) as [a'|] eqn:Hfirst.
  - f_equal. apply first_selected_Some in Hfirst as [? ?].
    apply (at_most_one (selected_folders st)); [apply Hex| |done].
    by apply elem_of_selected_folders.
  - apply elem_of_selected_folders in Ha as [Hin Hsel].
    by rewrite (first_selected_None _ _ Hfirst a Hin) in Hsel.
Qed.

(** C1. At every moment of a run at most one listed folder is selected; and
    a click on folder [b] while another folder [a] holds the selection first
    deselects [a] and then selects [b], after which [b] alone is selected. *)
Theorem selection_exclusive (pf : Platform) (disk : gmap string (gmap string string))
    (st : State) :
  reachable pf disk st →
  length (selected_folders st) ≤ 1
  ∧ ∀ a b, a ≠ b → a ∈ selected_folders st → b ∈ all_ st →
      Option.on_click b st
      = (Ok tt, (Option.select b (Option.deselect a st).2).2)
      ∧ Option.is_selected (objs (Option.on_click b st).2) a = false
      ∧ Option.is_selected (objs (Option.on_click b st).2) b = true
      ∧ selected_folders (Option.on_click b st).2 = [b].
Proof.
  intros Hex%reachable_exclusive. split; [apply Hex|].
  intros a b Hne Ha Hb.
  pose proof (on_click_selected b st Hex Hb) as Hsel.
  pose proof (on_click_exclusive b st Hex Hb) as Hex'.
  assert (a ∈ all_ (Option.on_click b st).2) as Ha'.
  { apply elem_of_selected_folders in Ha as [Ha _]. rewrite on_click_run. simpl.
    by destruct (Option.first_selected _ _). }
  split_and!; [|..|done].
  - rewrite on_click_run. by rewrite (first_selected_exclusive st a Hex Ha).
  - destruct (Option.is_selected (objs (Option.on_click b st).2) a) eqn:Hsa; [|done].
    assert (a ∈ selected_folders (Option.on_click b st).2) as Hin
      by by apply elem_of_selected_folders.
    rewrite Hsel in Hin. by apply list_elem_of_singleton in Hin.
  - assert (b ∈ selected_folders (Option.on_click b st).2) as Hin
      by (rewrite Hsel; left).
    by apply elem_of_selected_folders in Hin as [_ ?].
Qed.

Lemma reachable_run_events pf disk evs st :
  reachable pf disk st → enabled_all pf evs st →
  reachable pf disk (run_events pf evs st).
Proof.
  revert st. induction evs as [|ev evs IH]; intros st Hst Hen; [done|].
  destruct Hen as [Hev Hen]. apply IH; [|done]. by apply reach_event.
Qed.

Lemma demo_two_reachable : reachable Windows ∅ demo_two.
Proof.
  apply reachable_run_events; [apply reach_startup|].
  simpl. split_and!; try done. vm_compute. left.
Qed.

Lemma selection_exclusive_witness :
  length (selected_folders demo_two) ≤ 1
  ∧ Option.on_click 1 demo_two
    = (Ok tt, (Option.select 1 (Option.deselect 0 demo_two).2).2)
  ∧ Option.is_selected (objs (Option.on_click 1 demo_two).2) 0 = false
  ∧ Option.is_selected (objs (Option.on_click 1 demo_two).2) 1 = true
  ∧ selected_folders (Option.on_click 1 demo_two).2 = [1].
Proof.
  destruct (selection_exclusive Windows ∅ demo_two demo_two_reachable) as [H1 H2].
  split; [exact H1|]. apply (H2 0 1).
  - lia.
  - vm_compute. left.
  - vm_compute. right. left.
Defined.

(** ** Well-formed states *)

Global Instance same_layout_preorder : PreOrder same_layout.
Proof.
  split.
  - intros st. by split.
  - intros st1 st2 st3 [? ? ? Ho1 Hd1] [? ? ? Ho2 Hd2].
    split; [congruence|congruence|lia| |].
    + intros o. by rewrite Ho2.
    + intros d. by rewrite Hd2.
Qed.

Lemma same_folders_layout st st' : same_folders st st' → same_layout st st'.
Proof.
  intros [? ? ? Ho ?]. split; try done. intros o. specialize (Ho o).
  destruct (objs st' !! o), (objs st !! o); simpl in *; try done.
  unfold folder_view in Ho. congruence.
Qed.

Lemma same_layout_lookup st st' o x' :
  same_layout st st' → objs st' !! o = Some x' →
  ∃ x, objs st !! o = Some x ∧ name x = name x'.
Proof.
  intros H Hx'. pose proof (sl_objs _ _ H o) as Ho. rewrite Hx' in Ho.
  destruct (objs st !! o) as [x|]; simpl in Ho; [|done].
  exists x. split; [done|congruence].
Qed.

Lemma same_layout_lookup_inv st st' o x :
  same_layout st st' → objs st !! o = Some x →
  ∃ x', objs st' !! o = Some x' ∧ name x' = name x.
Proof.
  intros H Hx. pose proof (sl_objs _ _ H o) as Ho. rewrite Hx in Ho.
  destruct (objs st' !! o) as [x'|]; simpl in Ho; [|done].
  exists x'. split; [done|congruence].
Qed.

Lemma sound_same_layout st st' : same_layout st st' → sound st → sound st'.
Proof.
  intros H [Hf Ha Hn Hl Hnm Hb Ht].
  pose proof (sl_all _ _ H) as Hall. pose proof (sl_options _ _ H) as Hopt.
  split.
  - intros o [x' Hx']. destruct (same_layout_lookup _ _ _ _ H Hx') as (x & Hx & _).
    pose proof (sl_next _ _ H). specialize (Hf o (ex_intro _ x Hx)). lia.
  - congruence.
  - by rewrite Hopt.
  - intros o Ho. rewrite Hopt in Ho. destruct (Hl o Ho) as [x Hx].
    destruct (same_layout_lookup_inv _ _ _ _ H Hx) as (x' & -> & _). eauto.
  - intros o o' x x' Ho Ho' Hx Hx' Hname. rewrite Hopt in Ho, Ho'.
    destruct (same_layout_lookup _ _ _ _ H Hx) as (y & Hy & Hny).
    destruct (same_layout_lookup _ _ _ _ H Hx') as (y' & Hy' & Hny').
    apply (Hnm o o' y y'); try done. congruence.
  - intros o x' Ho Hx'. rewrite Hopt in Ho.
    destruct (same_layout_lookup _ _ _ _ H Hx') as (x & Hx & Hnx).
    apply (sl_dirs _ _ H). rewrite <- Hnx. by apply (Hb o).
  - intros d Hd. apply Ht. by apply (sl_dirs _ _ H).
Qed.

Lemma folder_named_same_layout st st' d :
  same_layout st st' → folder_named st' d ↔ folder_named st d.
Proof.
  intros H. unfold folder_named. rewrite (sl_options _ _ H). split.
  - intros (o & x' & Ho & Hx' & Hn).
    destruct (same_layout_lookup _ _ _ _ H Hx') as (x & Hx & Hnx).
    exists o, x. split_and!; [done..|congruence].
  - intros (o & x & Ho & Hx & Hn).
    destruct (same_layout_lookup_inv _ _ _ _ H Hx) as (x' & Hx' & Hnx').
    exists o, x'. split_and!; [done..|congruence].
Qed.

Lemma wf_same_layout st st' : same_layout st st' → wf st → wf st'.
Proof.
  intros H [Hs Hm]. split; [by apply (sound_same_layout st)|].
  intros d Hd. apply (folder_named_same_layout _ _ _ H), Hm.
  by apply (sl_dirs _ _ H).
Qed.

Lemma select_layout v self : keeps same_layout (update_option self (set_selected v)).
Proof.
  intros st. split; simpl; try done. intros o. rewrite lookup_alter.
  case_decide; [|done]. subst. by destruct (objs st !! o).
Qed.

Lemma on_click_layout self : keeps same_layout (Option.on_click self).
Proof.
  intros st. rewrite on_click_run. simpl.
  destruct (Option.first_selected _ _) as [a|].
  - etransitivity; [apply (select_layout false a)|apply (select_layout true self)].
  - apply (select_layout true self).
Qed.

(** *** Trimming *)

Lemma rstrip_idem s : PyStr.rstrip (PyStr.rstrip s) = PyStr.rstrip s.
Proof.
  induction s as [|c s IH]; [done|]. simpl.
  destruct (PyStr.rstrip s) as [|c' r] eqn:Hr.
  - destruct (PyStr.isspace c) eqn:Hc; [done|]. simpl. by rewrite Hc.
  - simpl. simpl in IH. by rewrite IH.
Qed.

Lemma lstrip_head s :
  PyStr.lstrip s = "" ∨ ∃ c r, PyStr.lstrip s = String c r ∧ PyStr.isspace c = false.
Proof.
  induction s as [|c s IH]; simpl; [by left|].
  destruct (PyStr.isspace c) eqn:Hc; [done|]. right. eauto.
Qed.

Lemma rstrip_head c r :
  PyStr.isspace c = false → ∃ r', PyStr.rstrip (String c r) = String c r'.
Proof.
  intros Hc. simpl. destruct (PyStr.rstrip r); rewrite ?Hc; eauto.
Qed.

Lemma strip_head s :
  PyStr.strip s = "" ∨ ∃ c r, PyStr.strip s = String c r ∧ PyStr.isspace c = false.
Proof.
  unfold PyStr.strip. destruct (lstrip_head s) as [->|(c & r & -> & Hc)]; [by left|].
  right. destruct (rstrip_head c r Hc) as [r' ->]. eauto.
Qed.

Lemma lstrip_strip s : PyStr.lstrip (PyStr.strip s) = PyStr.strip s.
Proof.
  destruct (strip_head s) as [->|(c & r & -> & Hc)]; [done|]. simpl. by rewrite Hc.
Qed.

Lemma strip_idem s : PyStr.strip (PyStr.strip s) = PyStr.strip s.
Proof.
  unfold PyStr.strip at 1. rewrite lstrip_strip. unfold PyStr.strip.
  apply rstrip_idem.
Qed.

(** *** A new folder *)

Lemma with_folder_lookup_old n l st o :
  sound st → o ∈ options st → objs (with_folder n l st) !! o = objs st !! o.
Proof.
  intros Hs Ho. simpl. apply lookup_insert_ne. intros <-.
  apply (sound_live _ Hs), (sound_fresh _ Hs) in Ho. lia.
Qed.

Lemma folder_named_with_folder n l st d :
  sound st → folder_named (with_folder n l st) d ↔ folder_named st d ∨ d = n.
Proof.
  intros Hs. unfold folder_named. split.
  - intros (o & x & Ho & Hx & Hn). simpl in Ho.
    apply elem_of_app in Ho as [Ho| ->%list_elem_of_singleton].
    + rewrite with_folder_lookup_old in Hx by done. left. eauto.
    + simpl in Hx. rewrite lookup_insert_eq in Hx. injection Hx as <-. by right.
  - intros [(o & x & Ho & Hx & Hn)| ->].
    + exists o, x. split_and!; [|by rewrite with_folder_lookup_old|done].
      simpl. apply elem_of_app. by left.
    + exists (next_id st), (mkOption n l false). split_and!; [|simpl|done].
      * simpl. apply elem_of_app. right. left.
      * by rewrite lookup_insert_eq.
Qed.

Lemma sound_with_folder n l st :
  sound st → ¬ folder_named st n → is_Some (data st !! n) →
  sound (with_folder n l st).
Proof.
  intros Hs Hfree Hdir. pose proof Hs as [Hf Ha Hn Hl Hnm Hb Ht].
  assert (next_id st ∉ options st) as Hnew.
  { intros Hin. apply Hl, Hf in Hin. lia. }
  split.
  - simpl. intros o Ho. destruct (decide (o = next_id st)) as [->|Hne]; [lia|].
    rewrite lookup_insert_ne in Ho by done. apply Hf in Ho. lia.
  - simpl. by rewrite Ha.
  - simpl. apply NoDup_app. split_and!; [done| |apply NoDup_singleton].
    intros o Ho ->%list_elem_of_singleton. done.
  - intros o Ho. simpl in Ho.
    apply elem_of_app in Ho as [Ho| ->%list_elem_of_singleton].
    + rewrite with_folder_lookup_old by done. by apply Hl.
    + simpl. rewrite lookup_insert_eq. eauto.
  - intros o o' x x' Ho Ho' Hx Hx' Hname. simpl in Ho, Ho'.
    apply elem_of_app in Ho as [Ho| ->%list_elem_of_singleton];
      apply elem_of_app in Ho' as [Ho'| ->%list_elem_of_singleton]; [| | |done].
    + rewrite with_folder_lookup_old in Hx, Hx' by done. by apply (Hnm o o' x x').
    + rewrite with_folder_lookup_old in Hx by done.
      simpl in Hx'. rewrite lookup_insert_eq in Hx'. injection Hx' as <-.
      destruct Hfree. exists o, x. done.
    + rewrite with_folder_lookup_old in Hx' by done.
      simpl in Hx. rewrite lookup_insert_eq in Hx. injection Hx as <-.
      destruct Hfree. exists o', x'. done.
  - intros o x Ho Hx. simpl in Ho.
    apply elem_of_app in Ho as [Ho| ->%list_elem_of_singleton].
    + rewrite with_folder_lookup_old in Hx by done. by apply (Hb o).
    + simpl in Hx. rewrite lookup_insert_eq in Hx. by injection Hx as <-.
  - done.
Qed.

Lemma sound_with_dir n dir st :
  sound st → PyStr.strip n = n → n ≠ "" →
  sound (with_data (<[n := dir]> (data st)) st).
Proof.
  intros [Hf Ha Hn Hl Hnm Hb Ht] Hstrip Hne. split; simpl; try done.
  - intros o x Ho Hx. destruct (decide (n = name x)) as [->|Hd].
    + rewrite lookup_insert_eq. eauto.
    + rewrite lookup_insert_ne by done. by apply (Hb o).
  - intros d Hd. destruct (decide (n = d)) as [<-|Hnd]; [done|].
    rewrite lookup_insert_ne in Hd by done. by apply Ht.
Qed.

Lemma wf_create n st :
  wf st → PyStr.strip n = n → n ≠ "" → ¬ folder_named st n →
  wf (with_data (<[n := new_directory]> (data st)) (with_folder n [] st)).
Proof.
  intros [Hs Hm] Hstrip Hne Hfree.
  change (wf (with_folder n [] (with_data (<[n := new_directory]> (data st)) st))).
  pose proof (sound_with_dir n new_directory st Hs Hstrip Hne) as Hs'.
  split.
  - apply sound_with_folder; [done|done|]. simpl. rewrite lookup_insert_eq. eauto.
  - intros d Hd. apply folder_named_with_folder; [done|].
    destruct (decide (d = n)) as [->|Hnd]; [by right|left].
    simpl in Hd. rewrite lookup_insert_ne in Hd by done. by apply Hm.
Qed.

Lemma free_name_no_directory st n : wf st → ¬ folder_named st n → data st !! n = None.
Proof.
  intros [_ Hm] Hfree. destruct (data st !! n) as [dir|] eqn:Hd; [|done].
  destruct Hfree. apply Hm. by rewrite Hd.
Qed.


Lemma add_new_option_run st entry :
  wf st → PyStr.strip entry ≠ "" → ¬ folder_named st (PyStr.strip entry) →
  plain_name (PyStr.strip entry) = true →
  MainPage.add_new_option entry st
  = (Ok tt, with_data (<[PyStr.strip entry := new_directory]> (data st))
              (with_folder (PyStr.strip entry) [] st)).
Proof.
  intros Hwf Hne Hfree Hplain. unfold MainPage.add_new_option.
  rewrite add_option_fresh by done. cbv zeta.
  by rewrite (isdir_plain_free _ _ Hplain (free_name_no_directory st _ Hwf Hfree)).
Qed.

(** *** Deleting the selected folder *)

Lemma list_remove_nodup (l : list nat) (o : nat) :
  NoDup l → o ∈ l →
  list_remove (λ y, bool_decide (y = o)) l = Some (filter (λ y, y ≠ o) l).
Proof.
  intros Hnd. induction Hnd as [|x l Hx Hnd IH]; intros Ho.
  - by apply elem_of_nil in Ho.
  - simpl. rewrite filter_cons. case_bool_decide as Hxo.
    + subst. rewrite decide_False by tauto. f_equal. symmetry.
      apply filter_ext_elem_id. intros y Hy ->. done.
    + rewrite decide_True by done.
      apply elem_of_cons in Ho as [->|Ho]; [done|]. by rewrite IH.
Qed.

Lemma is_selected_Some h o :
  Option.is_selected h o = true → ∃ x, h !! o = Some x ∧ selected x = true.
Proof. unfold Option.is_selected. destruct (h !! o); [eauto|done]. Qed.

Lemma del_selected_option_none st :
  Option.first_selected (objs st) (all_ st) = None →
  MainPage.del_selected_option st = (Ok tt, st).
Proof.
  intros H. unfold MainPage.del_selected_option, MainPage.get_selected_option, bind.
  by rewrite get_selected_ok, H.
Qed.

Lemma del_selected_option_run st o x :
  sound st →
  Option.first_selected (objs st) (all_ st) = Some o →
  objs st !! o = Some x →
  MainPage.del_selected_option st = (Ok tt, without_folder o (name x) st).
Proof.
  intros Hs Hfirst Hx. pose proof Hs as [Hf Ha Hn Hl Hnm Hb Ht].
  apply first_selected_Some in Hfirst as Hsel. destruct Hsel as [Ho _].
  rewrite Ha in Ho.
  destruct (Hb o x Ho Hx) as [dir Hdir].
  unfold MainPage.del_selected_option, MainPage.get_selected_option.
  unfold bind at 1. rewrite get_selected_ok, Hfirst.
  unfold bind at 1. rewrite (the_option_ok _ _ _ Hx).
  unfold bind at 1.
  cbv [delete_directory joinpath data_folder_path bind get_state modify]. simpl.
  rewrite Hdir. simpl.
  cbv [MainPage.del_option bind get_state modify]. simpl.
  rewrite (list_remove_nodup _ _ Hn Ho). simpl.
  cbv [Option.delete Option.deselect update_option bind get_state modify]. simpl.
  rewrite Ha, (list_remove_nodup _ _ Hn Ho).
  unfold without_folder. by rewrite Ha.
Qed.

Lemma wf_without_folder st o x :
  wf st → o ∈ options st → objs st !! o = Some x →
  wf (without_folder o (name x) st).
Proof.
  intros [Hs Hm] Ho Hx. pose proof Hs as [Hf Ha Hn Hl Hnm Hb Ht].
  assert (∀ o', o' ≠ o → objs (without_folder o (name x) st) !! o' = objs st !! o')
    as Hold by (intros o' Hne; simpl; by rewrite lookup_alter_ne).
  split; [split|].
  - simpl. intros o' Ho'. apply Hf. by rewrite lookup_alter_is_Some in Ho'.
  - simpl. by rewrite Ha.
  - simpl. by apply NoDup_filter.
  - intros o' [Hne Ho']%list_elem_of_filter. rewrite Hold by done. by apply Hl.
  - intros o1 o2 x1 x2 [Hne1 Ho1]%list_elem_of_filter [Hne2 Ho2]%list_elem_of_filter.
    rewrite !Hold by done. by apply Hnm.
  - intros o' x' [Hne Ho']%list_elem_of_filter. rewrite Hold by done.
    intros Hx'. simpl. rewrite lookup_delete_ne; [by apply (Hb o')|].
    intros Hname. apply Hne. by apply (Hnm o' o x' x).
  - intros d Hd. apply Ht. simpl in Hd. rewrite lookup_delete_is_Some in Hd. tauto.
  - intros d Hd. simpl in Hd. apply lookup_delete_is_Some in Hd as [Hne Hd].
    destruct (Hm d Hd) as (o' & x' & Ho' & Hx' & Hname).
    assert (o' ≠ o) as Hoo by (intros ->; congruence).
    exists o', x'. split_and!; [|by rewrite Hold|done].
    by apply list_elem_of_filter.
Qed.

(** ** Loading the data folder *)

Lemma mk_apps_app start l1 l2 :
  mk_apps start (l1 ++ l2) = mk_apps start l1 ++ mk_apps (start + length l1) l2.
Proof.
  revert start. induction l1 as [|[p t] l1 IH]; intros start; simpl.
  - by rewrite Nat.add_0_r.
  - rewrite IH. do 3 f_equal. lia.
Qed.

Lemma with_next_id_twice n m st : with_next_id m (with_next_id n st) = with_next_id m st.
Proof. done. Qed.

Lemma with_next_id_same st : with_next_id (next_id st) st = st.
Proof. by destruct st. Qed.

Lemma load_urls_run urls acc st :
  let items := (λ u, (Str u, web)) <$> filter (λ u, u ≠ "") (PyStr.strip <$> urls) in
  for_acc urls acc MainPage.load_url st
  = (Ok (acc ++ mk_apps (next_id st) items),
     with_next_id (next_id st + length items) st).
Proof.
  revert acc st. induction urls as [|url urls IH]; intros acc st; simpl.
  - by rewrite app_nil_r, Nat.add_0_r, with_next_id_same.
  - unfold bind, MainPage.load_url at 1. rewrite filter_cons.
    destruct (PyStr.is_empty (PyStr.strip url)) eqn:He.
    + apply is_empty_true in He. rewrite decide_False by tauto.
      unfold ret at 1. apply IH.
    + apply is_empty_false in He. rewrite decide_True by done.
      cbv [OptionApp.__init__ bind get_state modify ret]. simpl.
      rewrite IH. simpl. rewrite <- app_assoc. simpl.
      rewrite with_next_id_twice. f_equal. f_equal.
      rewrite <- Nat.add_succ_r. done.
Qed.

Lemma file_readlines_run st d f dir c :
  data st !! d = Some dir → dir !! f = Some c →
  file.readlines [d; f] st
  = (Ok (PyStr.splitlines_keepends (PyStr.universal_newlines c)), st).
Proof.
  intros Hd Hf. cbv [file.readlines file.content bind get_state ret].
  by rewrite Hd, Hf.
Qed.

Lemma load_file_run st d f dir c acc :
  data st !! d = Some dir → dir !! f = Some c →
  MainPage.load_file [d] f acc st
  = (Ok (acc ++ mk_apps (next_id st) (file_items d f c)),
     with_next_id (next_id st + length (file_items d f c)) st).
Proof.
  intros Hd Hf. unfold MainPage.load_file, file_items, joinpath. simpl.
  case_bool_decide.
  - unfold bind. rewrite (file_readlines_run st d f dir c Hd Hf).
    apply load_urls_run.
  - cbv [OptionApp.__init__ bind get_state modify ret]. simpl.
    do 2 f_equal. f_equal. lia.
Qed.

Lemma load_dir_run st d dir names acc :
  data st !! d = Some dir → (∀ f, f ∈ names → is_Some (dir !! f)) →
  for_acc names acc (MainPage.load_file [d]) st
  = (Ok (acc ++ mk_apps (next_id st) (dir_items d dir names)),
     with_next_id (next_id st + length (dir_items d dir names)) st).
Proof.
  intros Hd. revert acc st Hd.
  induction names as [|f names IH]; intros acc st Hd Hnames; simpl.
  - by rewrite app_nil_r, Nat.add_0_r, with_next_id_same.
  - destruct (Hnames f) as [c Hf]; [left|].
    unfold bind. rewrite (load_file_run st d f dir c acc Hd Hf).
    rewrite IH; [|done|intros g Hg; apply Hnames; by right].
    unfold dir_items. simpl. rewrite Hf. rewrite mk_apps_app, length_app.
    rewrite <- app_assoc. simpl. rewrite with_next_id_twice.
    by rewrite Nat.add_assoc.
Qed.

Lemma elem_of_keys {V} (m : gmap string V) d : d ∈ keys m ↔ is_Some (m !! d).
Proof.
  unfold keys. rewrite list_elem_of_fmap. split.
  - intros ([d' v] & -> & Hin). apply elem_of_map_to_list in Hin. simpl. eauto.
  - intros [v Hv]. exists (d, v). split; [done|]. by apply elem_of_map_to_list.
Qed.

Lemma NoDup_keys {V} (m : gmap string V) : NoDup (keys m).
Proof. apply NoDup_fst_map_to_list. Qed.

Lemma sound_with_next_id st n : sound st → next_id st ≤ n → sound (with_next_id n st).
Proof.
  intros Hs Hn. apply (sound_same_layout st); [|done].
  by apply same_folders_layout, same_folders_with_next_id.
Qed.

Lemma folder_named_with_next_id st n d :
  folder_named (with_next_id n st) d ↔ folder_named st d.
Proof. done. Qed.

Lemma load_folder_sound st d :
  sound st → is_Some (data st !! d) → ¬ folder_named st d →
  sound (load_folder (data st) st d).
Proof.
  intros Hs Hd Hfree. unfold load_folder.
  apply sound_with_folder; [|done..].
  apply sound_with_next_id; [done|lia].
Qed.

Lemma load_folder_named st disk d d' :
  sound st →
  folder_named (load_folder disk st d) d' ↔ folder_named st d' ∨ d' = d.
Proof.
  intros Hs. unfold load_folder. rewrite folder_named_with_folder; [done|].
  apply sound_with_next_id; [done|lia].
Qed.

Lemma load_folder_data st disk d : data (load_folder disk st d) = data st.
Proof. done. Qed.

(** One round of the loop of [get_options], for a tidy directory name. *)
Lemma load_folder_run st d :
  is_Some (data st !! d) → PyStr.strip d = d → d ≠ "" → ¬ folder_named st d →
  (app_names <- os.listdir (joinpath data_folder_path d) ;;
   cur_apps <- for_acc app_names [] (MainPage.load_file (joinpath data_folder_path d)) ;;
   MainPage.add_option d (Some cur_apps)) st
  = (Ok tt, load_folder (data st) st d).
Proof.
  intros [dir Hd] Hstrip Hne Hfree.
  unfold bind at 1. cbv [os.listdir joinpath data_folder_path bind get_state ret].
  simpl. rewrite Hd.
  rewrite (load_dir_run st d dir (keys dir) [] Hd)
    by (intros f Hf; by apply elem_of_keys).
  rewrite add_option_fresh; rewrite Hstrip; [|done|done].
  simpl. rewrite (isdir_Some _ _ _ Hd). unfold load_folder. by rewrite Hd.
Qed.

Lemma load_all_run names st :
  sound st → NoDup names →
  (∀ d, d ∈ names → is_Some (data st !! d) ∧ ¬ folder_named st d) →
  for_ names (λ option_name,
    let option_path := joinpath data_folder_path option_name in
    app_names <- os.listdir option_path ;;
    cur_apps <- for_acc app_names [] (MainPage.load_file option_path) ;;
    MainPage.add_option option_name (Some cur_apps)) st
  = (Ok tt, load_all (data st) names st)
  ∧ sound (load_all (data st) names st)
  ∧ data (load_all (data st) names st) = data st
  ∧ (∀ d, folder_named (load_all (data st) names st) d ↔ folder_named st d ∨ d ∈ names)
  ∧ (∀ o, o ∈ options st →
       o ∈ options (load_all (data st) names st)
       ∧ objs (load_all (data st) names st) !! o = objs st !! o)
  ∧ (∀ d, d ∈ names →
       ∃ o start, o ∈ options (load_all (data st) names st)
         ∧ objs (load_all (data st) names st) !! o
           = Some (mkOption d
                     (mk_apps start
                        (dir_items d (default ∅ (data st !! d))
                           (keys (default ∅ (data st !! d)))))
                     false)).
Proof.
  intros Hs Hnd. revert st Hs.
  induction Hnd as [|d names Hd Hnd IH]; intros st Hs Hnames.
  - simpl. split_and!; try done.
    + intros d. rewrite elem_of_nil. tauto.
    + intros d Hd. by apply elem_of_nil in Hd.
  - destruct (Hnames d) as [Hdir Hfree]; [left|].
    destruct (sound_tidy _ Hs d Hdir) as [Hstrip Hne].
    pose proof (load_folder_sound st d Hs Hdir Hfree) as Hs1.
    destruct (IH (load_folder (data st) st d) Hs1)
      as (Hrun & Hs2 & Hdata & Hnamed & Hkeep & Hnew).
    { intros d' Hd'. rewrite load_folder_data.
      split; [apply Hnames; by right|].
      rewrite load_folder_named by done. intros [Hn| ->]; [|done].
      destruct (Hnames d') as [_ Hfree']; [by right|done]. }
    rewrite load_folder_data in Hrun, Hs2, Hdata, Hnamed, Hkeep, Hnew.
    simpl. unfold bind at 1.
    change (load_all (data st) (d :: names) st)
      with (load_all (data st) names (load_folder (data st) st d)).
    rewrite (load_folder_run st d Hdir Hstrip Hne Hfree).
    assert (sound (with_next_id
              (next_id st + length (dir_items d (default ∅ (data st !! d))
                                      (keys (default ∅ (data st !! d))))) st))
      as Hs0 by (apply sound_with_next_id; [done|lia]).
    split_and!; try done.
    + intros d'. rewrite Hnamed, load_folder_named, elem_of_cons by done. tauto.
    + intros o Ho. destruct (Hkeep o) as [Hin Hobj].
      { unfold load_folder. simpl. apply elem_of_app. by left. }
      split; [done|]. rewrite Hobj. unfold load_folder.
      by rewrite with_folder_lookup_old.
    + intros d' [->|Hd']%elem_of_cons; [|by apply Hnew].
      destruct (Hkeep (next_id (with_next_id
                  (next_id st + length (dir_items d (default ∅ (data st !! d))
                                          (keys (default ∅ (data st !! d))))) st)))
        as [Hin Hobj].
      { unfold load_folder. simpl. apply elem_of_app. right. left. }
      eexists _, _. split; [exact Hin|]. rewrite Hobj.
      unfold load_folder. simpl. by rewrite lookup_insert_eq.
Qed.

Lemma boot_sound disk : tidy disk → sound (boot disk).
Proof.
  intros Ht. split; simpl.
  - intros o [x Hx]. by rewrite lookup_empty in Hx.
  - done.
  - apply NoDup_nil_2.
  - intros o Ho. by apply elem_of_nil in Ho.
  - intros o o' x x' Ho. by apply elem_of_nil in Ho.
  - intros o x Ho. by apply elem_of_nil in Ho.
  - done.
Qed.

Lemma boot_no_folder disk d : ¬ folder_named (boot disk) d.
Proof. intros (o & x & Ho & _). by apply elem_of_nil in Ho. Qed.

(** Loading a tidy data folder gives one folder per directory. *)
Lemma startup_run disk :
  tidy disk →
  MainPage.get_options (boot disk)
  = (Ok (options (load_all disk (keys disk) (boot disk))),
     load_all disk (keys disk) (boot disk))
  ∧ wf (load_all disk (keys disk) (boot disk))
  ∧ data (load_all disk (keys disk) (boot disk)) = disk.
Proof.
  intros Ht.
  destruct (load_all_run (keys disk) (boot disk) (boot_sound disk Ht)
              (NoDup_keys disk)) as (Hrun & Hs & Hdata & Hnamed & _).
  { intros d Hd. split; [by apply elem_of_keys|apply boot_no_folder]. }
  simpl in Hrun, Hs, Hdata, Hnamed. split; [|split; [split|]].
  - unfold MainPage.get_options.
    unfold bind at 1. simpl.
    unfold bind at 1. simpl. unfold bind at 1.
    change (with_options [] (boot disk)) with (boot disk).
    fold (keys disk). by rewrite Hrun.
  - done.
  - intros d Hd. apply Hnamed. right. apply elem_of_keys.
    by rewrite Hdata in Hd.
  - done.
Qed.

Lemma startup_wf disk : tidy disk → wf (startup disk).
Proof.
  intros Ht. destruct (startup_run disk Ht) as (Hrun & Hwf & _).
  unfold startup. by rewrite Hrun.
Qed.

Lemma startup_folders disk d :
  tidy disk → folder_named (startup disk) d ↔ is_Some (disk !! d).
Proof.
  intros Ht. destruct (startup_run disk Ht) as (Hrun & [Hs Hm] & Hdata).
  unfold startup. rewrite Hrun. simpl. split.
  - intros (o & x & Ho & Hx & <-). rewrite <- Hdata at 1. by apply (sound_backed _ Hs o).
  - intros Hd. apply Hm. by rewrite Hdata.
Qed.

Lemma add_new_option_wf entry st :
  tame_entry entry = true → wf st → wf (MainPage.add_new_option entry st).2.
Proof.
  intros Htame Hwf. unfold MainPage.add_new_option.
  destruct (decide (PyStr.strip entry = "")) as [He|He].
  { rewrite add_option_skip by by left. done. }
  destruct (MainPage.name_taken st (PyStr.strip entry)) eqn:Ht.
  { apply name_taken_spec in Ht. rewrite add_option_skip by by right. done. }
  apply name_taken_false in Ht.
  unfold tame_entry in Htame. apply orb_true_iff in Htame as [Hb|Hplain].
  { by apply is_empty_true in Hb. }
  fold (MainPage.add_new_option entry). rewrite add_new_option_run by done.
  simpl. apply wf_create; [done|apply strip_idem|done..].
Qed.

Lemma del_selected_option_wf st : wf st → wf (MainPage.del_selected_option st).2.
Proof.
  intros Hwf.
  destruct (Option.first_selected (objs st) (all_ st)) as [o|] eqn:Hfirst.
  - destruct (first_selected_Some _ _ _ Hfirst) as [Ho Hsel].
    destruct (is_selected_Some _ _ Hsel) as (x & Hx & _).
    rewrite (del_selected_option_run st o x) by (done || apply Hwf). simpl.
    apply wf_without_folder; [done| |done].
    by rewrite <- (sound_all _ (wf_sound _ Hwf)).
  - by rewrite del_selected_option_none.
Qed.

Lemma same_keeps_wf {A} (m : M A) st : keeps same_folders m → wf st → wf (m st).2.
Proof. intros Hm. apply wf_same_layout, same_folders_layout, Hm. Qed.

Lemma handle_wf pf ev st : tame ev = true → wf st → wf (handle pf ev st).2.
Proof.
  intros Htame Hwf. destruct ev; cbn [handle].
  - by apply add_new_option_wf.
  - by apply del_selected_option_wf.
  - by apply same_keeps_wf; [apply run_selected_option_same|].
  - by apply (wf_same_layout st); [apply on_click_layout|].
  - by apply same_keeps_wf; [apply click_app_same|].
  - by apply same_keeps_wf; [apply add_exe_same|].
  - by apply same_keeps_wf; [apply add_web_same|].
  - by apply same_keeps_wf; [apply remove_selected_same|].
  - by apply same_keeps_wf; [apply run_selected_same|].
Qed.

Lemma tidy_empty : tidy ∅.
Proof. intros d [x Hx]. by rewrite lookup_empty in Hx. Qed.

(** A run in which every folder name typed is tame keeps the state
    well-formed. *)
Lemma run_events_wf pf evs st :
  forallb tame evs = true → wf st → wf (run_events pf evs st).
Proof.
  revert st. induction evs as [|ev evs IH]; intros st Htame Hwf; [done|].
  simpl in Htame. apply andb_true_iff in Htame as [Hev Hevs].
  simpl. by apply IH, handle_wf.
Qed.


Lemma demo_two_wf : wf demo_two.
Proof. apply run_events_wf; [reflexivity|apply startup_wf, tidy_empty]. Qed.

(** ** Lines of text *)

Lemma append_cons c s t : String c s +:+ t = String c (s +:+ t).
Proof. done. Qed.

Lemma append_nil_r s : s +:+ "" = s.
Proof. induction s as [|c s IH]; [done|]. by rewrite append_cons, IH. Qed.

Lemma append_assoc (a b c : string) : (a +:+ b) +:+ c = a +:+ (b +:+ c).
Proof. induction a as [|x a IH]; [done|]. by rewrite !append_cons, IH. Qed.


Lemma translate_line_free sep s :
  line_free s = true → PyStr.translate_newlines sep s = s.
Proof.
  induction s as [|c s IH]; simpl; [done|].
  intros [[_ Hlf%negb_true_iff]%andb_true_iff Hs]%andb_true_iff.
  rewrite Hlf. by rewrite IH.
Qed.

Lemma translate_app sep a b :
  PyStr.translate_newlines sep (a +:+ b)
  = PyStr.translate_newlines sep a +:+ PyStr.translate_newlines sep b.
Proof.
  induction a as [|c a IH]; [done|]. rewrite append_cons. simpl.
  destruct (Ascii.eqb c PyStr.LF); rewrite IH; [|done].
  by rewrite append_assoc.
Qed.

Lemma universal_line_free s :
  line_free s = true → PyStr.universal_newlines s = s.
Proof.
  induction s as [|c s IH]; simpl; [done|].
  intros [[Hcr%negb_true_iff _]%andb_true_iff Hs]%andb_true_iff.
  rewrite Hcr. by rewrite IH.
Qed.

(** Universal newlines distribute over a concatenation whose left part is
    made of whole lines. *)
Lemma universal_terminated_app a b :
  terminated a = true →
  PyStr.universal_newlines (a +:+ b)
  = PyStr.universal_newlines a +:+ PyStr.universal_newlines b.
Proof.
  revert b. induction a as [|c a IH]; intros b Ht; [done|].
  destruct a as [|c' a].
  - simpl in Ht. apply Ascii.eqb_eq in Ht as ->. done.
  - specialize (IH b Ht). rewrite !append_cons in *.
    cbn [PyStr.universal_newlines] in *.
    destruct (Ascii.eqb c PyStr.CR).
    + destruct (Ascii.eqb c' PyStr.LF) eqn:Hc'.
      * apply Ascii.eqb_eq in Hc'. subst c'.
        change (Ascii.eqb PyStr.LF PyStr.CR) with false in IH. cbv iota in IH.
        injection IH as IH. by rewrite append_cons, IH.
      * by rewrite append_cons, IH.
    + by rewrite append_cons, IH.
Qed.

Lemma universal_line_free_app u b :
  line_free u = true →
  PyStr.universal_newlines (u +:+ b) = u +:+ PyStr.universal_newlines b.
Proof.
  induction u as [|c u IH]; [done|]. rewrite !append_cons. simpl.
  intros [[Hcr%negb_true_iff _]%andb_true_iff Hu]%andb_true_iff.
  rewrite Hcr. by rewrite IH.
Qed.

Lemma terminated_cons c s : s ≠ "" → terminated (String c s) = terminated s.
Proof. by destruct s. Qed.

Lemma terminated_app a b : b ≠ "" → terminated (a +:+ b) = terminated b.
Proof.
  intros Hb. induction a as [|c a IH]; [done|].
  rewrite append_cons, terminated_cons; [done|]. by destruct a, b.
Qed.

Lemma universal_nonempty s : s ≠ "" → PyStr.universal_newlines s ≠ "".
Proof.
  destruct s as [|c s]; [done|]. intros _. simpl.
  destruct (Ascii.eqb c PyStr.CR); [|done].
  destruct s as [|c' s]; [done|]. by destruct (Ascii.eqb c' PyStr.LF).
Qed.

Lemma terminated_universal s :
  terminated s = true → terminated (PyStr.universal_newlines s) = true.
Proof.
  induction s as [|c s IH]; intros Ht; [done|].
  destruct s as [|c' s].
  - simpl in Ht. apply Ascii.eqb_eq in Ht as ->. done.
  - specialize (IH Ht). cbn [PyStr.universal_newlines] in *.
    destruct (Ascii.eqb c PyStr.CR).
    + destruct (Ascii.eqb c' PyStr.LF) eqn:Hc'.
      * apply Ascii.eqb_eq in Hc'. subst c'.
        change (Ascii.eqb PyStr.LF PyStr.CR) with false in IH. by cbv iota in IH.
      * rewrite terminated_cons; [done|].
        change (PyStr.universal_newlines (String c' s) ≠ "").
        by apply universal_nonempty.
    + rewrite terminated_cons; [done|].
      change (PyStr.universal_newlines (String c' s) ≠ "").
      by apply universal_nonempty.
Qed.

Lemma splitlines_nonempty s : s ≠ "" → PyStr.splitlines_keepends s ≠ [].
Proof.
  destruct s as [|c s]; [done|]. intros _. simpl.
  destruct (Ascii.eqb c PyStr.LF); [done|].
  by destruct (PyStr.splitlines_keepends s).
Qed.

Lemma splitlines_terminated_app a b :
  terminated a = true →
  PyStr.splitlines_keepends (a +:+ b)
  = PyStr.splitlines_keepends a ++ PyStr.splitlines_keepends b.
Proof.
  induction a as [|c a IH]; intros Ht; [done|].
  rewrite append_cons. simpl.
  destruct a as [|c' a].
  - simpl in Ht. rewrite Ht. done.
  - specialize (IH Ht). rewrite IH.
    destruct (Ascii.eqb c PyStr.LF); [done|].
    pose proof (splitlines_nonempty (String c' a) ltac:(done)) as Hne.
    by destruct (PyStr.splitlines_keepends (String c' a)).
Qed.

Lemma splitlines_line u rest :
  line_free u = true →
  PyStr.splitlines_keepends (u +:+ String PyStr.LF rest)
  = (u +:+ String PyStr.LF "") :: PyStr.splitlines_keepends rest.
Proof.
  induction u as [|c u IH]; [done|]. rewrite !append_cons. simpl.
  intros [[_ Hlf%negb_true_iff]%andb_true_iff Hu]%andb_true_iff.
  rewrite Hlf. by rewrite IH.
Qed.

Lemma rstrip_space_end u c :
  PyStr.isspace c = true → PyStr.rstrip (u +:+ String c "") = PyStr.rstrip u.
Proof.
  intros Hc. induction u as [|x u IH].
  - simpl. by rewrite Hc.
  - rewrite append_cons. simpl. by rewrite IH.
Qed.

Lemma lstrip_nonspace_app u b :
  u ≠ "" → PyStr.lstrip u = u → PyStr.lstrip (u +:+ b) = u +:+ b.
Proof.
  destruct u as [|c u]; [done|]. intros _ Hl. rewrite append_cons.
  simpl in *. destruct (PyStr.isspace c) eqn:Hc; [|done].
  exfalso. destruct (lstrip_head u) as [Hu|(c' & r & Hu & Hc')];
    rewrite Hu in Hl; [done|]. injection Hl as -> _. congruence.
Qed.

(** A stored line reads back as itself. *)
Lemma strip_line u :
  u ≠ "" → PyStr.strip u = u → PyStr.strip (u +:+ String PyStr.LF "") = u.
Proof.
  intros Hne Hs. pose proof (lstrip_strip u) as Hl. rewrite Hs in Hl.
  unfold PyStr.strip. rewrite lstrip_nonspace_app by done.
  rewrite rstrip_space_end by done.
  unfold PyStr.strip in Hs. by rewrite Hl in Hs.
Qed.

Lemma eol_read_posix : eol_read Posix = String PyStr.LF "".
Proof. done. Qed.

Lemma eol_read_windows : eol_read Windows = String PyStr.LF (String PyStr.LF "").
Proof. done. Qed.

Lemma written_line pf u :
  line_free u = true →
  PyStr.universal_newlines
    (PyStr.translate_newlines (os_linesep pf) (u +:+ os_linesep pf))
  = u +:+ eol_read pf.
Proof.
  intros Hu. rewrite translate_app, translate_line_free by done.
  by rewrite universal_line_free_app.
Qed.

Lemma written_line_terminated pf u :
  terminated (PyStr.translate_newlines (os_linesep pf) (u +:+ os_linesep pf)) = true.
Proof.
  rewrite translate_app. rewrite terminated_app; by destruct pf.
Qed.

Lemma written_line_parsed pf u :
  line_free u = true → u ≠ "" → PyStr.strip u = u →
  filter (λ u, u ≠ "")
    (PyStr.strip <$> PyStr.splitlines_keepends (u +:+ eol_read pf)) = [u].
Proof.
  intros Hu Hne Hs. destruct pf.
  - rewrite eol_read_windows, splitlines_line by done.
    cbn [PyStr.splitlines_keepends fmap list_fmap Ascii.eqb].
    change (Ascii.eqb PyStr.LF PyStr.LF) with true. cbv iota.
    cbn [fmap list_fmap]. rewrite strip_line by done.
    rewrite filter_cons, decide_True by done. done.
  - rewrite eol_read_posix, splitlines_line by done.
    cbn [PyStr.splitlines_keepends fmap list_fmap].
    rewrite strip_line by done.
    rewrite filter_cons, decide_True by done. done.
Qed.

(** Appending one stored line to a file of whole lines adds one URL to what
    [get_options] reads from it. *)
Lemma parse_urls_append pf c u :
  terminated c = true → line_free u = true → u ≠ "" → PyStr.strip u = u →
  parse_urls (c +:+ PyStr.translate_newlines (os_linesep pf) (u +:+ os_linesep pf))
  = parse_urls c ++ [u].
Proof.
  intros Hc Hu Hne Hs. unfold parse_urls.
  rewrite universal_terminated_app by done.
  rewrite splitlines_terminated_app by by apply terminated_universal.
  rewrite fmap_app, filter_app. f_equal.
  rewrite written_line by done. by apply written_line_parsed.
Qed.

Lemma terminated_append pf c u :
  terminated (c +:+ PyStr.translate_newlines (os_linesep pf) (u +:+ os_linesep pf))
  = true.
Proof.
  rewrite terminated_app; [apply written_line_terminated|].
  rewrite translate_app. destruct pf, (PyStr.translate_newlines _ u); done.
Qed.

(** *** The stored URL *)

Lemma rstrip_strip s : PyStr.rstrip (PyStr.strip s) = PyStr.strip s.
Proof. unfold PyStr.strip. apply rstrip_idem. Qed.

Lemma rstrip_app a s :
  PyStr.rstrip s ≠ "" → PyStr.rstrip (a +:+ s) = a +:+ PyStr.rstrip s.
Proof.
  intros Hs. induction a as [|c a IH]; [done|].
  rewrite !append_cons. simpl. rewrite IH.
  destruct a; [by destruct (PyStr.rstrip s)|done].
Qed.

Lemma line_free_lstrip s : line_free s = true → line_free (PyStr.lstrip s) = true.
Proof.
  induction s as [|c s IH]; [done|]. simpl. intros H.
  destruct (PyStr.isspace c); [|done]. apply IH.
  by apply andb_true_iff in H as [_ ?].
Qed.

Lemma line_free_rstrip s : line_free s = true → line_free (PyStr.rstrip s) = true.
Proof.
  induction s as [|c s IH]; [done|]. simpl.
  intros [Hc Hs]%andb_true_iff. specialize (IH Hs).
  destruct (PyStr.rstrip s) eqn:Hr.
  - destruct (PyStr.isspace c); [done|]. simpl. by rewrite Hc.
  - simpl in *. by rewrite Hc, IH.
Qed.

Lemma line_free_strip s : line_free s = true → line_free (PyStr.strip s) = true.
Proof. intros H. by apply line_free_rstrip, line_free_lstrip. Qed.

Lemma stored_url_cases entry :
  stored_url entry = PyStr.strip entry
  ∨ stored_url entry = "https://" +:+ PyStr.strip entry.
Proof. unfold stored_url. destruct (negb _); tauto. Qed.

Lemma stored_url_nonempty entry : PyStr.strip entry ≠ "" → stored_url entry ≠ "".
Proof. intros H. by destruct (stored_url_cases entry) as [-> | ->]. Qed.

Lemma stored_url_stripped entry :
  PyStr.strip entry ≠ "" → PyStr.strip (stored_url entry) = stored_url entry.
Proof.
  intros H. destruct (stored_url_cases entry) as [-> | ->]; [apply strip_idem|].
  unfold PyStr.strip at 1.
  change (PyStr.lstrip ("https://" +:+ PyStr.strip entry))
    with ("https://" +:+ PyStr.strip entry).
  rewrite rstrip_app; rewrite rstrip_strip; done.
Qed.


(** ** Adding web items *)

Lemma alter_lookup {V} (f : V → V) (m : gmap nat V) i x :
  m !! i = Some x → alter f i m = <[i := f x]> m.
Proof.
  intros Hx. apply map_eq. intros j. destruct (decide (i = j)) as [<-|Hne].
  - by rewrite lookup_alter_eq, lookup_insert_eq, Hx.
  - by rewrite lookup_alter_ne, lookup_insert_ne.
Qed.

Lemma add_web_blank pf o entry st :
  PyStr.strip entry = "" → OptionPage.add_web pf o entry st = (Ok tt, st).
Proof. intros H. unfold OptionPage.add_web. by rewrite H. Qed.

Lemma add_web_run pf o x dir entry st :
  objs st !! o = Some x → data st !! name x = Some dir → PyStr.strip entry ≠ "" →
  OptionPage.add_web pf o entry st
  = (Ok tt, with_web_item pf o x dir (stored_url entry) st).
Proof.
  intros Hx Hdir Hne. unfold OptionPage.add_web.
  apply is_empty_false in Hne. rewrite Hne. fold (stored_url entry).
  unfold bind at 1. rewrite (the_option_ok _ _ _ Hx).
  unfold OptionPage.weburls_path, joinpath, data_folder_path. simpl.
  unfold bind at 1.
  cbv [file.open_a file.store bind get_state modify ret]. rewrite Hdir.
  destruct (dir !! "weburls.txt") as [c|] eqn:Hc; simpl.
  - cbv [file.write file.content file.store bind get_state modify ret].
    rewrite Hdir, Hc. simpl. rewrite Hdir. simpl.
    cbv [OptionApp.__init__ Option.add_app update_option bind get_state modify ret].
    simpl. unfold with_web_item. rewrite Hc. simpl.
    unfold with_objs. simpl. by rewrite (alter_lookup _ _ _ _ Hx).
  - rewrite Hdir. simpl.
    cbv [file.write file.content file.store bind get_state modify ret]. simpl.
    rewrite !lookup_insert_eq. simpl. rewrite !lookup_insert_eq. simpl.
    cbv [OptionApp.__init__ Option.add_app update_option bind get_state modify ret].
    simpl. unfold with_web_item. rewrite Hc. simpl.
    rewrite !insert_insert_eq. unfold with_objs. simpl.
    by rewrite (alter_lookup _ _ _ _ Hx).
Qed.

(** ** Reloading a folder *)

(** After loading a tidy data folder, the folder of each directory holds
    fresh items for the files of that directory. *)
Lemma startup_folder disk d dir :
  tidy disk → disk !! d = Some dir →
  ∃ o start, o ∈ options (startup disk)
    ∧ objs (startup disk) !! o
      = Some (mkOption d (mk_apps start (dir_items d dir (keys dir))) false).
Proof.
  intros Ht Hd. destruct (startup_run disk Ht) as (Hrun & _ & _).
  unfold startup. rewrite Hrun. simpl.
  destruct (load_all_run (keys disk) (boot disk) (boot_sound disk Ht)
              (NoDup_keys disk)) as (_ & _ & _ & _ & _ & Hnew).
  { intros d' Hd'. split; [by apply elem_of_keys|apply boot_no_folder]. }
  destruct (Hnew d) as (o & start & Ho & Hobj).
  { apply elem_of_keys. simpl. by rewrite Hd. }
  simpl in Ho, Hobj. rewrite Hd in Hobj. simpl in Hobj. eauto.
Qed.











(** ** [get_options] always returns *)

Lemma add_option_returns n l st :
  ∃ st', MainPage.add_option n l st = (Ok tt, st')
    ∧ ∀ d dir, data st !! d = Some dir → data st' !! d = Some dir.
Proof.
  destruct (decide (PyStr.strip n = "")) as [He|He].
  { exists st. split; [|done]. unfold MainPage.add_option.
    apply is_empty_true in He. by rewrite He. }
  destruct (MainPage.name_taken st (PyStr.strip n)) eqn:Ht.
  { exists st. split; [|done]. unfold MainPage.add_option.
    apply is_empty_false in He. rewrite He. unfold bind, get_state. by rewrite Ht. }
  apply name_taken_false in Ht. rewrite (add_option_fresh st n l He Ht). cbv zeta.
  destruct (os.isdir (data st) (PyStr.strip n)) eqn:Hd; eexists; (split; [done|]).
  - done.
  - apply isdir_false in Hd.
    intros d dir Hdir. simpl. rewrite lookup_insert_ne; [done|]. congruence.
Qed.

Lemma load_loop_returns names st :
  (∀ d, d ∈ names → is_Some (data st !! d)) →
  ∃ st', for_ names (λ option_name,
           let option_path := joinpath data_folder_path option_name in
           app_names <- os.listdir option_path ;;
           cur_apps <- for_acc app_names [] (MainPage.load_file option_path) ;;
           MainPage.add_option option_name (Some cur_apps)) st
         = (Ok tt, st').
Proof.
  revert st. induction names as [|d names IH]; intros st Hnames; [by exists st|].
  destruct (Hnames d) as [dir Hd]; [left|].
  simpl. unfold bind at 1. unfold bind at 1.
  cbv [os.listdir joinpath data_folder_path bind get_state ret]. simpl. rewrite Hd.
  rewrite (load_dir_run st d dir (keys dir) [] Hd)
    by (intros f Hf; by apply elem_of_keys).
  match goal with
  | |- context [MainPage.add_option d ?l ?s] =>
      destruct (add_option_returns d l s) as (st1 & -> & Hmono)
  end.
  apply IH. intros d' Hd'. destruct (Hnames d') as [dir' Hdir']; [by right|].
  exists dir'. by apply Hmono.
Qed.

Lemma get_options_returns st :
  ∃ st', MainPage.get_options st = (Ok (options st'), st').
Proof.
  unfold MainPage.get_options.
  destruct (load_loop_returns (keys (data st)) (with_options [] st)) as [st' Hrun].
  { intros d Hd. by apply elem_of_keys. }
  exists st'. unfold bind at 1. simpl. unfold bind at 1. simpl.
  unfold bind at 1. fold (keys (data st)). cbv zeta in Hrun. by rewrite Hrun.
Qed.

Lemma get_option_loop_none h option l : MainPage.get_option_loop h option l = None.
Proof.
  revert option. induction l as [|o l IH]; intros option; [done|].
  simpl. destruct (h !! o); simpl; apply IH.
Qed.

Lemma get_option_run option st :
  ∃ st', MainPage.get_option option st = (Ok None, st').
Proof.
  destruct (get_options_returns st) as [st' Hrun]. exists st'.
  unfold MainPage.get_option, bind. rewrite Hrun. simpl.
  by rewrite get_option_loop_none.
Qed.

(** ** The loop of [remove_selected] stops by itself *)

Lemma list_remove_length {A} (same : A → bool) (l l' : list A) :
  list_remove same l = Some l' → length l = S (length l').
Proof.
  intros (l1 & y & l2 & -> & -> & _)%list_remove_split.
  rewrite !length_app. simpl. lia.
Qed.

Lemma os_remove_objs p st : objs (os.remove p st).2 = objs st.
Proof.
  cbv [os.remove bind get_state modify raise]. simpl.
  by repeat case_match.
Qed.

Lemma apps_remove_run option app st o :
  objs st !! option = Some o →
  OptionPage.apps_remove option app st
  = match list_remove (λ a, bool_decide (app_id a = app_id app)) (apps o) with
    | Some l => (Ok tt, with_objs (alter (set_apps l) option) st)
    | None => (Raise ValueError, st)
    end.
Proof.
  intros Ho. unfold OptionPage.apps_remove, bind.
  rewrite (the_option_ok _ _ _ Ho). by destruct (list_remove _ _).
Qed.

Lemma bind_ext_run {A B} (m : M A) (k1 k2 : A → M B) st :
  (∀ a st1, m st = (Ok a, st1) → k1 a st1 = k2 a st1) →
  bind m k1 st = bind m k2 st.
Proof.
  intros H. unfold bind. destruct (m st) as [[a|e] st1]; [by apply H|done].
Qed.

Lemma bind_the_option {A} self o (k : Option → M A) st :
  objs st !! self = Some o → (x <- the_option self ;; k x) st = k o st.
Proof. intros Ho. unfold bind. by rewrite (the_option_ok _ _ _ Ho). Qed.

(** More rounds than the list is long change nothing: the loop has ended
    before, when its index reached the end of the list. *)
Lemma remove_selected_loop_enough rounds k option index urls st o :
  objs st !! option = Some o → length (apps o) ≤ index + rounds →
  OptionPage.remove_selected_loop (rounds + k) option index urls st
  = OptionPage.remove_selected_loop rounds option index urls st.
Proof.
  revert index urls st o.
  induction rounds as [|rounds IH]; intros index urls st o Ho Hlen.
  - destruct k as [|k]; [done|]. simpl.
    rewrite (bind_the_option _ _ _ _ Ho).
    by rewrite (lookup_ge_None_2 (apps o) index) by lia.
  - simpl. rewrite !(bind_the_option _ _ _ _ Ho).
    destruct (apps o !! index) as [app|] eqn:Happ; [|done].
    destruct (app_selected app); simpl; [|apply (IH _ _ _ o); [done|lia]].
    assert (∀ st1 urls1, objs st1 = objs st →
              (OptionPage.apps_remove option app ;;
               OptionPage.remove_selected_loop (rounds + k) option (S index) urls1) st1
              = (OptionPage.apps_remove option app ;;
                 OptionPage.remove_selected_loop rounds option (S index) urls1) st1)
      as Hrest.
    { intros st1 urls1 Hobjs. unfold bind.
      assert (objs st1 !! option = Some o) as Ho1 by by rewrite Hobjs.
      rewrite (apps_remove_run option app st1 o Ho1).
      destruct (list_remove _ (apps o)) as [l|] eqn:Hrm; [|done].
      apply list_remove_length in Hrm.
      apply (IH _ _ _ (set_apps l o)).
      - simpl. by rewrite lookup_alter_eq, Ho1.
      - simpl. lia. }
    destruct (app_type app).
    + apply bind_ext_run. intros [] st1 Hrun. apply Hrest.
      pose proof (os_remove_objs (app_path app) st) as Hobjs.
      by rewrite Hrun in Hobjs.
    + by apply Hrest.
Qed.

(** * Persistence, creation, deletion and lookup *)

(** C4, at a failing input.  The folder "work" holds two web items, both
    ticked.  "Remove all selected" removes the first only: the loop removes
    from the list it is iterating over, so the item that moves into the freed
    position is never visited.  The second item stays in the folder, still
    ticked, and its URL stays in [weburls.txt]. *)
Theorem remove_selected_skips_next :
  (apps <$> objs demo_ticked !! 0)
  = Some [mkOptionApp 1 (Str "https://a.example") web true;
          mkOptionApp 2 (Str "https://b.example") web true]
  ∧ (OptionPage.remove_selected Windows 0 demo_ticked).1 = Ok tt
  ∧ (apps <$> objs (OptionPage.remove_selected Windows 0 demo_ticked).2 !! 0)
    = Some [mkOptionApp 2 (Str "https://b.example") web true]
  ∧ (parse_urls <$>
       (data (OptionPage.remove_selected Windows 0 demo_ticked).2 !! "work"
        ≫= λ dir, dir !! "weburls.txt"))
    = Some ["https://b.example"].
Proof. vm_compute. by repeat split. Qed.

Lemma tidy_insert disk d dir dir' :
  tidy disk → disk !! d = Some dir → tidy (<[d := dir']> disk).
Proof.
  intros Ht Hd d' Hd'. apply Ht. destruct (decide (d = d')) as [<-|Hne]; [eauto|].
  by rewrite lookup_insert_ne in Hd'.
Qed.




(** C6. Creating a folder under a name that is empty once trimmed, or that
    once trimmed is the name of a listed folder, does nothing: the call
    returns normally and the whole state, folders and data folder alike, is
    as it was. *)
Theorem create_folder_invalid_noop (st : State) (entry : string) :
  PyStr.strip entry = "" ∨ folder_named st (PyStr.strip entry) →
  MainPage.add_new_option entry st = (Ok tt, st).
Proof.
  intros H. unfold MainPage.add_new_option, MainPage.add_option.
  destruct (PyStr.is_empty (PyStr.strip entry)) eqn:He; [done|].
  destruct H as [H|H].
  - apply is_empty_false in He. done.
  - apply name_taken_spec in H. unfold bind, get_state. by rewrite H.
Qed.

Lemma create_folder_invalid_noop_witness :
  MainPage.add_new_option "   " demo = (Ok tt, demo)
  ∧ MainPage.add_new_option " work " demo = (Ok tt, demo).
Proof.
  split.
  - apply (create_folder_invalid_noop demo "   "). left. by vm_compute.
  - apply (create_folder_invalid_noop demo " work "). right.
    apply name_taken_spec. by vm_compute.
Defined.




(** C8, as the spec words it, fails: an entry text that carries the scheme
    prefix [ftp://] is not stored unchanged; it is stored behind [https://]
    like a text with no scheme at all. *)
Lemma add_web_other_scheme_prefixed :
  ¬ (∀ (st : State) (o : nat) (x : Option) (dir : gmap string string)
       (entry : string),
       objs st !! o = Some x → data st !! name x = Some dir →
       PyStr.strip entry = entry → entry ≠ "" →
       OptionPage.add_web Windows o entry st
       = (Ok tt, with_web_item Windows o x dir
                   (if url_scheme_prefix entry then entry
                    else "https://" +:+ entry) st)).
Proof.
  intros H.
  specialize (H demo_two 1 (mkOption "play" [] false) new_directory
                "ftp://example.com").
  assert (objs (OptionPage.add_web Windows 1 "ftp://example.com" demo_two).2 !! 1
          = Some (mkOption "play"
                    [mkOptionApp 2 (Str "ftp://example.com") web false] false))
    as Habs.
  { rewrite H; vm_compute; first [reflexivity|discriminate]. }
  vm_compute in Habs. discriminate Habs.
Qed.

(** C8, amended.  For an entry text that once trimmed is not empty,
    [add_web] returns normally, appends one line to [weburls.txt] and one
    web item to the folder, and nothing else.  Line and item hold the
    trimmed text itself when it starts with [http://] or [https://], and
    the trimmed text behind [https://] otherwise. *)
Theorem add_web_stores_http_url (pf : Platform) (st : State) (o : nat)
    (x : Option) (dir : gmap string string) (entry : string) :
  objs st !! o = Some x → data st !! name x = Some dir →
  PyStr.strip entry ≠ "" →
  OptionPage.add_web pf o entry st
  = (Ok tt, with_web_item pf o x dir
              (if PyStr.startswith_any (PyStr.strip entry) ["http://"; "https://"]
               then PyStr.strip entry
               else "https://" +:+ PyStr.strip entry) st).
Proof.
  intros Hx Hdir Hne. rewrite (add_web_run pf o x dir entry st Hx Hdir Hne).
  unfold stored_url. by destruct (PyStr.startswith_any _ _).
Qed.

Lemma add_web_stores_http_url_witness :
  OptionPage.add_web Windows 1 " example.com " demo_two
  = (Ok tt, with_web_item Windows 1 (mkOption "play" [] false) new_directory
              "https://example.com" demo_two)
  ∧ OptionPage.add_web Windows 1 "http://example.com" demo_two
    = (Ok tt, with_web_item Windows 1 (mkOption "play" [] false) new_directory
                "http://example.com" demo_two).
Proof.
  split.
  - apply (add_web_stores_http_url Windows demo_two 1 (mkOption "play" [] false)
             new_directory " example.com ");
      vm_compute; first [reflexivity|discriminate].
  - apply (add_web_stores_http_url Windows demo_two 1 (mkOption "play" [] false)
             new_directory "http://example.com");
      vm_compute; first [reflexivity|discriminate].
Defined.

Lemma tidy_delete disk d : tidy disk → tidy (delete d disk).
Proof.
  intros Ht d' Hd'. apply Ht. rewrite lookup_delete_is_Some in Hd'. tauto.
Qed.

(** C9. In a well-formed state, "Delete Folder" does nothing when no folder
    is selected.  When the folder object [o] is the selected one, the call
    returns normally, [o] is deselected and dropped from both lists, and its
    directory is removed from the data folder with all it held; no listed
    folder carries its name afterwards, and none does after the data folder
    is loaded anew.  The state stays well-formed. *)
Theorem delete_selected_folder (st : State) :
  wf st →
  (Option.first_selected (objs st) (all_ st) = None →
   MainPage.del_selected_option st = (Ok tt, st))
  ∧ (∀ o x,
       Option.first_selected (objs st) (all_ st) = Some o →
       objs st !! o = Some x →
       MainPage.del_selected_option st = (Ok tt, without_folder o (name x) st)
       ∧ is_Some (data st !! name x)
       ∧ data (without_folder o (name x) st) = delete (name x) (data st)
       ∧ (o ∉ options (without_folder o (name x) st))
       ∧ (o ∉ all_ (without_folder o (name x) st))
       ∧ ¬ folder_named (without_folder o (name x) st) (name x)
       ∧ ¬ folder_named (startup (data (without_folder o (name x) st))) (name x)
       ∧ wf (without_folder o (name x) st)).
Proof.
  intros Hwf. split; [apply del_selected_option_none|].
  intros o x Hfirst Hx. pose proof Hwf as [Hs Hm].
  destruct (first_selected_Some _ _ _ Hfirst) as [Ho _].
  rewrite (sound_all _ Hs) in Ho.
  pose proof (wf_without_folder st o x Hwf Ho Hx) as Hwf'.
  assert (¬ folder_named (without_folder o (name x) st) (name x)) as Hgone.
  { intros (o' & x' & Ho' & Hx' & Hn).
    pose proof (sound_backed _ (wf_sound _ Hwf') o' x' Ho' Hx') as Hdir.
    rewrite Hn in Hdir. simpl in Hdir. rewrite lookup_delete_eq in Hdir.
    by destruct Hdir. }
  split_and!; try done.
  - by apply del_selected_option_run.
  - by apply (sound_backed _ Hs o).
  - simpl. intros [Hne _]%list_elem_of_filter. done.
  - simpl. intros [Hne _]%list_elem_of_filter. done.
  - rewrite startup_folders by apply tidy_delete, Hs.
    simpl. rewrite lookup_delete_eq. by intros [? ?].
Qed.

Lemma delete_selected_folder_witness :
  MainPage.del_selected_option (startup ∅) = (Ok tt, startup ∅)
  ∧ MainPage.del_selected_option demo_two
    = (Ok tt, without_folder 0 "work" demo_two)
  ∧ data (without_folder 0 "work" demo_two) = delete "work" (data demo_two)
  ∧ ¬ folder_named (without_folder 0 "work" demo_two) "work"
  ∧ ¬ folder_named (startup (data (without_folder 0 "work" demo_two))) "work".
Proof.
  destruct (delete_selected_folder (startup ∅) (startup_wf ∅ tidy_empty))
    as [Hnone _].
  destruct (delete_selected_folder demo_two demo_two_wf) as [_ Hsome].
  destruct (Hsome 0 (mkOption "work" [] true))
    as (Hrun & _ & Hdata & _ & _ & Hgone & Hreload & _).
  - vm_compute. reflexivity.
  - vm_compute. reflexivity.
  - split_and!; [apply Hnone; vm_compute; reflexivity|done..].
Defined.

(** C10. Whatever it is asked for, [get_option] returns [None]: each round
    of its loop compares the name of a folder with the folder object itself,
    which are never equal.  So [add_site] and [get_apps], which use what
    [get_option] returns, fail with [AttributeError] for every argument. *)
Theorem get_option_never_finds (option : PyVal) (st : State) :
  (MainPage.get_option option st).1 = Ok None
  ∧ (∀ site_url, (MainPage.add_site option site_url st).1 = Raise AttributeError)
  ∧ (MainPage.get_apps option st).1 = Raise AttributeError.
Proof.
  destruct (get_option_run option st) as [st' Hrun]. split_and!.
  - by rewrite Hrun.
  - intros site_url. unfold MainPage.add_site, bind. by rewrite Hrun.
  - unfold MainPage.get_apps, bind. by rewrite Hrun.
Qed.

(** * The two loops of [remove_selected] *)

Lemma list_remove_at (l1 l2 : list OptionApp) a :
  NoDup (app_id <$> (l1 ++ a :: l2)) →
  list_remove (λ y, bool_decide (app_id y = app_id a)) (l1 ++ a :: l2)
  = Some (l1 ++ l2).
Proof.
  induction l1 as [|b l1 IH]; intros Hnd; simpl.
  - by rewrite bool_decide_eq_true_2.
  - simpl in Hnd. apply NoDup_cons in Hnd as [Hb Hnd].
    rewrite bool_decide_eq_false_2.
    + by rewrite IH.
    + intros Heq. apply Hb. rewrite Heq. apply list_elem_of_fmap.
      exists a. split; [done|]. apply elem_of_app. right. left.
Qed.

Lemma set_apps_set_apps l l' x : set_apps l (set_apps l' x) = set_apps l x.
Proof. done. Qed.

Lemma set_apps_same x : set_apps (apps x) x = x.
Proof. by destruct x. Qed.

Lemma os_remove_run a st disk' :
  app_type a = lnk → unlink a (data st) = Some disk' →
  os.remove (app_path a) st = (Ok tt, with_data disk' st).
Proof.
  unfold unlink. intros -> H. cbv [os.remove bind get_state modify raise].
  destruct (app_path a) as [[|d [|f [|? ?]]]|]; try done.
  destruct (data st !! d) as [dir|]; [|done]. simpl in H.
  destruct (dir !! f); [|done]. simpl in H. by injection H as <-.
Qed.

Lemma state_eta st :
  mkState (objs st) (next_id st) (all_ st) (options st) (data st) (launched st) = st.
Proof. by destruct st. Qed.

Lemma loop_at_end rounds o index urls st x :
  objs st !! o = Some x → length (apps x) ≤ index →
  OptionPage.remove_selected_loop rounds o index urls st = (Ok urls, st).
Proof.
  intros Hx Hlen. destruct rounds; [done|]. simpl.
  rewrite (bind_the_option _ _ _ _ Hx). by rewrite lookup_ge_None_2.
Qed.

Lemma loop_step_keep rounds o index urls st x a :
  objs st !! o = Some x → apps x !! index = Some a → app_selected a = false →
  OptionPage.remove_selected_loop (S rounds) o index urls st
  = OptionPage.remove_selected_loop rounds o (S index) urls st.
Proof.
  intros Hx Ha Hsel. simpl. rewrite (bind_the_option _ _ _ _ Hx), Ha.
  by rewrite Hsel.
Qed.

Lemma loop_step_remove rounds o urls st x done a rest disk1 :
  objs st !! o = Some x → apps x = done ++ a :: rest →
  NoDup (app_id <$> (done ++ a :: rest)) →
  app_selected a = true → unlink a (data st) = Some disk1 →
  OptionPage.remove_selected_loop (S rounds) o (length done) urls st
  = OptionPage.remove_selected_loop rounds o (S (length done))
      (urls ++ web_urls [a])
      (mkState (<[o := set_apps (done ++ rest) x]> (objs st)) (next_id st)
         (all_ st) (options st) disk1 (launched st)).
Proof.
  intros Hx Happs Hnd Hsel Hun. simpl.
  rewrite (bind_the_option _ _ _ _ Hx), Happs, list_lookup_middle by done.
  rewrite Hsel. simpl negb. cbv iota.
  assert (∀ st1, objs st1 = objs st →
            OptionPage.apps_remove o a st1
            = (Ok (), with_objs (λ _, <[o := set_apps (done ++ rest) x]> (objs st)) st1))
    as Hrm.
  { intros st1 Hobjs.
    assert (objs st1 !! o = Some x) as Hx1 by by rewrite Hobjs.
    rewrite (apps_remove_run o a st1 x Hx1), Happs, list_remove_at by done.
    unfold with_objs. by rewrite Hobjs, (alter_lookup _ _ _ _ Hx). }
  unfold web_urls. rewrite filter_cons, filter_nil.
  destruct (app_type a) eqn:Hty.
  - rewrite decide_False by done. simpl. rewrite app_nil_r.
    unfold bind at 1. rewrite (os_remove_run a st disk1 Hty Hun).
    unfold bind at 1. by rewrite Hrm.
  - rewrite decide_True by done. simpl.
    unfold unlink in Hun. rewrite Hty in Hun. injection Hun as <-.
    unfold bind at 1. rewrite Hrm by done. done.
Qed.

Lemma NoDup_ids_skip (done : list OptionApp) a b rest :
  NoDup (app_id <$> (done ++ a :: b :: rest)) →
  NoDup (app_id <$> ((done ++ [b]) ++ rest)).
Proof.
  rewrite <- app_assoc. simpl. rewrite !fmap_app. simpl.
  intros (H1 & H2 & H3)%NoDup_app. apply NoDup_cons in H3 as [_ H3].
  apply NoDup_app. split_and!; try done.
  intros y Hy Hy2. apply (H2 y Hy). by right.
Qed.

Lemma remove_selected_loop_run rounds o :
  ∀ done rest urls st x disk',
    objs st !! o = Some x → apps x = done ++ rest →
    NoDup (app_id <$> (done ++ rest)) → length rest ≤ rounds →
    unlink_all (removed rest) (data st) = Some disk' →
    OptionPage.remove_selected_loop rounds o (length done) urls st
    = (Ok (urls ++ web_urls (removed rest)),
       mkState (<[o := set_apps (done ++ survivors rest) x]> (objs st))
         (next_id st) (all_ st) (options st) disk' (launched st)).
Proof.
  induction rounds as [|rounds IH]; intros done rest urls st x disk' Hx Happs Hnd Hlen Hun.
  - destruct rest; [|simpl in Hlen; lia]. simpl in *. injection Hun as <-.
    rewrite !app_nil_r. rewrite app_nil_r in Happs. rewrite <- Happs, set_apps_same.
    rewrite insert_id by done. by rewrite state_eta.
  - destruct rest as [|a rest].
    { rewrite (loop_at_end _ _ _ _ _ x) by (rewrite ?Happs, ?app_nil_r; done).
      simpl in *. injection Hun as <-. rewrite !app_nil_r.
      rewrite app_nil_r in Happs. rewrite <- Happs, set_apps_same.
      rewrite insert_id by done. by rewrite state_eta. }
    simpl in Hlen. simpl survivors. simpl removed. simpl removed in Hun.
    destruct (app_selected a) eqn:Hsel.
    + simpl in Hun. destruct (unlink a (data st)) as [disk1|] eqn:Hun1; [|done].
      simpl in Hun.
      rewrite (loop_step_remove rounds o urls st x done a rest disk1) by done.
      destruct rest as [|b rest].
      * simpl in Hun. injection Hun as <-.
        rewrite (loop_at_end _ _ _ _ _ (set_apps (done ++ []) x)).
        -- by rewrite !app_nil_r.
        -- simpl. by rewrite lookup_insert_eq.
        -- simpl. rewrite app_nil_r. lia.
      * replace (S (length done)) with (length (done ++ [b]))
          by (rewrite length_app; simpl; lia).
        rewrite (IH (done ++ [b]) rest _ _ (set_apps (done ++ b :: rest) x) disk').
        -- simpl. rewrite insert_insert_eq, set_apps_set_apps, <- !app_assoc. simpl.
           unfold web_urls. rewrite <- fmap_app, <- filter_app. done.
        -- simpl. by rewrite lookup_insert_eq.
        -- simpl. by rewrite <- app_assoc.
        -- by apply (NoDup_ids_skip done a).
        -- simpl in Hlen. lia.
        -- done.
    + rewrite (loop_step_keep rounds o (length done) urls st x a);
        [|done|by rewrite Happs, list_lookup_middle|done].
      replace (S (length done)) with (length (done ++ [a]))
        by (rewrite length_app; simpl; lia).
      rewrite (IH (done ++ [a]) rest urls st x disk'); try done.
      * by rewrite <- !app_assoc.
      * by rewrite <- app_assoc.
      * by rewrite <- app_assoc.
      * lia.
Qed.

Lemma keep_urls_run pf d f rm lines :
  ∀ st dir c0,
    data st !! d = Some dir → dir !! f = Some c0 →
    for_ lines (OptionPage.keep_url pf [d; f] rm) st
    = (Ok tt,
       with_data
         (<[d := <[f := c0 +:+ render_urls pf
                           (kept_urls rm (filter (λ u, u ≠ "") (PyStr.strip <$> lines)))]>
                   dir]> (data st)) st).
Proof.
  induction lines as [|line lines IH]; intros st dir c0 Hd Hf.
  - simpl. rewrite append_nil_r, (insert_id dir), (insert_id (data st)) by done.
    unfold ret, with_data. by rewrite state_eta.
  - simpl. unfold bind. unfold OptionPage.keep_url at 1.
    rewrite filter_cons.
    destruct (PyStr.is_empty (PyStr.strip line)) eqn:He.
    + apply is_empty_true in He. rewrite decide_False by tauto.
      unfold ret at 1. by apply IH.
    + apply is_empty_false in He. rewrite decide_True by done.
      unfold kept_urls. rewrite filter_cons. fold (kept_urls rm).
      case_bool_decide as Hin.
      * rewrite decide_True by done.
        cbv [file.write file.content file.store bind get_state modify ret].
        rewrite Hd, Hf. simpl. rewrite Hd. simpl.
        rewrite (IH _ (<[f := c0 +:+ PyStr.translate_newlines (os_linesep pf)
                                        (PyStr.strip line +:+ os_linesep pf)]> dir)
                   (c0 +:+ PyStr.translate_newlines (os_linesep pf)
                             (PyStr.strip line +:+ os_linesep pf))).
        -- simpl. unfold with_data. simpl.
           by rewrite !insert_insert_eq, append_assoc.
        -- simpl. by rewrite lookup_insert_eq.
        -- by rewrite lookup_insert_eq.
      * rewrite decide_False by (by intros []). unfold ret at 1. by apply IH.
Qed.

Lemma render_urls_snoc pf l u :
  render_urls pf (l ++ [u])
  = render_urls pf l
    +:+ PyStr.translate_newlines (os_linesep pf) (u +:+ os_linesep pf).
Proof.
  induction l as [|v l IH]; simpl.
  - by rewrite append_nil_r.
  - by rewrite IH, append_assoc.
Qed.

Lemma render_urls_terminated pf l : terminated (render_urls pf l) = true.
Proof.
  induction l as [|u l _] using rev_ind; [done|].
  rewrite render_urls_snoc. apply terminated_append.
Qed.

Lemma parse_render_urls pf l :
  Forall (λ u, line_free u = true ∧ u ≠ "" ∧ PyStr.strip u = u) l →
  parse_urls (render_urls pf l) = l.
Proof.
  induction l as [|u l IH] using rev_ind; intros Hl; [done|].
  apply Forall_app in Hl as [Hl Hu]. apply Forall_singleton in Hu as (H1 & H2 & H3).
  rewrite render_urls_snoc, parse_urls_append;
    [|apply render_urls_terminated|done..].
  by rewrite IH.
Qed.

Lemma universal_no_cr s : no_cr (PyStr.universal_newlines s) = true.
Proof.
  induction s as [|c s IH]; [done|].
  destruct s as [|c' s].
  - simpl. by destruct (Ascii.eqb c PyStr.CR) eqn:Hc; simpl; rewrite ?Hc.
  - cbn [PyStr.universal_newlines] in *.
    destruct (Ascii.eqb c PyStr.CR) eqn:Hc.
    + destruct (Ascii.eqb c' PyStr.LF) eqn:Hc'.
      * apply Ascii.eqb_eq in Hc'. subst c'.
        change (Ascii.eqb PyStr.LF PyStr.CR) with false in IH. cbv iota in IH.
        simpl in IH. done.
      * simpl. done.
    + simpl. by rewrite Hc.
Qed.

Lemma splitlines_shape t line :
  no_cr t = true → line ∈ PyStr.splitlines_keepends t →
  ∃ v, line_free v = true ∧ (line = v ∨ line = v +:+ String PyStr.LF "").
Proof.
  revert line. induction t as [|c t IH]; intros line Ht Hin; [by apply elem_of_nil in Hin|].
  simpl in Ht. apply andb_true_iff in Ht as [Hc Ht]. simpl in Hin.
  destruct (Ascii.eqb c PyStr.LF) eqn:Hlf.
  - apply elem_of_cons in Hin as [->|Hin]; [|by apply IH].
    exists "". split; [done|by right].
  - destruct (PyStr.splitlines_keepends t) as [|l ls] eqn:Hs.
    + apply list_elem_of_singleton in Hin as ->. exists (String c "").
      split; [|by left]. simpl. by rewrite Hc, Hlf.
    + apply elem_of_cons in Hin as [->|Hin].
      * destruct (IH l Ht) as (v & Hv & Hl); [left|].
        exists (String c v). split; [simpl; by rewrite Hc, Hlf, Hv|].
        destruct Hl as [->| ->]; [by left|by right].
      * apply IH; [done|by right].
Qed.

Lemma lstrip_app v w :
  PyStr.lstrip (v +:+ w)
  = if PyStr.is_empty (PyStr.lstrip v) then PyStr.lstrip w else PyStr.lstrip v +:+ w.
Proof.
  induction v as [|c v IH]; [done|]. rewrite append_cons. simpl.
  destruct (PyStr.isspace c); [done|]. simpl. by rewrite append_cons.
Qed.

Lemma strip_newline v : PyStr.strip (v +:+ String PyStr.LF "") = PyStr.strip v.
Proof.
  unfold PyStr.strip. rewrite lstrip_app.
  destruct (PyStr.lstrip v) as [|c s]; [done|].
  cbn [PyStr.is_empty]. by apply rstrip_space_end.
Qed.

Lemma parse_urls_good c :
  Forall (λ u, line_free u = true ∧ u ≠ "" ∧ PyStr.strip u = u) (parse_urls c).
Proof.
  apply Forall_forall. intros u Hu. unfold parse_urls in Hu.
  apply list_elem_of_filter in Hu as [Hne Hu].
  apply list_elem_of_fmap in Hu as (line & -> & Hline).
  split_and!; [|done|apply strip_idem].
  destruct (splitlines_shape _ line (universal_no_cr c) Hline) as (v & Hv & [->| ->]).
  - by apply line_free_strip.
  - rewrite strip_newline. by apply line_free_strip.
Qed.

Lemma remove_selected_run pf o st x disk1 dir1 c1 :
  objs st !! o = Some x →
  NoDup (app_id <$> apps x) →
  unlink_all (removed (apps x)) (data st) = Some disk1 →
  disk1 !! name x = Some dir1 →
  dir1 !! "weburls.txt" = Some c1 →
  OptionPage.remove_selected pf o st
  = (Ok tt,
     mkState (<[o := set_apps (survivors (apps x)) x]> (objs st)) (next_id st)
       (all_ st) (options st)
       (<[name x :=
            <["weburls.txt" :=
                render_urls pf
                  (kept_urls (web_urls (removed (apps x))) (parse_urls c1))]> dir1]>
          disk1)
       (launched st)).
Proof.
  intros Ho Hnd Hun Hd Hf. unfold OptionPage.remove_selected.
  rewrite (bind_the_option _ _ _ _ Ho).
  unfold bind at 1.
  pose proof (remove_selected_loop_run (length (apps x)) o [] (apps x) [] st x disk1
                Ho eq_refl Hnd (le_n _) Hun) as Hloop.
  cbn [length app] in Hloop. rewrite Hloop. clear Hloop.
  unfold bind at 1.
  unfold OptionPage.weburls_path, joinpath, data_folder_path. cbn [app].
  rewrite (file_readlines_run _ _ _ dir1 c1) by done.
  unfold bind at 1. cbv [file.open_w file.store bind get_state modify ret].
  cbn [data]. rewrite Hd. cbn [with_data].
  rewrite (keep_urls_run _ _ _ _ _ _ (<["weburls.txt" := ""]> dir1) "");
    [|simpl; by rewrite lookup_insert_eq|by rewrite lookup_insert_eq].
  unfold with_data. cbn. by rewrite !insert_insert_eq.
Qed.

Lemma survivors_spaced l : spaced l = true → survivors l = unticked l.
Proof.
  unfold unticked. induction l as [|a r IH]; [done|]. intros Hs.
  assert (spaced r = true) as Hr.
  { simpl in Hs. destruct r; [done|]. by apply andb_true_iff in Hs as [_ ?]. }
  rewrite filter_cons. cbn [survivors].
  destruct (app_selected a) eqn:Ha.
  - rewrite decide_False by done. destruct r as [|b r']; [done|].
    rewrite <- (IH Hr). cbn [spaced] in Hs. rewrite Ha in Hs.
    destruct (app_selected b) eqn:Hb; [done|]. cbn [survivors]. by rewrite Hb.
  - rewrite decide_True by done. by rewrite IH.
Qed.

Lemma removed_spaced l : spaced l = true → removed l = ticked l.
Proof.
  unfold ticked. induction l as [|a r IH]; [done|]. intros Hs.
  assert (spaced r = true) as Hr.
  { simpl in Hs. destruct r; [done|]. by apply andb_true_iff in Hs as [_ ?]. }
  cbn [removed].
  destruct (app_selected a) eqn:Ha.
  - rewrite filter_cons_True by by rewrite Ha.
    f_equal. destruct r as [|b r']; [done|].
    rewrite <- (IH Hr). cbn [spaced] in Hs. rewrite Ha in Hs.
    destruct (app_selected b) eqn:Hb; [done|]. cbn [removed]. by rewrite Hb.
  - rewrite filter_cons_False by (rewrite Ha; intros []). by rewrite IH.
Qed.


Lemma kept_urls_web (W : list OptionApp) :
  NoDup (app_path <$> W) →
  filter (λ p, p ∉ app_path <$> ticked W) (app_path <$> W)
  = app_path <$> unticked W.
Proof.
  unfold ticked, unticked. induction W as [|a W IH]; [done|]. intros Hnd.
  rewrite fmap_cons in Hnd. apply NoDup_cons in Hnd as [Ha Hnd].
  rewrite fmap_cons. destruct (app_selected a) eqn:Hsel.
  - rewrite (filter_cons_True (λ app, app_selected app) a) by by rewrite Hsel.
    rewrite (filter_cons_False (λ app, app_selected app = false)) by by rewrite Hsel.
    rewrite fmap_cons, filter_cons_False by (intros H; apply H; left).
    rewrite <- (IH Hnd). apply filter_ext_elem.
    intros p Hp. rewrite not_elem_of_cons. split; [tauto|].
    intros H. split; [|done]. by intros ->.
  - rewrite (filter_cons_False (λ app, app_selected app)) by (rewrite Hsel; intros []).
    rewrite (filter_cons_True (λ app, app_selected app = false)) by done.
    rewrite fmap_cons, filter_cons_True.
    + by rewrite (IH Hnd).
    + intros Hin. apply Ha.
      apply list_elem_of_fmap in Hin as (b & -> & Hb).
      apply list_elem_of_filter in Hb as [_ Hb].
      apply list_elem_of_fmap. by exists b.
Qed.

Lemma filter_web_ticked l :
  filter (λ a, app_type a = web) (ticked l) = ticked (filter (λ a, app_type a = web) l).
Proof. unfold ticked. rewrite !list_filter_filter. apply list_filter_iff. tauto. Qed.

Lemma filter_web_unticked l :
  filter (λ a, app_type a = web) (unticked l)
  = unticked (filter (λ a, app_type a = web) l).
Proof. unfold unticked. rewrite !list_filter_filter. apply list_filter_iff. tauto. Qed.

Lemma kept_urls_fmap rm l :
  Str <$> kept_urls rm l = filter (λ p, p ∉ rm) (Str <$> l).
Proof.
  unfold kept_urls. induction l as [|u l IH]; [done|].
  rewrite fmap_cons, !filter_cons. case_decide; [by rewrite fmap_cons, IH|done].
Qed.

(** * What the buttons of a folder's page do *)

(** X1. "Remove all selected", in full.  Take a folder whose item objects
    are distinct.  The first loop walks the live list by index: an unticked
    item is kept; a ticked item is removed and the item that follows it moves
    into its position and is kept without being looked at ([survivors] are
    the items kept, [removed] the items removed).  When the shortcut files of
    the removed programs exist and [weburls.txt] exists, the call returns,
    the folder holds the survivors, the shortcuts are deleted, and
    [weburls.txt] is rewritten to hold, one per line, those of its URLs that
    are not the URL of a removed web item; reading the new file gives these
    URLs back. *)
Theorem remove_selected_effect (pf : Platform) (o : nat) (st : State) (x : Option)
    (disk1 : gmap string (gmap string string)) (dir1 : gmap string string)
    (c1 : string) :
  objs st !! o = Some x →
  NoDup (app_id <$> apps x) →
  unlink_all (removed (apps x)) (data st) = Some disk1 →
  disk1 !! name x = Some dir1 →
  dir1 !! "weburls.txt" = Some c1 →
  OptionPage.remove_selected pf o st
  = (Ok tt,
     mkState (<[o := set_apps (survivors (apps x)) x]> (objs st)) (next_id st)
       (all_ st) (options st)
       (<[name x :=
            <["weburls.txt" :=
                render_urls pf
                  (kept_urls (web_urls (removed (apps x))) (parse_urls c1))]> dir1]>
          disk1)
       (launched st))
  ∧ parse_urls (render_urls pf (kept_urls (web_urls (removed (apps x))) (parse_urls c1)))
    = kept_urls (web_urls (removed (apps x))) (parse_urls c1).
Proof.
  intros Ho Hnd Hun Hd Hf. split; [by apply remove_selected_run|].
  apply parse_render_urls. unfold kept_urls.
  apply Forall_forall. intros u Hu. apply list_elem_of_filter in Hu as [_ Hu].
  pose proof (parse_urls_good c1) as Hgood.
  rewrite Forall_forall in Hgood. by apply Hgood.
Qed.

Lemma remove_selected_effect_witness :
  OptionPage.remove_selected Windows 0 demo_ticked
  = (Ok tt,
     mkState
       {[0 := mkOption "work" [mkOptionApp 2 (Str "https://b.example") web true] false]}
       3 [0] [0]
       {["work" := {["weburls.txt" := render_urls Windows ["https://b.example"]]}]}
       [])
  ∧ parse_urls (render_urls Windows ["https://b.example"]) = ["https://b.example"].
Proof.
  destruct (remove_selected_effect Windows 0 demo_ticked
              (mkOption "work"
                 [mkOptionApp 1 (Str "https://a.example") web true;
                  mkOptionApp 2 (Str "https://b.example") web true] false)
              (data demo_ticked)
              (default ∅ (data demo_ticked !! "work"))
              (default "" (default ∅ (data demo_ticked !! "work") !! "weburls.txt")))
    as [Hrun Hparse].
  - vm_compute. reflexivity.
  - apply NoDup_ListNoDup. repeat constructor; simpl; lia.
  - vm_compute. reflexivity.
  - vm_compute. reflexivity.
  - vm_compute. reflexivity.
  - split; [rewrite Hrun; vm_compute; reflexivity|vm_compute; reflexivity].
Defined.

Lemma remove_selected_spaced_run pf o st x disk1 dir1 c1 :
  objs st !! o = Some x →
  NoDup (app_id <$> apps x) →
  spaced (apps x) = true →
  unlink_all (ticked (apps x)) (data st) = Some disk1 →
  disk1 !! name x = Some dir1 →
  dir1 !! "weburls.txt" = Some c1 →
  ∃ c',
    OptionPage.remove_selected pf o st
    = (Ok tt,
       mkState (<[o := set_apps (unticked (apps x)) x]> (objs st)) (next_id st)
         (all_ st) (options st)
         (<[name x := <["weburls.txt" := c']> dir1]> disk1) (launched st))
    ∧ parse_urls c'
      = filter (λ u, Str u ∉ web_urls (ticked (apps x))) (parse_urls c1).
Proof.
  intros Ho Hnd Hsp Hun Hd Hf.
  rewrite <- (removed_spaced _ Hsp) in Hun |- *.
  rewrite <- (survivors_spaced _ Hsp).
  exists (render_urls pf (kept_urls (web_urls (removed (apps x))) (parse_urls c1))).
  split; [by apply remove_selected_run|].
  apply parse_render_urls. unfold kept_urls.
  apply Forall_forall. intros u Hu. apply list_elem_of_filter in Hu as [_ Hu].
  pose proof (parse_urls_good c1) as Hgood.
  rewrite Forall_forall in Hgood. by apply Hgood.
Qed.

(** X2. "Remove all selected" does what its label says when no two ticked
    items are next to each other: the folder then holds exactly its unticked
    items, in order, the shortcuts of the ticked programs are deleted, and
    the URLs left in [weburls.txt] are those that are not the URL of a
    ticked web item. *)
Theorem remove_selected_spaced (pf : Platform) (o : nat) (st : State) (x : Option)
    (disk1 : gmap string (gmap string string)) (dir1 : gmap string string)
    (c1 : string) :
  objs st !! o = Some x →
  NoDup (app_id <$> apps x) →
  spaced (apps x) = true →
  unlink_all (ticked (apps x)) (data st) = Some disk1 →
  disk1 !! name x = Some dir1 →
  dir1 !! "weburls.txt" = Some c1 →
  ∃ c',
    OptionPage.remove_selected pf o st
    = (Ok tt,
       mkState (<[o := set_apps (unticked (apps x)) x]> (objs st)) (next_id st)
         (all_ st) (options st)
         (<[name x := <["weburls.txt" := c']> dir1]> disk1) (launched st))
    ∧ parse_urls c'
      = filter (λ u, Str u ∉ web_urls (ticked (apps x))) (parse_urls c1).
Proof. apply remove_selected_spaced_run. Qed.

Lemma remove_selected_spaced_witness :
  ∃ c',
    OptionPage.remove_selected Windows 0 demo_mixed
    = (Ok tt,
       mkState
         {[0 := mkOption "work" [mkOptionApp 2 (Str "https://a.example") web false]
                  false]}
         4 [0] [0] {["work" := {["weburls.txt" := c']}]} [])
    ∧ parse_urls c' = ["https://a.example"].
Proof.
  destruct (remove_selected_spaced Windows 0 demo_mixed
              (mkOption "work"
                 [mkOptionApp 1 (PurePath ["work"; "chrome.lnk"]) lnk true;
                  mkOptionApp 2 (Str "https://a.example") web false;
                  mkOptionApp 3 (Str "https://b.example") web true] false)
              {["work" := {["weburls.txt" :=
                              default "" (default ∅ (data demo_mixed !! "work")
                                          !! "weburls.txt")]}]}
              {["weburls.txt" :=
                  default "" (default ∅ (data demo_mixed !! "work") !! "weburls.txt")]}
              (default "" (default ∅ (data demo_mixed !! "work") !! "weburls.txt")))
    as (c' & Hrun & Hparse).
  - vm_compute. reflexivity.
  - apply NoDup_ListNoDup. repeat constructor; simpl; lia.
  - reflexivity.
  - vm_compute. reflexivity.
  - vm_compute. reflexivity.
  - vm_compute. reflexivity.
  - exists c'. split; [rewrite Hrun; vm_compute; reflexivity|].
    rewrite Hparse. vm_compute. reflexivity.
Defined.

(** X3. "Remove all selected" keeps a folder and its [weburls.txt] in step.
    If the web items of the folder are the URLs of the file, no URL occurs
    twice, and no two ticked items are next to each other, then after the
    call the web items of the folder are again the URLs of the file. *)
Theorem remove_selected_in_sync (pf : Platform) (o : nat) (st : State) (x : Option)
    (disk1 : gmap string (gmap string string)) (dir1 : gmap string string)
    (c1 : string) :
  objs st !! o = Some x →
  NoDup (app_id <$> apps x) →
  spaced (apps x) = true →
  unlink_all (ticked (apps x)) (data st) = Some disk1 →
  disk1 !! name x = Some dir1 →
  dir1 !! "weburls.txt" = Some c1 →
  web_urls (apps x) = Str <$> parse_urls c1 →
  NoDup (web_urls (apps x)) →
  (OptionPage.remove_selected pf o st).1 = Ok tt
  ∧ ∃ x' dir' c',
      objs (OptionPage.remove_selected pf o st).2 !! o = Some x'
      ∧ name x' = name x
      ∧ apps x' = unticked (apps x)
      ∧ data (OptionPage.remove_selected pf o st).2 !! name x = Some dir'
      ∧ dir' !! "weburls.txt" = Some c'
      ∧ web_urls (apps x') = Str <$> parse_urls c'.
Proof.
  intros Ho Hnd Hsp Hun Hd Hf Hsync Hurls.
  destruct (remove_selected_spaced_run pf o st x disk1 dir1 c1)
    as (c' & Hrun & Hparse); [done..|].
  rewrite Hrun. split; [done|].
  exists (set_apps (unticked (apps x)) x), (<["weburls.txt" := c']> dir1), c'.
  cbn [snd objs data]. rewrite !lookup_insert_eq.
  split_and!; [done..|]. cbn [set_apps apps].
  rewrite Hparse. fold (kept_urls (web_urls (ticked (apps x))) (parse_urls c1)).
  rewrite kept_urls_fmap, <- Hsync.
  unfold web_urls. rewrite filter_web_ticked, filter_web_unticked.
  symmetry. by apply kept_urls_web.
Qed.

Lemma remove_selected_in_sync_witness :
  (OptionPage.remove_selected Windows 0 demo_mixed).1 = Ok tt
  ∧ ∃ x' dir' c',
      objs (OptionPage.remove_selected Windows 0 demo_mixed).2 !! 0 = Some x'
      ∧ name x' = "work"
      ∧ apps x' = [mkOptionApp 2 (Str "https://a.example") web false]
      ∧ data (OptionPage.remove_selected Windows 0 demo_mixed).2 !! "work" = Some dir'
      ∧ dir' !! "weburls.txt" = Some c'
      ∧ web_urls (apps x') = Str <$> parse_urls c'.
Proof.
  apply (remove_selected_in_sync Windows 0 demo_mixed
           (mkOption "work"
              [mkOptionApp 1 (PurePath ["work"; "chrome.lnk"]) lnk true;
               mkOptionApp 2 (Str "https://a.example") web false;
               mkOptionApp 3 (Str "https://b.example") web true] false)
           {["work" := {["weburls.txt" :=
                           default "" (default ∅ (data demo_mixed !! "work")
                                       !! "weburls.txt")]}]}
           {["weburls.txt" :=
               default "" (default ∅ (data demo_mixed !! "work") !! "weburls.txt")]}
           (default "" (default ∅ (data demo_mixed !! "work") !! "weburls.txt"))).
  - vm_compute. reflexivity.
  - apply NoDup_ListNoDup. repeat constructor; simpl; lia.
  - reflexivity.
  - vm_compute. reflexivity.
  - vm_compute. reflexivity.
  - vm_compute. reflexivity.
  - vm_compute. reflexivity.
  - apply NoDup_ListNoDup. vm_compute. repeat constructor; simpl; intuition congruence.
Defined.



(** * What each callback leaves alone *)

Global Instance unchanged_preorder {B} (part : State → B) : PreOrder (unchanged part).
Proof. split; [by intros st|]. intros st1 st2 st3 H1 H2. unfold unchanged in *. congruence. Qed.

Ltac frame_unfold :=
  intros ?;
  cbv [os.path_isdir os.listdir os.mkdir os.remove os.startfile delete_directory
       open_web file.content file.store file.open_x file.open_a file.open_w
       file.write file.readlines the_option update_option OptionApp.__init__
       OptionApp.run OptionApp.create_lnk
       Option.__init__ Option.select Option.deselect Option.get_selected
       Option.add_app OptionPage.click_app OptionPage.apps_remove
       bind get_state modify raise ret unchanged];
  repeat case_match; simplify_eq; cbn [fst snd].

Ltac frame_with tac :=
  repeat (first [ solve [frame_unfold; tac]
                | apply keeps_try_except; [tc_solve| |]
                | keeps_step ]).

Section Frame.
Context {B : Type} (part : State → B).
Hypothesis part_objs : ∀ f st, part (with_objs f st) = part st.
Hypothesis part_next_id : ∀ n st, part (with_next_id n st) = part st.
Hypothesis part_data : ∀ d st, part (with_data d st) = part st.

Ltac frame := frame_with ltac:(rewrite ?part_objs, ?part_next_id, ?part_data; reflexivity).

Lemma remove_selected_loop_frame rounds option index urls :
  keeps (unchanged part) (OptionPage.remove_selected_loop rounds option index urls).
Proof.
  revert index urls. induction rounds as [|rounds IH]; intros index urls; simpl.
  - frame.
  - frame; apply IH.
Qed.

Lemma remove_selected_frame pf option :
  keeps (unchanged part) (OptionPage.remove_selected pf option).
Proof.
  unfold OptionPage.remove_selected. frame.
  - apply remove_selected_loop_frame.
  - unfold OptionPage.keep_url. frame.
Qed.

Lemma add_web_frame pf option entry :
  keeps (unchanged part) (OptionPage.add_web pf option entry).
Proof. unfold OptionPage.add_web. frame. Qed.

Lemma add_exe_frame option file :
  keeps (unchanged part) (OptionPage.add_exe option file).
Proof. unfold OptionPage.add_exe. frame. Qed.

End Frame.

Section FrameObjects.
Context {B : Type} (part : State → B).
Hypothesis part_objs : ∀ f st, part (with_objs f st) = part st.

Ltac frame := frame_with ltac:(rewrite ?part_objs; reflexivity).

Lemma on_click_frame self : keeps (unchanged part) (Option.on_click self).
Proof. unfold Option.on_click. frame. Qed.

Lemma click_app_frame option index :
  keeps (unchanged part) (OptionPage.click_app option index).
Proof. frame. Qed.

End FrameObjects.

Section FrameLaunches.
Context {B : Type} (part : State → B).
Hypothesis part_launched : ∀ l st, part (with_launched l st) = part st.

Ltac frame := frame_with ltac:(rewrite ?part_launched; reflexivity).

Lemma run_selected_option_frame : keeps (unchanged part) MainPage.run_selected_option.
Proof.
  unfold MainPage.run_selected_option, MainPage.get_selected_option,
    MainPage.run_option, Option.run_all.
  frame.
Qed.

Lemma run_selected_frame option : keeps (unchanged part) (OptionPage.run_selected option).
Proof. unfold OptionPage.run_selected, Option.run_selected. frame. Qed.

End FrameLaunches.

Lemma add_new_option_launched entry :
  keeps (unchanged launched) (MainPage.add_new_option entry).
Proof.
  unfold MainPage.add_new_option, MainPage.add_option.
  frame_with ltac:(reflexivity).
Qed.

Lemma del_selected_option_launched :
  keeps (unchanged launched) MainPage.del_selected_option.
Proof.
  unfold MainPage.del_selected_option, MainPage.get_selected_option,
    MainPage.del_option, Option.delete.
  frame_with ltac:(reflexivity).
Qed.

(** X5. Nothing is launched except through the two run buttons: every
    other callback, whether it returns or raises, leaves the record of
    launches as it was. *)
Theorem launches_only_from_run (pf : Platform) (ev : event) (st : State) :
  is_run ev = false → launched (handle pf ev st).2 = launched st.
Proof.
  intros Hev. destruct ev; try discriminate Hev; cbn [handle].
  - apply add_new_option_launched.
  - apply del_selected_option_launched.
  - by apply (on_click_frame launched).
  - by apply (click_app_frame launched).
  - by apply (add_exe_frame launched).
  - by apply (add_web_frame launched).
  - by apply (remove_selected_frame launched).
Qed.

Lemma launches_only_from_run_witness :
  launched (handle Windows (RemoveSelected 0) demo_mixed).2 = [].
Proof.
  rewrite (launches_only_from_run Windows (RemoveSelected 0) demo_mixed).
  - vm_compute. reflexivity.
  - reflexivity.
Defined.

(** X6. Clicks and runs never touch the data folder: selecting a folder,
    ticking an item and both run buttons leave every directory and file as
    it was, and hand out no identity. *)
Theorem clicks_and_runs_keep_disk (pf : Platform) (ev : event) (st : State) :
  is_disk_event ev = false →
  data (handle pf ev st).2 = data st ∧ next_id (handle pf ev st).2 = next_id st.
Proof.
  intros Hev. destruct ev; try discriminate Hev; cbn [handle].
  - split; by apply (run_selected_option_frame _).
  - split; by apply (on_click_frame _).
  - split; by apply (click_app_frame _).
  - split; by apply (run_selected_frame _).
Qed.

Lemma clicks_and_runs_keep_disk_witness :
  data (handle Windows (ClickFolder 1) demo_two).2 = data demo_two
  ∧ next_id (handle Windows (ClickFolder 1) demo_two).2 = 2.
Proof.
  destruct (clicks_and_runs_keep_disk Windows (ClickFolder 1) demo_two) as [Hd Hn].
  - reflexivity.
  - split; [exact Hd|]. rewrite Hn. vm_compute. reflexivity.
Defined.

(** X7. Folders come and go only through "Create Folder" and "Delete
    Folder": every other callback, whether it returns or raises, leaves
    [Option.__all__] and [MainPage.options] as they were. *)
Theorem registry_only_from_overview (pf : Platform) (ev : event) (st : State) :
  is_registry_event ev = false →
  all_ (handle pf ev st).2 = all_ st ∧ options (handle pf ev st).2 = options st.
Proof.
  intros Hev. destruct ev; try discriminate Hev; cbn [handle].
  - split; by apply (run_selected_option_frame _).
  - split; by apply (on_click_frame _).
  - split; by apply (click_app_frame _).
  - split; by apply (add_exe_frame _).
  - split; by apply (add_web_frame _).
  - split; by apply (remove_selected_frame _).
  - split; by apply (run_selected_frame _).
Qed.

Lemma registry_only_from_overview_witness :
  all_ (handle Windows (RemoveSelected 0) demo_mixed).2 = [0]
  ∧ options (handle Windows (RemoveSelected 0) demo_mixed).2 = [0].
Proof.
  destruct (registry_only_from_overview Windows (RemoveSelected 0) demo_mixed)
    as [Ha Ho].
  - reflexivity.
  - rewrite Ha, Ho. vm_compute. split; reflexivity.
Defined.

(** X8. A run changes nothing but the record of launches: folders, items,
    ticks, selection and the data folder are as before, whether the run
    returns or raises. *)
Theorem run_changes_only_launches (pf : Platform) (ev : event) (st : State) :
  is_run ev = true →
  with_launched (launched st) (handle pf ev st).2 = st.
Proof.
  intros Hev.
  assert (∀ st', unchanged (λ s, (objs s, next_id s, all_ s, options s, data s)) st st' →
                 with_launched (launched st) st' = st) as Heta.
  { intros [] Hst'. destruct st. unfold unchanged in Hst'. simpl in *.
    by simplify_eq. }
  apply Heta.
  destruct ev; try discriminate Hev; cbn [handle].
  - by apply (run_selected_option_frame _).
  - by apply (run_selected_frame _).
Qed.

Lemma run_changes_only_launches_witness :
  with_launched [] (handle Windows RunFolder demo).2 = demo.
Proof.
  change [] with (launched demo).
  apply (run_changes_only_launches Windows RunFolder demo). reflexivity.
Defined.

(** * Items *)

Lemma lnk_name_not_weburls stem : stem +:+ ".lnk" ≠ "weburls.txt".
Proof.
  intros H.
  do 11 (destruct stem as [|? stem];
         [cbv in H; discriminate H|rewrite append_cons in H; injection H as _ H]).
  destruct stem; cbv in H; discriminate H.
Qed.

Lemma add_exe_run o x dir file st :
  objs st !! o = Some x → data st !! name x = Some dir →
  OptionPage.add_exe o (Some file) st = (Ok tt, with_program_item o x dir file st).
Proof.
  intros Ho Hd. unfold OptionPage.add_exe.
  rewrite (bind_the_option _ _ _ _ Ho).
  cbv [OptionApp.create_lnk joinpath data_folder_path app file.store
       OptionApp.__init__ Option.add_app update_option bind get_state modify ret].
  rewrite Hd. cbn. unfold with_program_item, with_objs. cbn.
  by rewrite (alter_lookup _ _ _ _ Ho).
Qed.

Lemma add_exe_no_directory o x file st :
  objs st !! o = Some x → data st !! name x = None →
  OptionPage.add_exe o (Some file) st = (Raise FileNotFoundError, st).
Proof.
  intros Ho Hd. unfold OptionPage.add_exe.
  rewrite (bind_the_option _ _ _ _ Ho).
  cbv [OptionApp.create_lnk joinpath data_folder_path app file.store
       bind get_state modify ret raise].
  by rewrite Hd.
Qed.

Lemma add_exe_no_object o file st :
  objs st !! o = None →
  OptionPage.add_exe o (Some file) st = (Raise AttributeError, st).
Proof.
  intros Ho. cbv [OptionPage.add_exe the_option bind get_state raise]. by rewrite Ho.
Qed.

Lemma add_web_no_directory pf o x entry st :
  objs st !! o = Some x → data st !! name x = None → PyStr.strip entry ≠ "" →
  OptionPage.add_web pf o entry st = (Raise FileNotFoundError, st).
Proof.
  intros Ho Hd Hne. unfold OptionPage.add_web.
  apply is_empty_false in Hne. rewrite Hne.
  rewrite (bind_the_option _ _ _ _ Ho).
  cbv [OptionPage.weburls_path joinpath data_folder_path app file.open_a
       bind get_state raise].
  by rewrite Hd.
Qed.

Lemma add_web_no_object pf o entry st :
  objs st !! o = None → PyStr.strip entry ≠ "" →
  OptionPage.add_web pf o entry st = (Raise AttributeError, st).
Proof.
  intros Ho Hne. unfold OptionPage.add_web.
  apply is_empty_false in Hne. rewrite Hne.
  cbv [the_option bind get_state raise]. by rewrite Ho.
Qed.

Global Instance keeps_items_preorder : PreOrder keeps_items.
Proof.
  split; [intros st H; exact H|]. intros st1 st2 st3 H1 H2 H. by apply H2, H1.
Qed.

Lemma folder_ok_mono n n' x : n ≤ n' → folder_ok n x → folder_ok n' x.
Proof.
  intros Hn (Hnd & Hlt & Hok). split_and!; [done| |done].
  eapply Forall_impl; [exact Hlt|]. intros a. simpl. lia.
Qed.

Lemma items_ok_frame st st' :
  objs st' = objs st → next_id st ≤ next_id st' → items_ok st → items_ok st'.
Proof.
  intros Ho Hn Hok o x Hx. rewrite Ho in Hx.
  eapply folder_ok_mono; [exact Hn|]. by apply (Hok o).
Qed.

Lemma items_ok_update self f st :
  (∀ x, objs st !! self = Some x →
        folder_ok (next_id st) x → folder_ok (next_id st) (f x)) →
  items_ok st → items_ok (with_objs (alter f self) st).
Proof.
  intros Hf Hok o x. cbn. rewrite lookup_alter. case_decide as Ho.
  - subst. destruct (objs st !! o) as [y|] eqn:Hy; [|done].
    intros [= <-]. by apply Hf, (Hok o).
  - apply Hok.
Qed.

Lemma items_ok_insert o x st :
  folder_ok (next_id st) x → items_ok st → items_ok (with_objs (<[o := x]>) st).
Proof.
  intros Hx Hok o' x'. cbn. destruct (decide (o = o')) as [<-|Hne].
  - rewrite lookup_insert_eq. by intros [= <-].
  - rewrite lookup_insert_ne by done. apply Hok.
Qed.

Lemma folder_ok_selected n b x : folder_ok n x → folder_ok n (set_selected b x).
Proof. done. Qed.

Lemma item_ok_select_app d a : item_ok d a → item_ok d (OptionApp.select_app a).
Proof. unfold item_ok, OptionApp.select_app. by destruct (app_selected a). Qed.

Lemma select_app_id a : app_id (OptionApp.select_app a) = app_id a.
Proof. unfold OptionApp.select_app. by destruct (app_selected a). Qed.

Lemma folder_ok_click n i x :
  folder_ok n x → folder_ok n (set_apps (alter OptionApp.select_app i (apps x)) x).
Proof.
  intros (Hnd & Hlt & Hok). unfold folder_ok. cbn [apps name set_apps].
  split_and!.
  - rewrite (list_fmap_alter _ _ id).
    + by rewrite list_alter_id.
    + apply Forall_forall. intros a _. apply select_app_id.
  - apply Forall_alter; [done|]. intros a _. by rewrite select_app_id.
  - apply Forall_alter; [done|]. intros a _. apply item_ok_select_app.
Qed.

Lemma folder_ok_remove n same x l :
  list_remove same (apps x) = Some l → folder_ok n x → folder_ok n (set_apps l x).
Proof.
  intros Hl (Hnd & Hlt & Hok).
  apply list_remove_split in Hl as (l1 & y & l2 & Hx & -> & _).
  unfold folder_ok. cbn [apps name set_apps]. rewrite Hx in *.
  rewrite fmap_app in *. rewrite fmap_cons in Hnd.
  apply NoDup_app in Hnd as (H1 & H2 & H3). apply NoDup_cons in H3 as [_ H3].
  apply Forall_app in Hlt as [Hlt1 Hlt2]. apply Forall_cons in Hlt2 as [_ Hlt2].
  apply Forall_app in Hok as [Hok1 Hok2]. apply Forall_cons in Hok2 as [_ Hok2].
  split_and!.
  - apply NoDup_app. split_and!; [done| |done].
    intros i Hi Hi'. apply (H2 i Hi). by right.
  - by apply Forall_app.
  - by apply Forall_app.
Qed.

Lemma folder_ok_add n x a :
  folder_ok n x → app_id a = n → item_ok (name x) a →
  folder_ok (S n) (set_apps (apps x ++ [a]) x).
Proof.
  intros (Hnd & Hlt & Hok) Hid Ha. unfold folder_ok. cbn [apps name set_apps].
  split_and!.
  - rewrite fmap_app. apply NoDup_app. split_and!; [done| |apply NoDup_singleton].
    intros i Hi Hi'. apply list_elem_of_singleton in Hi'. subst i.
    apply list_elem_of_fmap in Hi as (b & Hb & Hin).
    rewrite Forall_forall in Hlt. specialize (Hlt b Hin). lia.
  - apply Forall_app. split.
    + eapply Forall_impl; [exact Hlt|]. intros b. simpl. lia.
    + apply Forall_singleton. lia.
  - apply Forall_app. split; [done|by apply Forall_singleton].
Qed.

Lemma items_ok_add o x a st objs' d l :
  items_ok st → objs st !! o = Some x →
  app_id a = next_id st → item_ok (name x) a →
  objs' = <[o := set_apps (apps x ++ [a]) x]> (objs st) →
  items_ok (mkState objs' (S (next_id st)) (all_ st) (options st) d l).
Proof.
  intros Hok Ho Hid Ha -> o' x'. cbn. destruct (decide (o = o')) as [<-|Hne].
  - rewrite lookup_insert_eq. intros [= <-].
    apply folder_ok_add; [by apply (Hok o)|done..].
  - rewrite lookup_insert_ne by done. intros Hx'.
    eapply folder_ok_mono; [|by apply (Hok o')]. lia.
Qed.

Lemma add_web_items pf o entry : keeps keeps_items (OptionPage.add_web pf o entry).
Proof.
  intros st Hok.
  destruct (decide (PyStr.strip entry = "")) as [He|He].
  { by rewrite add_web_blank. }
  destruct (objs st !! o) as [x|] eqn:Ho.
  2: { by rewrite add_web_no_object. }
  destruct (data st !! name x) as [dir|] eqn:Hd.
  2: { by rewrite (add_web_no_directory _ _ x). }
  rewrite (add_web_run _ _ x dir) by done. cbn [snd]. unfold with_web_item.
  apply (items_ok_add o x (mkOptionApp (next_id st) (Str (stored_url entry)) web false)
           st); [done..| |done].
  exists (stored_url entry).
  split_and!; [done|by apply stored_url_stripped|by apply stored_url_nonempty].
Qed.

Lemma add_exe_items o file : keeps keeps_items (OptionPage.add_exe o file).
Proof.
  intros st Hok. destruct file as [file|]; [|done].
  destruct (objs st !! o) as [x|] eqn:Ho.
  2: { by rewrite add_exe_no_object. }
  destruct (data st !! name x) as [dir|] eqn:Hd.
  2: { by rewrite (add_exe_no_directory _ x). }
  rewrite (add_exe_run _ x dir) by done. cbn [snd]. unfold with_program_item.
  apply (items_ok_add o x
           (mkOptionApp (next_id st) (PurePath [name x; file_stem file +:+ ".lnk"])
              lnk false) st); [done..| |done].
  exists (file_stem file +:+ ".lnk"). split; [done|apply lnk_name_not_weburls].
Qed.

Ltac items_prim :=
  frame_unfold; intros ?;
  first [ assumption
        | eapply items_ok_frame; [| |eassumption]; [reflexivity|cbn; lia]
        | apply items_ok_update; [|assumption];
          first [ intros ? _; apply folder_ok_selected
                | intros ? _; apply folder_ok_click
                | intros ? ? ?; simplify_eq; eapply folder_ok_remove; eassumption ] ].

Ltac keeps_its :=
  repeat (first [ solve [items_prim]
                | apply keeps_try_except; [tc_solve| |]
                | keeps_step ]).

Lemma remove_selected_loop_items rounds option index urls :
  keeps keeps_items (OptionPage.remove_selected_loop rounds option index urls).
Proof.
  revert index urls. induction rounds as [|rounds IH]; intros index urls; simpl.
  - keeps_its.
  - keeps_its; apply IH.
Qed.

Lemma remove_selected_items pf option :
  keeps keeps_items (OptionPage.remove_selected pf option).
Proof.
  unfold OptionPage.remove_selected. keeps_its.
  - apply remove_selected_loop_items.
  - unfold OptionPage.keep_url. keeps_its.
Qed.

Lemma Option_init_items n : keeps keeps_items (Option.__init__ n []).
Proof.
  intros st Hok. cbv [Option.__init__ bind get_state modify ret]. cbn [snd].
  intros o x. cbn. destruct (decide (next_id st = o)) as [<-|Hne].
  - rewrite lookup_insert_eq. intros [= <-]. split_and!; [apply NoDup_nil_2|done..].
  - rewrite lookup_insert_ne by done. intros Hx.
    eapply folder_ok_mono; [|by apply (Hok o)]. lia.
Qed.

Lemma add_new_option_items entry : keeps keeps_items (MainPage.add_new_option entry).
Proof.
  unfold MainPage.add_new_option, MainPage.add_option.
  keeps_its; apply Option_init_items.
Qed.

Lemma del_selected_option_items : keeps keeps_items MainPage.del_selected_option.
Proof.
  unfold MainPage.del_selected_option, MainPage.get_selected_option,
    MainPage.del_option, Option.delete.
  keeps_its.
Qed.

Lemma handle_items pf ev : keeps keeps_items (handle pf ev).
Proof.
  destruct ev; cbn [handle].
  - apply add_new_option_items.
  - apply del_selected_option_items.
  - unfold MainPage.run_selected_option, MainPage.get_selected_option,
      MainPage.run_option, Option.run_all. keeps_its.
  - unfold Option.on_click. keeps_its.
  - keeps_its.
  - apply add_exe_items.
  - apply add_web_items.
  - apply remove_selected_items.
  - unfold OptionPage.run_selected, Option.run_selected. keeps_its.
Qed.

Lemma mk_apps_ids start items :
  app_id <$> mk_apps start items = seq start (length items).
Proof.
  revert start. induction items as [|[p t] items IH]; intros start; [done|].
  simpl. by rewrite IH.
Qed.

Lemma mk_apps_elem start items a :
  a ∈ mk_apps start items →
  (app_path a, app_type a) ∈ items ∧ app_id a < start + length items
  ∧ app_selected a = false.
Proof.
  revert start. induction items as [|[p t] items IH]; intros start Ha.
  - by apply elem_of_nil in Ha.
  - simpl in Ha. apply elem_of_cons in Ha as [->|Ha].
    + simpl. split_and!; [left|lia|done].
    + destruct (IH _ Ha) as (H1 & H2 & H3). simpl. split_and!; [by right|lia|done].
Qed.

Lemma dir_items_elem d dir names p t :
  (p, t) ∈ dir_items d dir names →
  (t = lnk ∧ ∃ f, f ∈ names ∧ is_Some (dir !! f) ∧ p = PurePath [d; f]
                  ∧ f ≠ "weburls.txt")
  ∨ (t = web ∧ ∃ u c, dir !! "weburls.txt" = Some c ∧ p = Str u ∧ u ∈ parse_urls c).
Proof.
  unfold dir_items. intros Hin. apply list_elem_of_bind in Hin as (f & Hin & Hf).
  destruct (dir !! f) as [c|] eqn:Hc; [|by apply elem_of_nil in Hin].
  unfold file_items in Hin. case_bool_decide as Hw.
  - subst f. apply list_elem_of_fmap in Hin as (u & [= -> ->] & Hu).
    right. split; [done|]. by exists u, c.
  - apply list_elem_of_singleton in Hin as [= -> ->].
    left. split; [done|]. exists f. by rewrite Hc.
Qed.

Lemma parse_urls_elem c u : u ∈ parse_urls c → PyStr.strip u = u ∧ u ≠ "".
Proof.
  intros Hu. pose proof (parse_urls_good c) as Hgood.
  rewrite Forall_forall in Hgood. by destruct (Hgood u Hu) as (_ & ? & ?).
Qed.

Lemma load_folder_items_ok disk st d : items_ok st → items_ok (load_folder disk st d).
Proof.
  intros Hok o x. unfold load_folder, with_folder. cbn.
  set (items := dir_items d (default ∅ (disk !! d)) (keys (default ∅ (disk !! d)))).
  destruct (decide (next_id st + length items = o)) as [<-|Hne].
  - rewrite lookup_insert_eq. intros [= <-]. unfold folder_ok. cbn [apps name].
    split_and!.
    + rewrite mk_apps_ids. apply NoDup_seq.
    + apply Forall_forall. intros a Ha. apply mk_apps_elem in Ha. lia.
    + apply Forall_forall. intros a Ha. apply mk_apps_elem in Ha as (Ha & _).
      apply dir_items_elem in Ha as [(Ht & f & _ & _ & Hp & Hf)|(Ht & u & c & _ & Hp & Hu)];
        unfold item_ok; rewrite Ht.
      * by exists f.
      * exists u. split; [done|]. by apply (parse_urls_elem c).
  - rewrite lookup_insert_ne by done. intros Hx.
    eapply folder_ok_mono; [|by apply (Hok o)]. lia.
Qed.

Lemma load_all_items_ok disk names st : items_ok st → items_ok (load_all disk names st).
Proof.
  revert st. induction names as [|d names IH]; intros st Hok; [done|].
  apply IH. by apply load_folder_items_ok.
Qed.

Lemma startup_items_ok disk : tidy disk → items_ok (startup disk).
Proof.
  intros Ht. unfold startup. destruct (startup_run disk Ht) as (-> & _).
  cbn [snd]. apply load_all_items_ok. intros o x Hx. simpl in Hx.
  by rewrite lookup_empty in Hx.
Qed.

Lemma reachable_items pf disk st : tidy disk → reachable pf disk st → items_ok st.
Proof.
  intros Ht. induction 1 as [|st ev _ IH _].
  - by apply startup_items_ok.
  - by apply handle_items.
Qed.

(** X9. The items of every folder stay in order through every run of the
    program on a tidy data folder, exceptions included: the item objects of a
    folder are distinct, a program item holds the path of a file of the
    folder's own directory other than [weburls.txt], and a web item holds a
    URL that is trimmed and not empty. *)
Theorem reachable_items_ok (pf : Platform) (disk : gmap string (gmap string string))
    (st : State) (o : nat) (x : Option) :
  tidy disk → reachable pf disk st → objs st !! o = Some x →
  NoDup (app_id <$> apps x) ∧ Forall (item_ok (name x)) (apps x).
Proof.
  intros Ht Hr Hx. destruct (reachable_items pf disk st Ht Hr o x Hx) as (? & _ & ?).
  by split.
Qed.

Lemma reachable_items_ok_witness :
  NoDup (app_id <$> [mkOptionApp 1 (PurePath ["work"; "chrome.lnk"]) lnk true;
                     mkOptionApp 2 (Str "https://a.example") web false;
                     mkOptionApp 3 (Str "https://b.example") web true])
  ∧ Forall (item_ok "work")
      [mkOptionApp 1 (PurePath ["work"; "chrome.lnk"]) lnk true;
       mkOptionApp 2 (Str "https://a.example") web false;
       mkOptionApp 3 (Str "https://b.example") web true].
Proof.
  apply (reachable_items_ok Windows ∅ demo_mixed 0
           (mkOption "work"
              [mkOptionApp 1 (PurePath ["work"; "chrome.lnk"]) lnk true;
               mkOptionApp 2 (Str "https://a.example") web false;
               mkOptionApp 3 (Str "https://b.example") web true] false)).
  - apply tidy_empty.
  - apply reachable_run_events; [apply reach_startup|].
    vm_compute. repeat split; apply list_elem_of_here.
  - vm_compute. reflexivity.
Defined.

(** X10. In every state the program reaches from a tidy data folder,
    [get_name] returns for every item of every folder: the file name of a
    program item's shortcut, the URL of a web item.  The [AttributeError]
    that [self.path.name] raises on a string never occurs. *)
Theorem get_name_returns (pf : Platform) (disk : gmap string (gmap string string))
    (st : State) (o : nat) (x : Option) (a : OptionApp) :
  tidy disk → reachable pf disk st → objs st !! o = Some x → a ∈ apps x →
  ∃ s, OptionApp.get_name a = Ok (Str s)
       ∧ app_path a = match app_type a with
                      | lnk => PurePath [name x; s]
                      | web => Str s
                      end.
Proof.
  intros Ht Hr Hx Ha. destruct (reachable_items pf disk st Ht Hr o x Hx) as (_ & _ & Hok).
  rewrite Forall_forall in Hok. specialize (Hok a Ha).
  unfold item_ok in Hok. unfold OptionApp.get_name.
  destruct (app_type a).
  - destruct Hok as (f & -> & _). by exists f.
  - destruct Hok as (u & -> & _). by exists u.
Qed.

Lemma get_name_returns_witness :
  ∃ s, OptionApp.get_name (mkOptionApp 1 (PurePath ["work"; "chrome.lnk"]) lnk true)
       = Ok (Str s)
       ∧ PurePath ["work"; "chrome.lnk"] = PurePath ["work"; s].
Proof.
  apply (get_name_returns Windows ∅ demo_mixed 0
           (mkOption "work"
              [mkOptionApp 1 (PurePath ["work"; "chrome.lnk"]) lnk true;
               mkOptionApp 2 (Str "https://a.example") web false;
               mkOptionApp 3 (Str "https://b.example") web true] false)
           (mkOptionApp 1 (PurePath ["work"; "chrome.lnk"]) lnk true)).
  - apply tidy_empty.
  - apply reachable_run_events; [apply reach_startup|].
    vm_compute. repeat split; apply list_elem_of_here.
  - vm_compute. reflexivity.
  - apply list_elem_of_here.
Defined.

(** * The overview and the data folder *)



Lemma mk_apps_items start items :
  (λ a, (app_path a, app_type a)) <$> mk_apps start items = items.
Proof.
  revert start. induction items as [|[p t] items IH]; intros start; [done|].
  simpl. by rewrite IH.
Qed.

Lemma mk_apps_unticked start items :
  Forall (λ a, app_selected a = false) (mk_apps start items).
Proof.
  apply Forall_forall. intros a Ha. by apply mk_apps_elem in Ha as (_ & _ & ?).
Qed.

Lemma dir_items_lnk d dir f :
  (PurePath [d; f], lnk) ∈ dir_items d dir (keys dir)
  ↔ is_Some (dir !! f) ∧ f ≠ "weburls.txt".
Proof.
  split.
  - intros Hin. apply dir_items_elem in Hin as [(_ & f' & _ & Hf & [= ->] & Hne)|(? & _)];
      [done|discriminate].
  - intros [[c Hc] Hne]. unfold dir_items. apply list_elem_of_bind.
    exists f. split; [|apply elem_of_keys; eauto].
    rewrite Hc. unfold file_items. rewrite bool_decide_eq_false_2 by done.
    apply list_elem_of_here.
Qed.

(** X12. What [get_options] makes of a directory when the program starts
    on a tidy data folder.  The data folder itself is left as it is.  Each
    directory becomes one listed folder of the same name, not selected, with
    no item ticked; its items are, in the order of the directory's files, a
    web item for each URL of [weburls.txt] and a program item for each other
    file; so every file other than [weburls.txt] is a program item, and
    every program item is such a file. *)
Theorem startup_loads_directory (disk : gmap string (gmap string string))
    (d : string) (dir : gmap string string) :
  tidy disk → disk !! d = Some dir →
  data (startup disk) = disk
  ∧ ∃ o x,
      o ∈ options (startup disk) ∧ objs (startup disk) !! o = Some x
      ∧ name x = d ∧ selected x = false
      ∧ Forall (λ a, app_selected a = false) (apps x)
      ∧ (λ a, (app_path a, app_type a)) <$> apps x = dir_items d dir (keys dir)
      ∧ ∀ f, (∃ a, a ∈ apps x ∧ app_type a = lnk ∧ app_path a = PurePath [d; f])
             ↔ is_Some (dir !! f) ∧ f ≠ "weburls.txt".
Proof.
  intros Ht Hd. split.
  { unfold startup. by destruct (startup_run disk Ht) as (-> & _ & ?). }
  destruct (startup_folder disk d dir Ht Hd) as (o & start & Ho & Hx).
  eexists o, _. split_and!; [done|exact Hx|done|done|..]; cbn [apps].
  - apply mk_apps_unticked.
  - apply mk_apps_items.
  - intros f. rewrite <- dir_items_lnk. split.
    + intros (a & Ha & Hty & Hp). apply mk_apps_elem in Ha as (Ha & _).
      by rewrite Hty, Hp in Ha.
    + intros Hin. rewrite <- (mk_apps_items start) in Hin.
      apply list_elem_of_fmap in Hin as (a & [= Hp Hty] & Ha). by exists a.
Qed.

Lemma startup_loads_directory_witness :
  data (startup {["work" := {["chrome.lnk" := "C:/apps/chrome.exe"]}]})
  = {["work" := {["chrome.lnk" := "C:/apps/chrome.exe"]}]}
  ∧ ∃ o x,
      o ∈ options (startup {["work" := {["chrome.lnk" := "C:/apps/chrome.exe"]}]})
      ∧ objs (startup {["work" := {["chrome.lnk" := "C:/apps/chrome.exe"]}]}) !! o
        = Some x
      ∧ name x = "work" ∧ selected x = false
      ∧ Forall (λ a, app_selected a = false) (apps x)
      ∧ (λ a, (app_path a, app_type a)) <$> apps x
        = dir_items "work" {["chrome.lnk" := "C:/apps/chrome.exe"]}
            (keys ({["chrome.lnk" := "C:/apps/chrome.exe"]} : gmap string string))
      ∧ ∀ f, (∃ a, a ∈ apps x ∧ app_type a = lnk
                   ∧ app_path a = PurePath ["work"; f])
             ↔ is_Some (({["chrome.lnk" := "C:/apps/chrome.exe"]} : gmap string string)
                          !! f)
               ∧ f ≠ "weburls.txt".
Proof.
  apply (startup_loads_directory
           {["work" := {["chrome.lnk" := "C:/apps/chrome.exe"]}]} "work"
           {["chrome.lnk" := "C:/apps/chrome.exe"]}).
  - intros d [dir Hd]. apply lookup_singleton_Some in Hd as [<- _].
    split; [vm_compute; reflexivity|discriminate].
  - apply lookup_singleton_eq.
Defined.

Lemma blind_ret {A} (a : A) : blind (ret a).
Proof. done. Qed.

Lemma blind_bind {A B} (m : M A) (k : A → M B) :
  blind m → (∀ a, blind (k a)) → blind (bind m k).
Proof.
  intros Hm Hk pre st. unfold bind. rewrite Hm.
  destruct (m st) as [[a|e] st1]; simpl; [apply Hk|done].
Qed.

Lemma blind_for {A} (l : list A) body : (∀ x, blind (body x)) → blind (for_ l body).
Proof.
  intros Hb. induction l as [|x l IH]; simpl; [done|]. by apply blind_bind.
Qed.

Lemma blind_for_acc {A B} (l : list A) (acc : B) body :
  (∀ x acc, blind (body x acc)) → blind (for_acc l acc body).
Proof.
  intros Hb. revert acc. induction l as [|x l IH]; intros acc; simpl; [done|].
  by apply blind_bind.
Qed.

Ltac blind_prim :=
  intros ? [];
  cbv [os.path_isdir os.listdir os.mkdir file.content file.store file.open_x
       file.readlines OptionApp.__init__ Option.__init__
       bind get_state modify raise ret prepend
       with_all with_data with_next_id with_objs with_options
       objs next_id all_ options data launched fst snd];
  repeat (case_match; simplify_eq; cbv [fst snd] in * );
  rewrite <- ?(assoc_L (++)); reflexivity.

Lemma load_file_blind option_path app_name cur_apps :
  blind (MainPage.load_file option_path app_name cur_apps).
Proof.
  unfold MainPage.load_file. case_bool_decide.
  - apply blind_bind; [blind_prim|]. intros urls.
    apply blind_for_acc. intros url acc. unfold MainPage.load_url.
    destruct (PyStr.is_empty _); [done|].
    apply blind_bind; [blind_prim|done].
  - apply blind_bind; [blind_prim|done].
Qed.

Lemma blind_test {A} (f : State → bool) (m1 m2 : M A) :
  (∀ pre st, f (prepend pre st) = f st) → blind m1 → blind m2 →
  blind (st <- get_state ;; if f st then m1 else m2).
Proof.
  intros Hf H1 H2 pre st. unfold bind, get_state. cbn [fst snd].
  rewrite Hf. destruct (f st); [apply H1|apply H2].
Qed.

Lemma add_option_blind n l : blind (MainPage.add_option n l).
Proof.
  unfold MainPage.add_option. destruct (PyStr.is_empty _); [done|].
  apply (blind_test (λ st, MainPage.name_taken st (PyStr.strip n))); [done|done|].
  apply blind_bind; [blind_prim|]. intros self.
  apply blind_bind; [blind_prim|]. intros _.
  apply blind_bind; [blind_prim|]. intros [].
  - done.
  - apply blind_bind; [blind_prim|]. intros _. blind_prim.
Qed.

Lemma load_loop_blind names :
  blind
    (for_ names (λ option_name,
       let option_path := joinpath data_folder_path option_name in
       app_names <- os.listdir option_path ;;
       cur_apps <- for_acc app_names [] (MainPage.load_file option_path) ;;
       MainPage.add_option option_name (Some cur_apps))).
Proof.
  apply blind_for. intros d. cbv zeta.
  apply blind_bind; [blind_prim|]. intros app_names.
  apply blind_bind; [|intros cur_apps; apply add_option_blind].
  apply blind_for_acc. intros f acc. apply load_file_blind.
Qed.

Lemma load_folder_old disk st d o :
  o < next_id st → objs (load_folder disk st d) !! o = objs st !! o.
Proof.
  intros Ho. unfold load_folder, with_folder. cbn.
  rewrite lookup_insert_ne; [done|]. lia.
Qed.

Lemma load_all_new disk names :
  ∀ st,
    next_id st ≤ next_id (load_all disk names st)
    ∧ (∀ o, o < next_id st → objs (load_all disk names st) !! o = objs st !! o)
    ∧ ∃ l, options (load_all disk names st) = options st ++ l
           ∧ length l = length names
           ∧ Forall (λ o, next_id st ≤ o) l.
Proof.
  induction names as [|d names IH]; intros st.
  - split_and!; [done..|]. exists []. by rewrite app_nil_r.
  - cbn [load_all foldl]. fold (load_all disk names (load_folder disk st d)).
    destruct (IH (load_folder disk st d)) as (Hn & Hold & l & Hl & Hlen & Hnew).
    assert (next_id st < next_id (load_folder disk st d)) as Hlt.
    { unfold load_folder, with_folder. cbn. lia. }
    split_and!.
    + lia.
    + intros o Ho. rewrite Hold by lia. by apply load_folder_old.
    + eexists (_ :: l). split_and!.
      * rewrite Hl. unfold load_folder at 1, with_folder. cbn [options].
        by rewrite <- app_assoc.
      * simpl. by rewrite Hlen.
      * constructor; [cbn; lia|].
        eapply Forall_impl; [exact Hnew|]. intros o. cbn. lia.
Qed.

(** X13. [get_options] loads on top of what is there.  On a tidy data
    folder, in a state whose identities were handed out in order, it returns
    and leaves the data folder as it is.  It makes one new folder object for
    every directory, with the items of the directory's files, and lists
    exactly these in [MainPage.options].  It empties [MainPage.options] but
    not [Option.__all__]: the new objects are registered after the objects
    that were registered before, which stay registered and are left as they
    were.  So a second call registers every folder once more. *)
Theorem get_options_registers_again (st : State) :
  tidy (data st) → fresh st →
  ∃ st', MainPage.get_options st = (Ok (options st'), st')
    ∧ data st' = data st
    ∧ all_ st' = all_ st ++ options st'
    ∧ NoDup (options st')
    ∧ length (options st') = length (keys (data st))
    ∧ (∀ o, o ∈ options st' → next_id st ≤ o)
    ∧ (∀ o, o < next_id st → objs st' !! o = objs st !! o)
    ∧ (∀ d, folder_named st' d ↔ is_Some (data st !! d))
    ∧ (∀ d dir, data st !! d = Some dir →
         ∃ o start, o ∈ options st'
           ∧ objs st' !! o
             = Some (mkOption d (mk_apps start (dir_items d dir (keys dir))) false)).
Proof.
  intros Ht Hfresh.
  set (st0 := with_all [] (with_options [] st)).
  assert (sound st0) as Hs0.
  { split.
    - exact Hfresh.
    - done.
    - apply NoDup_nil_2.
    - intros o Ho. by apply elem_of_nil in Ho.
    - intros o o' x x' Ho. by apply elem_of_nil in Ho.
    - intros o x Ho. by apply elem_of_nil in Ho.
    - exact Ht. }
  destruct (load_all_run (keys (data st)) st0 Hs0 (NoDup_keys _))
    as (Hrun & Hs & Hdata & Hnamed & _ & Hitems).
  { intros d Hd. split; [by apply elem_of_keys|].
    intros (o & x & Ho & _). by apply elem_of_nil in Ho. }
  destruct (load_all_new (data st) (keys (data st)) st0) as (_ & Hold & l & Hl & Hlen & Hnew).
  change (data st0) with (data st) in *.
  set (stL := load_all (data st) (keys (data st)) st0) in *.
  exists (prepend (all_ st) stL).
  assert (with_options [] st = prepend (all_ st) st0) as Hst.
  { unfold prepend, st0. destruct st. cbn. by rewrite app_nil_r. }
  split_and!.
  - unfold MainPage.get_options.
    unfold bind at 1. simpl.
    unfold bind at 1. simpl. unfold bind at 1.
    pose proof (load_loop_blind (keys (data st)) (all_ st) st0) as Hb.
    cbv zeta in Hb, Hrun. rewrite Hrun in Hb. by rewrite Hst, Hb.
  - done.
  - cbn. by rewrite (sound_all _ Hs).
  - apply Hs.
  - cbn [options prepend with_all]. rewrite Hl. cbn. by rewrite Hlen.
  - intros o Ho. cbn [options prepend with_all] in Ho. rewrite Hl in Ho.
    cbn in Ho. rewrite Forall_forall in Hnew. by apply Hnew.
  - intros o Ho. by apply Hold.
  - intros d. change (folder_named (prepend (all_ st) stL) d) with (folder_named stL d).
    rewrite Hnamed, elem_of_keys. split; [|by right].
    intros [(o & x & Ho & _)|Hd]; [by apply elem_of_nil in Ho|done].
  - intros d dir Hd. destruct (Hitems d) as (o & start & Ho & Hx).
    { apply elem_of_keys. by rewrite Hd. }
    rewrite Hd in Hx. exists o, start. done.
Qed.

Lemma get_options_registers_again_witness :
  ∃ st', MainPage.get_options demo_two = (Ok (options st'), st')
    ∧ data st' = data demo_two
    ∧ all_ st' = all_ demo_two ++ options st'
    ∧ NoDup (options st')
    ∧ length (options st') = length (keys (data demo_two))
    ∧ (∀ o, o ∈ options st' → next_id demo_two ≤ o)
    ∧ (∀ o, o < next_id demo_two → objs st' !! o = objs demo_two !! o)
    ∧ (∀ d, folder_named st' d ↔ is_Some (data demo_two !! d))
    ∧ (∀ d dir, data demo_two !! d = Some dir →
         ∃ o start, o ∈ options st'
           ∧ objs st' !! o
             = Some (mkOption d (mk_apps start (dir_items d dir (keys dir))) false)).
Proof.
  apply (get_options_registers_again demo_two).
  - apply sound_tidy, wf_sound, demo_two_wf.
  - intros o. apply sound_fresh, wf_sound, demo_two_wf.
Defined.

(** * Buttons pressed when the directory is gone *)






(** * Adding a program *)

Lemma mk_apps_has start items p t :
  (p, t) ∈ items → ∃ a, a ∈ mk_apps start items ∧ app_path a = p ∧ app_type a = t.
Proof.
  intros Hin. rewrite <- (mk_apps_items start) in Hin.
  apply list_elem_of_fmap in Hin as (a & [= Hp Ht] & Ha). by exists a.
Qed.

(** X16. "Add new program".  Cancelling the file dialog changes nothing.
    Choosing a program for a folder whose directory exists saves a shortcut
    named after the program's stem in that directory and adds one unticked
    program item for it to the end of the folder; and when the program is
    started again on the data folder as it then is, the folder of that name
    has a program item for the shortcut. *)
Theorem add_exe_adds_shortcut (o : nat) (x : Option) (dir : gmap string string)
    (file : ChosenFile) (st : State) :
  tidy (data st) →
  objs st !! o = Some x → data st !! name x = Some dir →
  OptionPage.add_exe o None st = (Ok tt, st)
  ∧ OptionPage.add_exe o (Some file) st = (Ok tt, with_program_item o x dir file st)
  ∧ ∃ o' x' a,
      o' ∈ options (startup (data (with_program_item o x dir file st)))
      ∧ objs (startup (data (with_program_item o x dir file st))) !! o' = Some x'
      ∧ name x' = name x ∧ a ∈ apps x' ∧ app_type a = lnk
      ∧ app_path a = PurePath [name x; file_stem file +:+ ".lnk"].
Proof.
  intros Ht Ho Hd. split; [done|]. split; [by apply add_exe_run|].
  cbn [with_program_item data].
  destruct (startup_folder
              (<[name x := <[file_stem file +:+ ".lnk" := file_name file]> dir]> (data st))
              (name x) (<[file_stem file +:+ ".lnk" := file_name file]> dir))
    as (o' & start & Ho' & Hx').
  { by apply (tidy_insert _ _ dir). }
  { by rewrite lookup_insert_eq. }
  destruct (mk_apps_has start
              (dir_items (name x) (<[file_stem file +:+ ".lnk" := file_name file]> dir)
                 (keys (<[file_stem file +:+ ".lnk" := file_name file]> dir)))
              (PurePath [name x; file_stem file +:+ ".lnk"]) lnk)
    as (a & Ha & Hp & Hty).
  { apply dir_items_lnk. rewrite lookup_insert_eq.
    split; [eauto|apply lnk_name_not_weburls]. }
  eexists o', _, a. split_and!; [done|exact Hx'|done..].
Qed.

Lemma add_exe_adds_shortcut_witness :
  OptionPage.add_exe 1 None demo_two = (Ok tt, demo_two)
  ∧ OptionPage.add_exe 1 (Some (mkChosenFile "C:/apps/chrome.exe" "chrome")) demo_two
    = (Ok tt,
       with_program_item 1 (mkOption "play" [] false) new_directory
         (mkChosenFile "C:/apps/chrome.exe" "chrome") demo_two)
  ∧ ∃ o' x' a,
      o' ∈ options (startup (data (with_program_item 1 (mkOption "play" [] false)
                                     new_directory
                                     (mkChosenFile "C:/apps/chrome.exe" "chrome")
                                     demo_two)))
      ∧ objs (startup (data (with_program_item 1 (mkOption "play" [] false)
                               new_directory
                               (mkChosenFile "C:/apps/chrome.exe" "chrome")
                               demo_two))) !! o' = Some x'
      ∧ name x' = "play" ∧ a ∈ apps x' ∧ app_type a = lnk
      ∧ app_path a = PurePath ["play"; "chrome.lnk"].
Proof.
  apply (add_exe_adds_shortcut 1 (mkOption "play" [] false) new_directory
           (mkChosenFile "C:/apps/chrome.exe" "chrome") demo_two).
  - apply demo_two_wf.
  - vm_compute. reflexivity.
  - vm_compute. reflexivity.
Defined.

(** * Clicks *)

Lemma select_app_twice a : OptionApp.select_app (OptionApp.select_app a) = a.
Proof. destruct a as [i p t []]; reflexivity. Qed.

Lemma alter_alter_id {V} (f g : V → V) (m : gmap nat V) i :
  (∀ x, m !! i = Some x → f (g x) = x) → alter f i (alter g i m) = m.
Proof.
  intros H. apply map_eq. intros k. rewrite !lookup_alter.
  case_decide; [|done]. subst. rewrite decide_True by done.
  destruct (m !! k) as [x|] eqn:Hx; [|done]. simpl. f_equal. by apply H.
Qed.

Lemma list_alter_alter_id {V} (f g : V → V) (l : list V) i :
  (∀ x, f (g x) = x) → alter f i (alter g i l) = l.
Proof.
  intros H. apply list_eq. intros k. rewrite !list_lookup_alter.
  case_decide; [|done]. subst. rewrite decide_True by done.
  destruct (l !! k) as [x|]; [|done]. simpl. f_equal. apply H.
Qed.

(** X17. A click on the label of an item of a folder flips the tick of
    that item: the call returns, the item at that place has its identity,
    path and kind as before and the opposite tick, and every other item,
    every other folder and the rest of the state are as they were.  A second
    click on the same label brings back the state as it was. *)
Theorem click_app_twice (option index : nat) (st : State) (x : Option)
    (a : OptionApp) :
  objs st !! option = Some x → apps x !! index = Some a →
  OptionPage.click_app option index st
  = (Ok tt,
     with_objs
       (<[option :=
            set_apps
              (<[index := mkOptionApp (app_id a) (app_path a) (app_type a)
                            (negb (app_selected a))]> (apps x)) x]>) st)
  ∧ (OptionPage.click_app option index (OptionPage.click_app option index st).2).2
    = st.
Proof.
  intros Hx Ha. split.
  - cbv [OptionPage.click_app update_option modify]. f_equal.
    destruct st as [h n al o d l]. unfold with_objs. cbn in *. f_equal.
    rewrite (alter_alt_Some _ _ _ _ Hx). f_equal. f_equal.
    apply list_eq. intros k. rewrite list_lookup_alter, list_lookup_insert.
    destruct (decide (index = k)) as [->|Hne].
    + rewrite decide_True; [|split; [done|by eapply lookup_lt_Some]].
      rewrite Ha. simpl. f_equal.
      destruct a as [i p t []]; reflexivity.
    + rewrite decide_False; [done|]. by intros [? _].
  - cbv [OptionPage.click_app update_option modify]. cbn [snd].
    destruct st as [h n al o d l]. unfold with_objs. cbn. f_equal.
    apply alter_alter_id. intros y _.
    destruct y as [nm l' s]. unfold set_apps. cbn. f_equal.
    apply list_alter_alter_id, select_app_twice.
Qed.

Lemma click_app_twice_witness :
  OptionPage.click_app 0 0 demo
  = (Ok tt,
     with_objs
       (<[0 :=
            set_apps
              (<[0 := mkOptionApp 1 (Str "https://example.com") web false]>
                 (apps demo_work)) demo_work]>) demo)
  ∧ (OptionPage.click_app 0 0 (OptionPage.click_app 0 0 demo).2).2 = demo.
Proof.
  apply (click_app_twice 0 0 demo demo_work
           (mkOptionApp 1 (Str "https://example.com") web true)).
  - vm_compute. reflexivity.
  - reflexivity.
Defined.

Lemma on_click_again self st :
  exclusive st → self ∈ all_ st →
  Option.on_click self (Option.on_click self st).2
  = (Ok tt, (Option.on_click self st).2).
Proof.
  intros Hex Hin.
  pose proof (on_click_selected self st Hex Hin) as Hsel.
  pose proof (on_click_exclusive self st Hex Hin) as Hex1.
  set (st1 := (Option.on_click self st).2) in *.
  assert (self ∈ selected_folders st1) as Hself by (rewrite Hsel; left).
  rewrite on_click_run, (first_selected_exclusive st1 self Hex1 Hself).
  f_equal. apply elem_of_selected_folders in Hself as [_ Hs].
  cbv [Option.select Option.deselect update_option modify]. cbn [snd].
  destruct st1 as [h n a o d l]. unfold with_objs. cbn in *. f_equal.
  apply alter_alter_id. intros x Hx.
  unfold Option.is_selected in Hs. rewrite Hx in Hs.
  destruct x as [nm l' s]. cbn in *. by subst.
Qed.

(** X18. Clicking a folder that is already the selected one changes
    nothing: [on_click] deselects it and selects it again.  This holds
    wherever the selection is exclusive, so in every state the program
    reaches. *)
Theorem on_click_idempotent (self : nat) (st : State) :
  exclusive st → self ∈ all_ st →
  Option.on_click self (Option.on_click self st).2
  = (Ok tt, (Option.on_click self st).2).
Proof. apply on_click_again. Qed.

Lemma on_click_idempotent_witness :
  Option.on_click 1 (Option.on_click 1 demo_two).2
  = (Ok tt, (Option.on_click 1 demo_two).2).
Proof.
  apply (on_click_idempotent 1 demo_two).
  - apply (reachable_exclusive Windows ∅). apply demo_two_reachable.
  - vm_compute. apply list_elem_of_further, list_elem_of_here.
Defined.

(** * The window and the iterator *)

Lemma show_page_visible page w :
  packed w = {[cur_page w]} →
  cur_page (AutoOpenerApp.show_page page w) = page
  ∧ packed (AutoOpenerApp.show_page page w) = {[page]}.
Proof.
  intros Hw. split; [done|].
  cbv [AutoOpenerApp.show_page AutoOpenerApp.pack AutoOpenerApp.pack_forget].
  cbn [cur_page packed]. rewrite Hw.
  by rewrite difference_diag_L, (right_id_L ∅ (∪)).
Qed.

(** X19. One page is visible at a time.  However many pages are shown
    one after the other, the page shown last (the overview when none was) is
    the current page and it alone is packed. *)
Theorem show_page_one_visible (pages : list Page) :
  cur_page (show_pages pages) = default main_page (last pages)
  ∧ packed (show_pages pages) = {[cur_page (show_pages pages)]}.
Proof.
  unfold show_pages. induction pages as [|page pages IH] using rev_ind.
  - split; [done|]. cbn. set_solver.
  - rewrite foldl_app, last_snoc. cbn [foldl default].
    destruct IH as [_ IH].
    destruct (show_page_visible page _ IH) as [Hc Hp]. by rewrite Hc, Hp.
Qed.

Lemma collect_run rounds :
  ∀ i st o x,
    objs st !! o = Some x → length (apps x) < i + rounds →
    OptionIter.collect rounds (mkOptionIter o i) st = (Ok (drop i (apps x)), st).
Proof.
  induction rounds as [|rounds IH]; intros i st o x Ho Hlen.
  - cbn. rewrite drop_ge by lia. done.
  - cbn [OptionIter.collect]. unfold OptionIter.__next__. cbn [iter_option cur_index].
    unfold bind at 1. rewrite (bind_the_option _ _ _ _ Ho).
    destruct (apps x !! i) as [a|] eqn:Ha.
    + unfold ret at 1. cbv iota. unfold bind at 1.
      rewrite (IH (S i) st o x Ho) by lia. unfold ret.
      by rewrite (drop_S _ _ _ Ha).
    + unfold ret at 1. cbv iota. apply lookup_ge_None in Ha.
      rewrite drop_ge by done. done.
Qed.

(** X20. Iterating over a folder gives its items.  A new iterator, asked
    until it stops, yields the items of the folder in their stored order and
    leaves the state as it was; asked again once it has stopped, it stops
    again. *)
Theorem option_iter_yields_apps (rounds o : nat) (x : Option) (st : State) :
  objs st !! o = Some x → length (apps x) < rounds →
  OptionIter.collect rounds (OptionIter.__init__ o) st = (Ok (apps x), st)
  ∧ OptionIter.__next__ (mkOptionIter o (length (apps x))) st
    = (Ok (None, mkOptionIter o (length (apps x))), st).
Proof.
  intros Ho Hlen. split.
  - unfold OptionIter.__init__. by rewrite (collect_run rounds 0 st o x Ho) by lia.
  - unfold OptionIter.__next__. cbn [iter_option cur_index].
    rewrite (bind_the_option _ _ _ _ Ho).
    by rewrite (proj2 (lookup_ge_None _ _) (le_n _)).
Qed.

Lemma option_iter_yields_apps_witness :
  OptionIter.collect 3 (OptionIter.__init__ 0) demo
  = (Ok [mkOptionApp 1 (Str "https://example.com") web true;
         mkOptionApp 2 (Str "http://b.org") web false], demo)
  ∧ OptionIter.__next__ (mkOptionIter 0 2) demo = (Ok (None, mkOptionIter 0 2), demo).
Proof.
  apply (option_iter_yields_apps 3 0 demo_work demo).
  - apply demo_objs.
  - cbn. lia.
Defined.
